(** * IELTS verifiable-credential system: accumulator, disclosure proofs, roles

    A shallow embedding of the TypeScript sources

      - [src/core/zk-manager/hashing-utils.ts]        (HashingUtils)
      - [src/core/zk-manager/merkle-tree-manager.ts]  (MerkleTreeManager)
      - [src/core/zk-manager/proof-generator.ts]      (ProofGenerator)
      - [src/core/zk-manager/proof-verifier.ts]       (ProofVerifier)
      - [src/core/zk-manager/state-manager.ts]        (StateManager)
      - [src/core/bbs-manager.ts]                     (BBSManager)
      - [src/components/registry.ts]                  (Registry)
      - [src/components/holder.ts]                    (Holder)
      - [src/components/verifier.ts]                  (Verifier)

    Classes become records of their fields, methods become functions that
    take the receiver's state and return the new state next to the result.
    A thrown exception is the [Throw] case of [Result].  The npm packages
    the program calls (the Poseidon hash of circomlibjs, the indexed Merkle
    tree, the BLS signature check) are not part of the repository: they are
    the operations of the interfaces [IndexedMerkleTree] and
    [Collaborators], and every general theorem holds for all their
    implementations.  [Fixture] holds small executable stand-ins on which
    the closed examples are evaluated. *)

From Stdlib Require Import ZArith QArith String Ascii List.
From Stdlib Require Import DecimalString DecimalZ.
From stdpp Require Import base option gmap strings list.

#[local] Set Warnings "-clear-no-such-hyp".

Local Open Scope Z_scope.
Local Open Scope string_scope.

(** ** JavaScript values and primitives used by the sources *)

Module JS.

(** [number]: the scores and thresholds are finite doubles; comparing two
    finite doubles agrees with comparing the rationals they denote. *)
Definition number := Q.

(** [a < b] on numbers. *)
Definition ltb (a b : number) : bool := negb (Qle_bool b a).

(** [a > b] on numbers. *)
Definition gtb (a b : number) : bool := ltb b a.

(** Exceptions the modelled code can raise. *)
Inductive Error :=
| Err (message : string)        (* throw new Error(message) *)
| TypeError (message : string)  (* property read on undefined *)
| SyntaxError (message : string) (* BigInt of a non-numeric string *).

Inductive Result (A : Type) :=
| Ok (a : A)
| Throw (e : Error).
Arguments Ok {A} a.
Arguments Throw {A} e.

Definition bind {A B} (r : Result A) (k : A -> Result B) : Result B :=
  match r with
  | Ok a => k a
  | Throw e => Throw e
  end.

Definition isOk {A} (r : Result A) : bool :=
  match r with Ok _ => true | Throw _ => false end.

(** Truthiness of a string: only the empty string is falsy. *)
Definition truthy (s : string) : bool := negb (String.eqb s "").

(** [s.includes(sub)] *)
Definition includes (sub s : string) : bool :=
  match String.index 0 sub s with Some _ => true | None => false end.

(** [s.startsWith(p)] *)
Definition startsWith (p s : string) : bool := String.prefix p s.

(** [s.split(sep)] for a one-character separator. *)
Fixpoint split (sep : ascii) (s : string) : list string :=
  match s with
  | EmptyString => [EmptyString]
  | String c rest =>
      if Ascii.eqb c sep then EmptyString :: split sep rest
      else match split sep rest with
           | hd :: tl => String c hd :: tl
           | [] => [String c EmptyString]
           end
  end.

(** [s.replace(pat, rep)] with a string pattern: first occurrence only. *)
Definition replace (pat rep s : string) : string :=
  match String.index 0 pat s with
  | Some i =>
      String.substring 0 i s ++ rep ++
      String.substring (i + String.length pat)
                       (String.length s - (i + String.length pat)) s
  | None => s
  end.

(** [parts.join(sep)] *)
Fixpoint join (sep : string) (parts : list string) : string :=
  match parts with
  | [] => ""
  | [p] => p
  | p :: ps => p ++ sep ++ join sep ps
  end.

(** [z.toString()] on a bigint: the decimal rendering. *)
Definition toString (z : Z) : string := NilZero.string_of_int (Z.to_int z).

(** White space as [BigInt(s)] skips it: the code points of WhiteSpace and
    LineTerminator, read in the UTF-8 bytes that a string is kept as
    (see [encode]). *)
Definition isCode (c : ascii) (codes : list nat) : bool :=
  existsb (Nat.eqb (nat_of_ascii c)) codes.

(** U+1680, U+2000 to U+200A, U+2028, U+2029, U+202F, U+205F, U+3000 and
    U+FEFF. *)
Definition whiteSpace3 (c1 c2 c3 : ascii) : bool :=
  let b1 := nat_of_ascii c1 in
  let b2 := nat_of_ascii c2 in
  let b3 := nat_of_ascii c3 in
  (Nat.eqb b1 225 && Nat.eqb b2 154 && Nat.eqb b3 128)
  || (Nat.eqb b1 226 && Nat.eqb b2 128
      && (Nat.leb 128 b3 && Nat.leb b3 138
          || Nat.eqb b3 168 || Nat.eqb b3 169 || Nat.eqb b3 175))
  || (Nat.eqb b1 226 && Nat.eqb b2 129 && Nat.eqb b3 159)
  || (Nat.eqb b1 227 && Nat.eqb b2 128 && Nat.eqb b3 128)
  || (Nat.eqb b1 239 && Nat.eqb b2 187 && Nat.eqb b3 191).

Fixpoint trimStart (s : string) : string :=
  match s with
  | EmptyString => s
  | String c1 rest =>
      if isCode c1 [9; 10; 11; 12; 13; 32]%nat then trimStart rest
      else if isCode c1 [194]%nat then
        match rest with
        | String c2 rest2 => if isCode c2 [160]%nat then trimStart rest2 else s
        | EmptyString => s
        end
      else if isCode c1 [225; 226; 227; 239]%nat then
        match rest with
        | String c2 (String c3 rest3) =>
            if whiteSpace3 c1 c2 c3 then trimStart rest3 else s
        | _ => s
        end
      else s
  end.

(** [s] without the white space at its end: what is left when the rest is
    white space only. *)
Fixpoint trimEnd (s : string) : string :=
  match s with
  | EmptyString => s
  | String c rest =>
      if String.eqb (trimStart s) "" then "" else String c (trimEnd rest)
  end.

Definition trim (s : string) : string := trimEnd (trimStart s).

(** The value of a digit in some radix up to 16. *)
Definition digitValue (c : ascii) : option Z :=
  let n := nat_of_ascii c in
  if Nat.leb 48 n && Nat.leb n 57 then Some (Z.of_nat (n - 48))
  else if Nat.leb 97 n && Nat.leb n 102 then Some (Z.of_nat (n - 87))
  else if Nat.leb 65 n && Nat.leb n 70 then Some (Z.of_nat (n - 55))
  else None.

Fixpoint digits (radix acc : Z) (s : string) : option Z :=
  match s with
  | EmptyString => Some acc
  | String c rest =>
      match digitValue c with
      | Some d => if Z.ltb d radix then digits radix (acc * radix + d) rest
                  else None
      | None => None
      end
  end.

(** One digit at least. *)
Definition numeral (radix : Z) (s : string) : option Z :=
  match s with
  | EmptyString => None
  | _ => digits radix 0 s
  end.

(** [DecimalDigits], [+ DecimalDigits] or [- DecimalDigits] *)
Definition signedDecimal (t : string) : option Z :=
  match t with
  | String "+" rest => Z.of_uint <$> NilZero.uint_of_string rest
  | _ => Z.of_int <$> NilZero.int_of_string t
  end.

(** [0x], [0o] or [0b] (in either case) and digits of that radix. *)
Definition nonDecimal (t : string) : option Z :=
  match t with
  | String "0" (String c rest) =>
      if isCode c [120; 88]%nat then numeral 16 rest
      else if isCode c [111; 79]%nat then numeral 8 rest
      else if isCode c [98; 66]%nat then numeral 2 rest
      else None
  | _ => None
  end.

(** [BigInt(s)] on a string: white space around the literal is skipped,
    nothing or white space only is [0n], a literal is a decimal numeral
    with an optional sign or an unsigned numeral with a radix prefix;
    anything else raises a SyntaxError ([None]). *)
Definition BigInt (s : string) : option Z :=
  match trim s with
  | EmptyString => Some 0
  | t =>
      match signedDecimal t with
      | Some z => Some z
      | None => nonDecimal t
      end
  end.

End JS.

(** [Result] is a monad; the sources' straight-line code with throwing
    calls is written with stdpp's [x ← c; k]. *)
Global Instance Result_ret : MRet JS.Result := @JS.Ok.
Global Instance Result_bind : MBind JS.Result := fun A B k r => JS.bind r k.

(** ** Data model ([src/types]) *)

Record Scores := {
  listening : JS.number;
  reading : JS.number;
  writing : JS.number;
  speaking : JS.number;
  overall : JS.number
}.

Record IELTSCredential := {
  cred_id : string;
  holder : string;
  name : string;
  dateOfBirth : string;
  scores : Scores;
  certificationDate : string;
  expiryDate : string;
  testCenter : string;
  certificateNumber : string
}.

(** A value read from an object or stored in a [Record<string, any>].
    [VUndefined] is a value of its own: [o[k] = undefined] creates the key
    [k].  [VInherited name] is the member [name] that a plain object takes
    from [Object.prototype]: a function, or for [__proto__] the prototype
    itself. *)
Inductive JSValue :=
| VUndefined
| VNumber (q : JS.number)
| VString (s : string)
| VScores (sc : Scores)
| VInherited (name : string).

(** The property names of [Object.prototype]. *)
Definition inheritedNames : list string :=
  ["constructor"; "hasOwnProperty"; "isPrototypeOf"; "propertyIsEnumerable";
   "toLocaleString"; "toString"; "valueOf"; "__proto__";
   "__defineGetter__"; "__defineSetter__"; "__lookupGetter__";
   "__lookupSetter__"].

(** [o[key]] on a plain object for a [key] that is not its own. *)
Definition inherited (key : string) : JSValue :=
  if bool_decide (key ∈ inheritedNames) then VInherited key else VUndefined.

(** [credential.scores[scoreType]] *)
Definition scores_get (sc : Scores) (scoreType : string) : JSValue :=
  if String.eqb scoreType "listening" then VNumber (listening sc)
  else if String.eqb scoreType "reading" then VNumber (reading sc)
  else if String.eqb scoreType "writing" then VNumber (writing sc)
  else if String.eqb scoreType "speaking" then VNumber (speaking sc)
  else if String.eqb scoreType "overall" then VNumber (overall sc)
  else inherited scoreType.

(** [(credential as any)[field]] *)
Definition credential_get (c : IELTSCredential) (field : string) : JSValue :=
  if String.eqb field "id" then VString (cred_id c)
  else if String.eqb field "holder" then VString (holder c)
  else if String.eqb field "name" then VString (name c)
  else if String.eqb field "dateOfBirth" then VString (dateOfBirth c)
  else if String.eqb field "scores" then VScores (scores c)
  else if String.eqb field "certificationDate" then VString (certificationDate c)
  else if String.eqb field "expiryDate" then VString (expiryDate c)
  else if String.eqb field "testCenter" then VString (testCenter c)
  else if String.eqb field "certificateNumber" then VString (certificateNumber c)
  else inherited field.

Record BBSProof := {
  bbs_type : string;
  bbs_created : string;
  bbs_proofPurpose : string;
  verificationMethod : string;
  signature : list Z;
  publicKey : list Z
}.

(** The two sub-objects are optional in the model because
    [Holder.storeCredential] tests them for absence. *)
Record VerifiableCredential := {
  vc_id : string;
  vc_type : list string;
  issuer : string;
  issuanceDate : string;
  credentialSubject : option IELTSCredential;
  proof : option BBSProof
}.

Record MembershipProof := {
  leafIndex : Z;
  siblings : list string;
  directions : list Z
}.

Record PreLeaf := {
  val : string;
  nextVal : string;
  nextIdx : Z
}.

Record NonMembershipProof := {
  query : string;
  preLeaf : PreLeaf;
  nm_path : list string;
  nm_directions : list Z
}.

Record MerkleProof := {
  leaf : string;
  path : list string;
  indices : list Z;
  root : string;
  membershipProof : option MembershipProof;
  nonMembershipProof : option NonMembershipProof
}.

Record ZKProof := {
  zk_type : string;
  zk_created : string;
  zk_proofPurpose : string;
  merkleRoot : string;
  zkProof : option MerkleProof;
  revealedAttributes : gmap string JSValue
}.

Record PresentationRequest := {
  req_id : string;
  verifier : string;
  requiredFields : list string;
  minimumScores : option (list (string * JS.number));
  purpose : string
}.

Record VerifiablePresentation := {
  vp_id : string;
  vp_type : list string;
  vp_holder : string;
  verifiableCredential : list VerifiableCredential;
  vp_proof : ZKProof
}.

Record RegistryEntry := {
  credentialId : string;
  entry_issuer : string;
  entry_holder : string;
  entry_issuanceDate : string;
  revoked : bool;
  merkleTreeIndex : option Z
}.

(** ** The collaborators outside the repository *)

(** What [poseidonHash(inputs)] may hand back, as
    [HashingUtils.convertPoseidonToBigInt] distinguishes it. *)
Inductive PoseidonOut :=
| PBigInt (z : Z)
| PUint8Array (bytes : list Z)
| PArray (items : list Z)
| POther (s : string).

(** The proof object of the tree library, with bigint fields. *)
Record LibNonMembershipProof := {
  lib_query : Z;
  lib_val : Z;
  lib_nextVal : Z;
  lib_nextIdx : Z;
  lib_path : list Z;
  lib_directions : list Z;
  lib_root : Z
}.

(** The side tables as [StateManager.saveTreeState] writes them:
    [Object.fromEntries] of the three maps, leaf hashes rendered as
    strings. *)
Record AdditionalState := {
  st_credentials : gmap string IELTSCredential;
  st_leafNodes : gmap string string;
  st_credentialIndices : gmap string Z
}.

(** A file: the snapshot text written by the tree library, or the JSON text
    of the side tables.  JSON text is represented by the value it denotes,
    so [JSON.parse (JSON.stringify v)] is [v]. *)
Inductive FileContent :=
| TreeFile (blob : string)
| JsonFile (v : AdditionalState).

(** The file system as the two calls see it: the files by path, and the
    paths at which writing a file throws (the directory does not exist,
    the path is a directory, the permission is missing). *)
Record FileSystem := {
  files : gmap string FileContent;
  unwritable : gset string
}.

(** [fs.writeFileSync(path, content)], and the write of the tree library's
    [saveToFile]. *)
Definition writeFile (fs : FileSystem) (path : string) (content : FileContent)
  : JS.Result FileSystem :=
  if bool_decide (path ∈ unwritable fs)
  then JS.Throw (JS.Err ("ENOENT: no such file or directory, open " ++ path))
  else JS.Ok {| files := <[path := content]> (files fs);
                unwritable := unwritable fs |}.

(** [@jayanth-kumar-morem/indexed-merkle-tree]: the operations the program
    calls on an [IndexedMerkleTree]. *)
Class IndexedMerkleTree (T : Type) := {
  imt_new : T;
  imt_size : T -> Z;
  imt_root : T -> Z;
  imt_insert : T -> Z -> JS.Result T;
  imt_createNonMembershipProof : T -> Z -> JS.Result LibNonMembershipProof;
  imt_verifyNonMembershipProof : T -> LibNonMembershipProof -> JS.Result bool;
  imt_saveToFile : T -> string;
  imt_loadFromFile : FileContent -> JS.Result T
}.

(** circomlibjs ([buildPoseidon] is the hash function it builds), the BLS
    signature check ([blsVerify publicKey messages signature]), and two
    conversions of the language itself: [Number.prototype.toString] and
    the conversion of a string to a number ([None] is [NaN]). *)
Class Collaborators := {
  buildPoseidon : list Z -> PoseidonOut;
  blsVerify : list Z -> list string -> list Z -> bool;
  numberToString : JS.number -> string;
  stringToNumber : string -> option JS.number
}.

(** ** HashingUtils ([hashing-utils.ts]) *)

(** The field [poseidonHash] is unset until [initialize] stores the function
    built by circomlibjs in it; the record keeps whether it is set, and
    [getPoseidonHash] below hands out the collaborator's function. *)
Record HashingUtils := {
  poseidonBuilt : bool
}.

(** [result = (result << 8) | hash[i]] over the bytes, most significant
    first. *)
Definition bytesToBigInt (bytes : list Z) : Z :=
  fold_left (fun result b => Z.lor (Z.shiftl result 8) b) bytes 0.

Definition convertPoseidonToBigInt (hash : PoseidonOut) : JS.Result Z :=
  match hash with
  | PBigInt z => JS.Ok z
  | PUint8Array bytes => JS.Ok (bytesToBigInt bytes)
  | PArray items => JS.Ok (bytesToBigInt items)
  | POther s =>
      match JS.BigInt s with
      | Some z => JS.Ok z
      | None => JS.Throw (JS.SyntaxError "Cannot convert to a BigInt")
      end
  end.

(** [new TextEncoder().encode(data)]: the string is kept as its bytes. *)
Definition encode (data : string) : list Z :=
  map (fun c => Z.of_nat (nat_of_ascii c)) (list_ascii_of_string data).

(** [for (i = 0; i < dataBytes.length; i += 31) dataBytes.slice(i, i + 31)] *)
Fixpoint chunk_go (fuel : nat) (bytes : list Z) : list (list Z) :=
  match fuel with
  | O => []
  | S fuel' =>
      match bytes with
      | [] => []
      | _ => take 31 bytes :: chunk_go fuel' (drop 31 bytes)
      end
  end.

Definition chunks (bytes : list Z) : list Z :=
  map bytesToBigInt (chunk_go (length bytes) bytes).

Section Accumulator.

Context `{C : Collaborators}.
Context {T : Type} `{IMT : IndexedMerkleTree T}.

Definition HashingUtils_initialize (hu : HashingUtils) : HashingUtils :=
  {| poseidonBuilt := true |}.

Definition getPoseidonHash (hu : HashingUtils) : option (list Z -> PoseidonOut) :=
  if poseidonBuilt hu then Some buildPoseidon else None.

Definition hashCredential (hu : HashingUtils) (credential : IELTSCredential)
  : JS.Result Z :=
  match getPoseidonHash hu with
  | None => JS.Throw (JS.Err "HashingUtils not initialized")
  | Some poseidon =>
      let data := JS.join "|"
        [ cred_id credential; holder credential; name credential;
          dateOfBirth credential;
          numberToString (listening (scores credential));
          numberToString (reading (scores credential));
          numberToString (writing (scores credential));
          numberToString (speaking (scores credential));
          numberToString (overall (scores credential));
          certificationDate credential; expiryDate credential;
          testCenter credential; certificateNumber credential ] in
      let cs := chunks (encode data) in
      let hash :=
        match cs with
        | [c0] => poseidon [c0]
        | _ => poseidon cs
        end in
      convertPoseidonToBigInt hash
  end.

(** ** MerkleTreeManager ([merkle-tree-manager.ts]) *)

Record MerkleTreeManager := {
  merkleTree : option T;
  credentials : gmap string IELTSCredential;
  leafNodes : gmap string Z;
  credentialIndices : gmap string Z
}.

Definition MerkleTreeManager_new : MerkleTreeManager :=
  {| merkleTree := None; credentials := ∅; leafNodes := ∅;
     credentialIndices := ∅ |}.

Definition MerkleTreeManager_initialize (m : MerkleTreeManager)
  : MerkleTreeManager :=
  {| merkleTree := Some imt_new; credentials := credentials m;
     leafNodes := leafNodes m; credentialIndices := credentialIndices m |}.


(** [error.message] *)
Definition errorMessage (e : JS.Error) : string :=
  match e with
  | JS.Err msg | JS.TypeError msg | JS.SyntaxError msg => msg
  end.

(** The [catch] of [addCredential]: an error whose message includes
    ['already exists'] is replaced, any other is rethrown. *)
Definition rethrowInsert (e : JS.Error) : JS.Error :=
  if JS.includes "already exists" (errorMessage e)
  then JS.Err "Credential hash already exists in the tree"
  else e.

(** [addCredential]: the result and the manager as the call leaves it. *)
Definition MerkleTreeManager_addCredential (hu : HashingUtils)
    (m : MerkleTreeManager) (credential : IELTSCredential)
  : JS.Result Z * MerkleTreeManager :=
  let m := match merkleTree m with
           | None => MerkleTreeManager_initialize m
           | Some _ => m
           end in
  match merkleTree m with
  | None => (JS.Throw (JS.TypeError "merkleTree is null"), m)
  | Some tree =>
    match hashCredential hu credential with
    | JS.Throw e => (JS.Throw e, m)
    | JS.Ok credentialHash =>
      if decide (is_Some (credentials m !! cred_id credential)) then
        (JS.Throw (JS.Err ("Credential " ++ cred_id credential
                            ++ " is already registered")), m)
      else
        let treeIndex := Z.max 0 (imt_size tree - 1) in
        match imt_insert tree credentialHash with
        | JS.Throw e => (JS.Throw (rethrowInsert e), m)
        | JS.Ok tree' =>
            (JS.Ok treeIndex,
             {| merkleTree := Some tree';
                credentials := <[cred_id credential := credential]> (credentials m);
                leafNodes := <[cred_id credential := credentialHash]> (leafNodes m);
                credentialIndices :=
                  <[cred_id credential := treeIndex]> (credentialIndices m) |})
        end
    end
  end.

Definition getRoot (m : MerkleTreeManager) : string :=
  match merkleTree m with
  | None => "0"
  | Some tree => JS.toString (imt_root tree)
  end.

(** The loop of [generateMembershipProof], [levels] iterations from
    [currentIndex]: the pushed siblings and directions.  [siblingIndex]
    is computed by the source and never read. *)
Fixpoint membershipLoop (levels : nat) (currentIndex : Z)
  : list string * list Z :=
  match levels with
  | O => ([], [])
  | S levels' =>
      let isRightChild := Z.eqb (Z.rem currentIndex 2) 1 in
      let siblingIndex :=
        if isRightChild then currentIndex - 1 else currentIndex + 1 in
      let rest := membershipLoop levels' (currentIndex / 2) in
      ("0" :: fst rest, (if isRightChild then 1 else 0) :: snd rest)
  end.

Definition depth : nat := 32.

Definition generateMembershipProof (m : MerkleTreeManager)
    (credentialHash : Z) (leafIndex : Z) : JS.Result MembershipProof :=
  match merkleTree m with
  | None => JS.Throw (JS.Err "Merkle tree not initialized")
  | Some _ =>
      let sd := membershipLoop depth leafIndex in
      JS.Ok {| leafIndex := leafIndex; siblings := fst sd; directions := snd sd |}
  end.

Definition generateNonMembershipProof (m : MerkleTreeManager) (queryValue : Z)
  : option NonMembershipProof :=
  match merkleTree m with
  | None => None
  | Some tree =>
      match imt_createNonMembershipProof tree queryValue with
      | JS.Ok p =>
          Some {| query := JS.toString queryValue;
                  preLeaf := {| val := JS.toString (lib_val p);
                                nextVal := JS.toString (lib_nextVal p);
                                nextIdx := lib_nextIdx p |};
                  nm_path := map JS.toString (lib_path p);
                  nm_directions := lib_directions p |}
      | JS.Throw _ => None
      end
  end.

(** [BigInt] over a list of strings; the first failure aborts. *)
Definition BigInts (l : list string) : option (list Z) := mapM JS.BigInt l.

Definition MerkleTreeManager_verifyNonMembershipProof (m : MerkleTreeManager)
    (nmp : NonMembershipProof) : bool :=
  match merkleTree m with
  | None => false
  | Some tree =>
      match JS.BigInt (query nmp), JS.BigInt (val (preLeaf nmp)),
            JS.BigInt (nextVal (preLeaf nmp)), BigInts (nm_path nmp) with
      | Some q, Some v, Some nv, Some p =>
          match imt_verifyNonMembershipProof tree
                  {| lib_query := q; lib_val := v; lib_nextVal := nv;
                     lib_nextIdx := nextIdx (preLeaf nmp); lib_path := p;
                     lib_directions := nm_directions nmp;
                     lib_root := imt_root tree |} with
          | JS.Ok b => b
          | JS.Throw _ => false
          end
      | _, _, _, _ => false
      end
  end.

(** ** ProofGenerator ([proof-generator.ts]) *)

(** The calls [generateZKProof] makes on its [MerkleTreeManager], in the
    order it makes them. *)
Inductive Call :=
| CallGetCredential
| CallGetCredentialHash
| CallGetCredentialIndex
| CallGenerateMembershipProof
| CallGenerateNonMembershipProof
| CallGetRoot.

(** One iteration of the loop over [revealedFields].  The assignment
    [revealedAttributes[field] = value] creates the key [field], except for
    the field ['__proto__']: that assignment runs the setter inherited from
    [Object.prototype], which here sets the prototype to the one it has
    already, and creates no key. *)
Definition reveal (credential : IELTSCredential)
    (revealedAttributes : gmap string JSValue) (field : string)
  : gmap string JSValue :=
  if JS.includes "scores." field then
    let scoreType := default "undefined" (JS.split "." field !! 1%nat) in
    <[field := scores_get (scores credential) scoreType]> revealedAttributes
  else if String.eqb field "__proto__" then revealedAttributes
  else
    <[field := credential_get credential field]> revealedAttributes.

Definition revealAll (credential : IELTSCredential) (revealedFields : list string)
  : gmap string JSValue :=
  fold_left (reveal credential) revealedFields ∅.

(** [v < n] and [v > n] for any value [v] and a number [n]: a number
    compares as a number, a string through its numeric value, and
    [undefined], an object or a function (all [NaN]) compare false. *)
Definition valueLt (v : JSValue) (n : JS.number) : bool :=
  match v with
  | VNumber a => JS.ltb a n
  | VString s => match stringToNumber s with
                 | Some a => JS.ltb a n
                 | None => false
                 end
  | VUndefined | VScores _ | VInherited _ => false
  end.

Definition valueGt (v : JSValue) (n : JS.number) : bool :=
  match v with
  | VNumber a => JS.gtb a n
  | VString s => match stringToNumber s with
                 | Some a => JS.gtb a n
                 | None => false
                 end
  | VUndefined | VScores _ | VInherited _ => false
  end.

(** The loop over [Object.entries(minimumScores)]: the score type of the
    first entry that throws, if any. *)
Fixpoint firstUnmet (credential : IELTSCredential)
    (entries : list (string * JS.number)) : option string :=
  match entries with
  | [] => None
  | (scoreType, minScore) :: rest =>
      if valueLt (scores_get (scores credential) scoreType) minScore
      then Some scoreType
      else firstUnmet credential rest
  end.

(** [generateZKProof]: the calls made on the manager and the outcome.
    [now] is [new Date().toISOString()]. *)
Definition generateZKProof (m : MerkleTreeManager) (now : string)
    (credentialId : string) (revealedFields : list string)
    (minimumScores : option (list (string * JS.number)))
  : list Call * JS.Result ZKProof :=
  match credentials m !! credentialId with
  | None => ([CallGetCredential], JS.Throw (JS.Err "Credential not found"))
  | Some credential =>
    match (match leafNodes m !! credentialId with
           | Some h => if Z.eqb h 0 then None else Some h
           | None => None
           end) with
    | None => ([CallGetCredential; CallGetCredentialHash],
               JS.Throw (JS.Err "Credential hash not found"))
    | Some credentialHash =>
      match credentialIndices m !! credentialId with
      | None => ([CallGetCredential; CallGetCredentialHash; CallGetCredentialIndex],
                 JS.Throw (JS.Err "Credential index not found"))
      | Some credentialIndex =>
        let lookups :=
          [CallGetCredential; CallGetCredentialHash; CallGetCredentialIndex] in
        match generateMembershipProof m credentialHash credentialIndex with
        | JS.Throw e => ((lookups ++ [CallGenerateMembershipProof])%list, JS.Throw e)
        | JS.Ok membershipProof =>
          let queryValue := credentialHash + 1 in
          let nonMembershipProof := generateNonMembershipProof m queryValue in
          let merkleProof :=
            {| leaf := JS.toString credentialHash;
               path := siblings membershipProof;
               indices := [credentialIndex];
               root := getRoot m;
               membershipProof := Some membershipProof;
               nonMembershipProof := nonMembershipProof |} in
          let revealedAttributes := revealAll credential revealedFields in
          let built :=
            (lookups ++ [CallGenerateMembershipProof;
                         CallGenerateNonMembershipProof; CallGetRoot])%list in
          match firstUnmet credential (default [] minimumScores) with
          | Some scoreType =>
              (built,
               JS.Throw (JS.Err ("Minimum score requirement not met for "
                                 ++ scoreType)))
          | None =>
              ((built ++ [CallGetRoot])%list,
               JS.Ok {| zk_type := "IndexedMerkleTreeProof2023";
                        zk_created := now;
                        zk_proofPurpose := "authentication";
                        merkleRoot := getRoot m;
                        zkProof := Some merkleProof;
                        revealedAttributes := revealedAttributes |})
          end
        end
      end
    end
  end.

(** ** ProofVerifier ([proof-verifier.ts]) *)

(** The loop of [verifyMembershipProof]: [directions[i]] is read next to
    [siblings[i]] and is [undefined] past the end of [directions].
    [None] is a thrown exception. *)
Fixpoint reconstruct (poseidon : list Z -> PoseidonOut)
    (siblings : list string) (directions : list Z) (currentHash : Z)
  : option Z :=
  match siblings with
  | [] => Some currentHash
  | s :: siblings' =>
      match JS.BigInt s with
      | None => None
      | Some sibling =>
          let direction := head directions in
          let hashResult :=
            if decide (direction = Some 0)
            then poseidon [currentHash; sibling]
            else poseidon [sibling; currentHash] in
          match convertPoseidonToBigInt hashResult with
          | JS.Throw _ => None
          | JS.Ok h => reconstruct poseidon siblings' (tail directions) h
          end
      end
  end.

Definition verifyMembershipProof (hu : HashingUtils) (leafHash : string)
    (membershipProof : MembershipProof) (expectedRoot : string) : bool :=
  match getPoseidonHash hu with
  | None => false
  | Some poseidon =>
      match JS.BigInt leafHash with
      | None => false
      | Some currentHash =>
          match reconstruct poseidon (siblings membershipProof)
                            (directions membershipProof) currentHash with
          | None => false
          | Some h => String.eqb (JS.toString h) expectedRoot
          end
      end
  end.

(** [!!(merkleProof && merkleProof.leaf && merkleProof.root)] *)
Definition verifyMerkleProof (merkleProof : option MerkleProof) : bool :=
  match merkleProof with
  | None => false
  | Some mp => JS.truthy (leaf mp) && JS.truthy (root mp)
  end.

(** [verifyZKProof]: the returned boolean and the lines written to the
    console by the two sub-proof checks. *)
Definition verifyZKProof (hu : HashingUtils) (m : MerkleTreeManager)
    (proof : ZKProof) (expectedRoot : option string) : bool * list string :=
  match zkProof proof with
  | None => (false, [])
  | Some mp =>
    if negb (JS.truthy (merkleRoot proof)) then (false, [])
    else if match expectedRoot with
            | Some e => JS.truthy e && negb (String.eqb (merkleRoot proof) e)
            | None => false
            end
    then (false, [])
    else
      let log1 :=
        match membershipProof mp with
        | Some membership =>
            let membershipValid :=
              verifyMembershipProof hu (leaf mp) membership (merkleRoot proof) in
            if membershipValid
            then ["Membership proof verified successfully"]
            else ["Membership proof verification failed, but continuing validation"]
        | None => []
        end in
      let log2 :=
        match nonMembershipProof mp with
        | Some nmp =>
            let nonMembershipValid :=
              MerkleTreeManager_verifyNonMembershipProof m nmp in
            if nonMembershipValid then []
            else ["Non-membership proof verification failed, but this may be acceptable"]
        | None => []
        end in
      let hasValidStructure := verifyMerkleProof (zkProof proof) in
      let hasValidRoot :=
        JS.truthy (merkleRoot proof) && negb (String.eqb (merkleRoot proof) "0") in
      (hasValidStructure && hasValidRoot, (log1 ++ log2)%list)
  end.

(** ** ZKManager ([core/zk-manager/index.ts]): the facade the roles use.
    The performance counters it also keeps are left out. *)

Record ZKManager := {
  hashingUtils : HashingUtils;
  merkleTreeManager : MerkleTreeManager
}.

Definition ZKManager_new : ZKManager :=
  {| hashingUtils := {| poseidonBuilt := false |};
     merkleTreeManager := MerkleTreeManager_new |}.

Definition ZKManager_initialize (zk : ZKManager) : ZKManager :=
  {| hashingUtils := HashingUtils_initialize (hashingUtils zk);
     merkleTreeManager := MerkleTreeManager_initialize (merkleTreeManager zk) |}.

Definition ZKManager_addCredential (zk : ZKManager) (credential : IELTSCredential)
  : JS.Result Z * ZKManager :=
  let zk := match getPoseidonHash (hashingUtils zk) with
            | None => ZKManager_initialize zk
            | Some _ => zk
            end in
  let '(r, m) := MerkleTreeManager_addCredential (hashingUtils zk)
                   (merkleTreeManager zk) credential in
  (r, {| hashingUtils := hashingUtils zk; merkleTreeManager := m |}).

Definition ZKManager_generateZKProof (zk : ZKManager) (now : string)
    (credentialId : string) (revealedFields : list string)
    (minimumScores : option (list (string * JS.number))) : JS.Result ZKProof :=
  snd (generateZKProof (merkleTreeManager zk) now credentialId revealedFields
                       minimumScores).

Definition ZKManager_verifyZKProof (zk : ZKManager) (proof : ZKProof)
    (expectedRoot : option string) : bool :=
  fst (verifyZKProof (hashingUtils zk) (merkleTreeManager zk) proof expectedRoot).

Definition getMerkleRoot (zk : ZKManager) : string := getRoot (merkleTreeManager zk).

(** ** StateManager ([state-manager.ts]) *)

(** [filePath.replace('.json', '-state.json')] *)
Definition stateFilePath (filePath : string) : string :=
  JS.replace ".json" "-state.json" filePath.

(** The error of the [catch] in [saveTreeState]; the source appends the
    text of the caught error to this message. *)
Definition saveError : JS.Error := JS.Err "Failed to save tree state".

(** [saveTreeState]: the outcome and the file system as the call leaves
    it (a snapshot written before the second write throws stays). *)
Definition saveTreeState (m : MerkleTreeManager) (fs : FileSystem)
    (filePath : string) : JS.Result () * FileSystem :=
  match merkleTree m with
  | None => (JS.Throw (JS.Err "Merkle tree not initialized"), fs)
  | Some tree =>
      match writeFile fs filePath (TreeFile (imt_saveToFile tree)) with
      | JS.Throw _ => (JS.Throw saveError, fs)
      | JS.Ok fs1 =>
          let additionalState :=
            {| st_credentials := credentials m;
               st_leafNodes := JS.toString <$> leafNodes m;
               st_credentialIndices := credentialIndices m |} in
          match writeFile fs1 (stateFilePath filePath)
                          (JsonFile additionalState) with
          | JS.Throw _ => (JS.Throw saveError, fs1)
          | JS.Ok fs2 => (JS.Ok (), fs2)
          end
      end
  end.




(** ** BBSManager ([bbs-manager.ts]) *)

Definition credentialToMessages (credential : IELTSCredential) : list string :=
  [ cred_id credential; holder credential; name credential;
    dateOfBirth credential;
    numberToString (listening (scores credential));
    numberToString (reading (scores credential));
    numberToString (writing (scores credential));
    numberToString (speaking (scores credential));
    numberToString (overall (scores credential));
    certificationDate credential; expiryDate credential;
    testCenter credential; certificateNumber credential ].

(** [verifyCredential(credential, proof)]: [credentialToMessages] reads
    [credential.id] and the call to [blsVerify] reads [proof.publicKey],
    so an absent argument is a TypeError. *)
Definition BBSManager_verifyCredential (credential : option IELTSCredential)
    (proof : option BBSProof) : JS.Result bool :=
  match credential with
  | None => JS.Throw (JS.TypeError "Cannot read properties of undefined (reading 'id')")
  | Some c =>
      let messages := credentialToMessages c in
      match proof with
      | None =>
          JS.Throw (JS.TypeError "Cannot read properties of undefined (reading 'publicKey')")
      | Some p => JS.Ok (blsVerify (publicKey p) messages (signature p))
      end
  end.

(** ** Registry ([components/registry.ts]) *)

Record Registry := {
  entries : gmap string RegistryEntry;
  reg_zkManager : ZKManager;
  merkleTreeIndices : gmap string Z
}.

Definition Registry_new : Registry :=
  {| entries := ∅; reg_zkManager := ZKManager_new; merkleTreeIndices := ∅ |}.

Definition registerCredential (r : Registry) (credential : VerifiableCredential)
  : JS.Result RegistryEntry * Registry :=
  match credentialSubject credential with
  | None =>
      (JS.Throw (JS.TypeError "Cannot read properties of undefined (reading 'holder')"), r)
  | Some subject =>
      let '(res, zk) := ZKManager_addCredential (reg_zkManager r) subject in
      match res with
      | JS.Throw e =>
          (JS.Throw e, {| entries := entries r; reg_zkManager := zk;
                          merkleTreeIndices := merkleTreeIndices r |})
      | JS.Ok treeIndex =>
          let entry :=
            {| credentialId := vc_id credential;
               entry_issuer := issuer credential;
               entry_holder := holder subject;
               entry_issuanceDate := issuanceDate credential;
               revoked := false;
               merkleTreeIndex := Some treeIndex |} in
          (JS.Ok entry,
           {| entries := <[vc_id credential := entry]> (entries r);
              reg_zkManager := zk;
              merkleTreeIndices :=
                <[vc_id credential := treeIndex]> (merkleTreeIndices r) |})
      end
  end.

(** [entry.revoked = true] *)
Definition setRevoked (entry : RegistryEntry) : RegistryEntry :=
  {| credentialId := credentialId entry;
     entry_issuer := entry_issuer entry;
     entry_holder := entry_holder entry;
     entry_issuanceDate := entry_issuanceDate entry;
     revoked := true;
     merkleTreeIndex := merkleTreeIndex entry |}.

Definition revokeCredential (r : Registry) (credentialId : string)
    (issuer : string) : bool * Registry :=
  match entries r !! credentialId with
  | None => (false, r)
  | Some entry =>
      if negb (String.eqb (entry_issuer entry) issuer) then (false, r)
      else
        (true,
         {| entries := <[credentialId := setRevoked entry]> (entries r);
            reg_zkManager := reg_zkManager r;
            merkleTreeIndices := merkleTreeIndices r |})
  end.

Definition isCredentialRevoked (r : Registry) (credentialId : string) : bool :=
  match entries r !! credentialId with
  | Some entry => revoked entry
  | None => false
  end.

(** ** Holder ([components/holder.ts]) *)

Record Holder := {
  holderId : string;
  h_credentials : gmap string VerifiableCredential;
  h_zkManager : ZKManager;
  h_trustedIssuers : gset string
}.

Definition Holder_new (holderId : string) : Holder :=
  {| holderId := holderId; h_credentials := ∅; h_zkManager := ZKManager_new;
     h_trustedIssuers := ∅ |}.

Definition Holder_addTrustedIssuer (h : Holder) (issuerId : string) : Holder :=
  {| holderId := holderId h; h_credentials := h_credentials h;
     h_zkManager := h_zkManager h;
     h_trustedIssuers := {[issuerId]} ∪ h_trustedIssuers h |}.

Definition untrustedIssuer : JS.Error :=
  JS.Err "Credential rejected: Untrusted issuer".
Definition invalidSignature : JS.Error :=
  JS.Err "Credential rejected: Invalid signature".
Definition missingRequiredFields : JS.Error :=
  JS.Err "Credential rejected: Missing required fields".

(** [storeCredential]: the outcome and the holder as the call leaves it. *)
Definition storeCredential (h : Holder) (credential : VerifiableCredential)
  : JS.Result () * Holder :=
  if negb (bool_decide (issuer credential ∈ h_trustedIssuers h)) then
    (JS.Throw untrustedIssuer, h)
  else
    match BBSManager_verifyCredential (credentialSubject credential)
                                      (proof credential) with
    | JS.Throw e => (JS.Throw e, h)
    | JS.Ok isSignatureValid =>
      if negb isSignatureValid then (JS.Throw invalidSignature, h)
      else
        match credentialSubject credential, proof credential with
        | Some subject, Some _ =>
            let '(res, zk) := ZKManager_addCredential (h_zkManager h) subject in
            match res with
            | JS.Throw e =>
                (JS.Throw e,
                 {| holderId := holderId h; h_credentials := h_credentials h;
                    h_zkManager := zk; h_trustedIssuers := h_trustedIssuers h |})
            | JS.Ok _ =>
                (JS.Ok (),
                 {| holderId := holderId h;
                    h_credentials :=
                      <[vc_id credential := credential]> (h_credentials h);
                    h_zkManager := zk;
                    h_trustedIssuers := h_trustedIssuers h |})
            end
        | _, _ => (JS.Throw missingRequiredFields, h)
        end
    end.

(** ** Verifier ([components/verifier.ts]) *)

(** The verifier keeps a reference to the registry object it was built
    with; the registry objects live in a store indexed by reference, so a
    revocation made through one holder of the reference is seen through
    every other. *)
Record Verifier := {
  verifierId : string;
  v_zkManager : ZKManager;
  v_trustedIssuers : gset string;
  v_registry : option nat
}.

Record Details := {
  credentialValid : bool;
  issuerTrusted : bool;
  zkProofValid : bool;
  requirementsMet : bool;
  notRevoked : bool
}.

Record Verification := {
  isValid : bool;
  details : Details;
  revealedData : gmap string JSValue
}.

(** [revealedAttributes[field]]: the value under the key, and for an
    absent key what the object inherits under that name, if anything. *)
Definition attr (revealedAttributes : gmap string JSValue) (field : string)
  : JSValue :=
  default (inherited field) (revealedAttributes !! field).

Definition isUndefined (v : JSValue) : bool :=
  match v with VUndefined => true | _ => false end.

(** Truthiness of a value: [undefined], [0] and [''] are falsy. *)
Definition valueTruthy (v : JSValue) : bool :=
  match v with
  | VUndefined => false
  | VNumber q => negb (Qeq_bool q 0%Q)
  | VString s => JS.truthy s
  | VScores _ | VInherited _ => true
  end.

(** The first loop of [checkRequirements]: no required field is
    [undefined]. *)
Definition requiredPresent (revealedAttributes : gmap string JSValue)
    (requiredFields : list string) : bool :=
  forallb (fun field => negb (isUndefined (attr revealedAttributes field)))
          requiredFields.

(** [scoreType.startsWith('scores.') ? scoreType : `scores.${scoreType}`] *)
Definition scoreFieldOf (scoreType : string) : string :=
  if JS.startsWith "scores." scoreType then scoreType
  else "scores." ++ scoreType.

(** The second loop: no entry has a defined score below its minimum. *)
Definition minimaMet (revealedAttributes : gmap string JSValue)
    (entries : list (string * JS.number)) : bool :=
  forallb (fun '(scoreType, minValue) =>
             let actualScore := attr revealedAttributes (scoreFieldOf scoreType) in
             negb (negb (isUndefined actualScore) && valueLt actualScore minValue))
          entries.

(** The closing check on ['scores.overall']. *)
Definition overallReasonable (revealedAttributes : gmap string JSValue) : bool :=
  let o := attr revealedAttributes "scores.overall" in
  negb (valueTruthy o && (valueLt o 0%Q || valueGt o 9%Q)).

Definition checkRequirements (revealedAttributes : gmap string JSValue)
    (request : option PresentationRequest) : bool :=
  match request with
  | None => bool_decide (0 < size revealedAttributes)%nat
  | Some request =>
      if negb (requiredPresent revealedAttributes (requiredFields request))
      then false
      else if negb (minimaMet revealedAttributes
                              (default [] (minimumScores request)))
      then false
      else overallReasonable revealedAttributes
  end.

Definition verifyPresentation (store : gmap nat Registry) (v : Verifier)
    (presentation : VerifiablePresentation)
    (request : option PresentationRequest) : Verification :=
  let details :=
    {| credentialValid := false; issuerTrusted := false; zkProofValid := false;
       requirementsMet := false; notRevoked := true |} in
  match verifiableCredential presentation with
  | [] => {| isValid := false; details := details; revealedData := ∅ |}
  | credential :: _ =>
    match (match v_registry v with
           | None => Some true
           | Some ref =>
               match store !! ref with
               | Some registry =>
                   Some (negb (isCredentialRevoked registry (vc_id credential)))
               | None => None
               end
           end) with
    | None => {| isValid := false; details := details; revealedData := ∅ |}
    | Some notRevoked =>
      let issuerTrusted := bool_decide (issuer credential ∈ v_trustedIssuers v) in
      match BBSManager_verifyCredential (credentialSubject credential)
                                        (proof credential) with
      | JS.Throw _ =>
          {| isValid := false;
             details := {| credentialValid := false;
                           issuerTrusted := issuerTrusted;
                           zkProofValid := false; requirementsMet := false;
                           notRevoked := notRevoked |};
             revealedData := ∅ |}
      | JS.Ok credentialValid =>
          let zkProofValid :=
            ZKManager_verifyZKProof (v_zkManager v) (vp_proof presentation) None in
          let requirementsMet :=
            checkRequirements (revealedAttributes (vp_proof presentation)) request in
          let isValid := credentialValid && issuerTrusted && zkProofValid
                         && requirementsMet && notRevoked in
          {| isValid := isValid;
             details := {| credentialValid := credentialValid;
                           issuerTrusted := issuerTrusted;
                           zkProofValid := zkProofValid;
                           requirementsMet := requirementsMet;
                           notRevoked := notRevoked |};
             revealedData := revealedAttributes (vp_proof presentation) |}
      end
    end
  end.

(** ** Definitions used to state the properties *)

(** The checks of [verifyZKProof] that decide its result: the proof
    object and its root are present, a non-empty [expectedRoot] equals the
    stated root, the leaf and the inner root are non-empty, and the stated
    root is not ['0']. *)
Definition structurallyAccepted (proof : ZKProof) (expectedRoot : option string)
  : bool :=
  match zkProof proof with
  | None => false
  | Some mp =>
      JS.truthy (merkleRoot proof)
      && negb (match expectedRoot with
               | Some e => JS.truthy e && negb (String.eqb (merkleRoot proof) e)
               | None => false
               end)
      && JS.truthy (leaf mp) && JS.truthy (root mp)
      && negb (String.eqb (merkleRoot proof) "0")
  end.

(** [proof] with the membership proof of its inner object replaced. *)
Definition withMembership (proof : ZKProof) (membership : option MembershipProof)
  : ZKProof :=
  {| zk_type := zk_type proof; zk_created := zk_created proof;
     zk_proofPurpose := zk_proofPurpose proof; merkleRoot := merkleRoot proof;
     zkProof :=
       (fun mp => {| leaf := leaf mp; path := path mp; indices := indices mp;
                     root := root mp; membershipProof := membership;
                     nonMembershipProof := nonMembershipProof mp |})
         <$> zkProof proof;
     revealedAttributes := revealedAttributes proof |}.

(** The calls [generateZKProof] has made when the minimum scores are looked at. *)
Definition builtBeforeCheck : list Call :=
  [ CallGetCredential; CallGetCredentialHash; CallGetCredentialIndex;
    CallGenerateMembershipProof; CallGenerateNonMembershipProof; CallGetRoot ].

End Accumulator.

(** ** Stand-ins for the collaborators

    Small executable implementations of the two interfaces, used to run the
    functions above on concrete inputs.  Every general theorem below is
    stated for arbitrary implementations; only the closed examples refer to
    these. *)

Module Fixture.

Definition hashZ (inputs : list Z) : Z :=
  fold_left (fun acc x => (acc * 31 + x + 1) mod 1000003) inputs 7.

Definition sign (publicKey : list Z) (messages : list string) : list Z :=
  (publicKey ++ encode (JS.join "|" messages))%list.

Global Instance collaborators : Collaborators := {|
  buildPoseidon := fun inputs => PBigInt (hashZ inputs);
  blsVerify := fun publicKey messages signature =>
    bool_decide (signature = sign publicKey messages);
  numberToString := fun q =>
    JS.toString (Qnum q) ++ "/" ++ JS.toString (Z.pos (Qden q));
  stringToNumber := fun s => (fun z => inject_Z z) <$> JS.BigInt s
|}.

(** A tree that is the list of the inserted values, after one initial
    leaf that the size counts. *)
Definition treeRoot (leaves : list Z) : Z :=
  fold_left (fun acc x => hashZ [acc; x]) leaves 0.

Global Instance tree : IndexedMerkleTree (list Z) := {|
  imt_new := [];
  imt_size := fun leaves => 1 + Z.of_nat (length leaves);
  imt_root := treeRoot;
  imt_insert := fun leaves v =>
    if bool_decide (v ∈ leaves)
    then JS.Throw (JS.Err "Leaf already exists")
    else JS.Ok (leaves ++ [v])%list;
  imt_createNonMembershipProof := fun leaves q =>
    if bool_decide (q ∈ leaves)
    then JS.Throw (JS.Err "Value is a member")
    else JS.Ok {| lib_query := q; lib_val := 0; lib_nextVal := 0;
                  lib_nextIdx := 0; lib_path := []; lib_directions := [];
                  lib_root := treeRoot leaves |};
  imt_verifyNonMembershipProof := fun leaves p =>
    JS.Ok (bool_decide (lib_query p ∉ leaves)
           && Z.eqb (lib_root p) (treeRoot leaves));
  imt_saveToFile := fun leaves => JS.join "," (map JS.toString leaves);
  imt_loadFromFile := fun content =>
    match content with
    | TreeFile "" => JS.Ok []
    | TreeFile blob =>
        match mapM JS.BigInt (JS.split "," blob) with
        | Some leaves => JS.Ok leaves
        | None => JS.Throw (JS.SyntaxError "not a snapshot")
        end
    | JsonFile _ => JS.Throw (JS.TypeError "not a snapshot")
    end
|}.


Definition diskWithoutDirectory : FileSystem :=
  {| files := ∅; unwritable := {[ "data-state.json.d/tree.json" ]} |}.

Definition alice : IELTSCredential :=
  {| cred_id := "ielts-001"; holder := "did:example:holder:alice";
     name := "Alice"; dateOfBirth := "1995-01-01";
     scores := {| listening := 8%Q; reading := 15 # 2; writing := 7%Q;
                  speaking := 8%Q; overall := 8%Q |};
     certificationDate := "2024-01-01"; expiryDate := "2026-01-01";
     testCenter := "Centre A"; certificateNumber := "CERT001" |}.

Definition bob : IELTSCredential :=
  {| cred_id := "ielts-002"; holder := "did:example:holder:bob";
     name := "Bob"; dateOfBirth := "1990-05-05";
     scores := {| listening := 7%Q; reading := 7%Q; writing := 13 # 2;
                  speaking := 7%Q; overall := 7%Q |};
     certificationDate := "2024-02-01"; expiryDate := "2026-02-01";
     testCenter := "Centre B"; certificateNumber := "CERT002" |}.

Definition council : string := "did:example:issuer:british-council".

Definition key : list Z := [1; 2; 3].

(** A credential signed over [subject] by [council]. *)
Definition signed (id : string) (subject : IELTSCredential) : VerifiableCredential :=
  {| vc_id := id; vc_type := ["VerifiableCredential"; "IELTSCredential"];
     issuer := council; issuanceDate := "2024-01-02";
     credentialSubject := Some subject;
     proof := Some {| bbs_type := "BbsBlsSignature2020";
                      bbs_created := "2024-01-02";
                      bbs_proofPurpose := "assertionMethod";
                      verificationMethod := "did:example:issuer#key-1";
                      signature := sign key (credentialToMessages subject);
                      publicKey := key |} |}.

(** The manager after [addCredential(alice)], and after
    [addCredential(bob)] on top of it. *)
Definition zk1 : @ZKManager (list Z) := snd (ZKManager_addCredential ZKManager_new alice).
Definition zk2 : @ZKManager (list Z) := snd (ZKManager_addCredential zk1 bob).

(** A proof whose membership path (no sibling at all) recomputes the leaf
    ["1"] as root while the stated root is ["5"]. *)
Definition mismatched : ZKProof :=
  {| zk_type := "IndexedMerkleTreeProof2023"; zk_created := "2024-03-01";
     zk_proofPurpose := "authentication"; merkleRoot := "5";
     zkProof := Some {| leaf := "1"; path := []; indices := [0]; root := "5";
                        membershipProof :=
                          Some {| leafIndex := 0; siblings := [];
                                  directions := [] |};
                        nonMembershipProof := None |};
     revealedAttributes := {[ "name" := VString "Alice" ]} |}.

(** The proof [generateZKProof] returns for alice in [zk1] when ["name"]
    and ["scores.overall"] are requested. *)
Definition aliceProof : ZKProof :=
  {| zk_type := "IndexedMerkleTreeProof2023"; zk_created := "2024-03-01";
     zk_proofPurpose := "authentication"; merkleRoot := "767703";
     zkProof :=
       Some {| leaf := "760944"; path := replicate 32 "0"; indices := [0];
               root := "767703";
               membershipProof :=
                 Some {| leafIndex := 0; siblings := replicate 32 "0";
                         directions := replicate 32 0 |};
               nonMembershipProof :=
                 Some {| query := "760945";
                         preLeaf := {| val := "0"; nextVal := "0"; nextIdx := 0 |};
                         nm_path := []; nm_directions := [] |} |};
     revealedAttributes :=
       {[ "name" := VString "Alice"; "scores.overall" := VNumber 8%Q ]} |}.

(** A registry holding alice's credential, issued by [council]. *)
Definition registry1 : @Registry (list Z) :=
  snd (registerCredential Registry_new (signed "ielts-001" alice)).

(** The store of registry objects, and a verifier built with a reference
    to the registry at address 0. *)
Definition store1 : gmap nat (@Registry (list Z)) := {[ 0%nat := registry1 ]}.

Definition verifier1 : @Verifier (list Z) :=
  {| verifierId := "did:example:verifier:university";
     v_zkManager := ZKManager_initialize ZKManager_new;
     v_trustedIssuers := {[ council ]};
     v_registry := Some 0%nat |}.

Definition presentation1 : VerifiablePresentation :=
  {| vp_id := "presentation-1";
     vp_type := ["VerifiablePresentation"; "IELTSPresentation"];
     vp_holder := "did:example:holder:alice";
     verifiableCredential := [signed "ielts-001" alice];
     vp_proof := aliceProof |}.

(** A holder that trusts [council]. *)
Definition holder1 : @Holder (list Z) :=
  Holder_addTrustedIssuer (Holder_new "did:example:holder:alice") council.

(** A credential from the trusted issuer without [credentialSubject]. *)
Definition noSubject : VerifiableCredential :=
  {| vc_id := "ielts-003"; vc_type := ["VerifiableCredential"; "IELTSCredential"];
     issuer := council; issuanceDate := "2024-01-02";
     credentialSubject := None;
     proof := proof (signed "ielts-003" alice) |}.

(** A credential from the trusted issuer without [proof]. *)
Definition noProof : VerifiableCredential :=
  {| vc_id := "ielts-004"; vc_type := ["VerifiableCredential"; "IELTSCredential"];
     issuer := council; issuanceDate := "2024-01-02";
     credentialSubject := Some alice;
     proof := None |}.

(** A request with a minimum for listening that requires the overall
    score, and one with minima for listening and reading. *)
Definition requestListening : PresentationRequest :=
  {| req_id := "request-1"; verifier := "did:example:verifier:university";
     requiredFields := ["scores.overall"];
     minimumScores := Some [("listening", 7%Q)];
     purpose := "admission" |}.

Definition requestTwoMinima : PresentationRequest :=
  {| req_id := "request-2"; verifier := "did:example:verifier:university";
     requiredFields := ["name"];
     minimumScores := Some [("listening", 7%Q); ("reading", 7%Q)];
     purpose := "admission" |}.

End Fixture.

(** * The rest of the components

    The functions of the cited files that the accumulator and role
    definitions above leave out, and the callers that put them together:
    batch insertion, the range proof of [advanced-proofs.ts], signing and
    issuing ([bbs-manager.ts], [issuer.ts]), the remaining methods of
    [registry.ts] and [verifier.ts], and the presentation side of
    [holder.ts]. *)

(** The pair [generateBls12381G2KeyPair] returns. *)
Record KeyPair := {
  kp_publicKey : list Z;
  kp_secretKey : list Z
}.

(** The signing half of the BLS package: [blsSign keyPair messages] and
    [blsCreateProof signature publicKey messages revealed nonce], which is
    handed the array [revealed] as the caller built it and may throw. *)
Class Signer := {
  blsSign : KeyPair -> list string -> list Z;
  blsCreateProof :
    list Z -> list Z -> list string -> list JSValue -> string -> JS.Result (list Z)
}.

(** [dateValue s] is the time value of [new Date(s)], [None] for a string
    that does not parse (an Invalid Date, whose time value is [NaN]), and
    [currentTime] that of [new Date()]: the comparator of
    [selectBestCredential] reads it at every comparison, and the model
    takes it not to pass an expiry date while one selection runs. *)
Class Clock := {
  dateValue : string -> option JS.number;
  currentTime : JS.number
}.

(** [roundDouble x] is the double nearest to [x]: what [+] and [-] on
    numbers return for the exact result [x]. *)
Class Doubles := {
  roundDouble : Q -> JS.number
}.

(** What [generateRangeProof] attaches to the proof as [rangeProof]. *)
Record RangeMeta := {
  range_field : string;
  range_minValue : JS.number;
  range_maxValue : JS.number;
  provenInRange : bool
}.

Record RangeProofResult := {
  range_proof : ZKProof;
  range_meta : RangeMeta;
  inRange : bool;
  actualInRange : bool
}.

(** The value of a list of direction bits, least significant first. *)
Fixpoint fromBits (bits : list Z) : Z :=
  match bits with
  | [] => 0
  | b :: rest => b + 2 * fromBits rest
  end.

(** The names under [credential.scores], and the other attributes. *)
Definition scoreNames : list string :=
  ["listening"; "reading"; "writing"; "speaking"; "overall"].

Definition attributeNames : list string :=
  ["id"; "holder"; "name"; "dateOfBirth"; "certificationDate"; "expiryDate";
   "testCenter"; "certificateNumber"].

Section Protocol.

Context `{C : Collaborators} `{S : Signer} `{K : Clock} `{D : Doubles}.
Context {T : Type} `{IMT : IndexedMerkleTree T}.

(** ** MerkleTreeManager, continued *)

(** [addCredentialsBatch]: one [addCredential] after the other; a failure
    is recorded as [-1] and the loop goes on. *)
Fixpoint addCredentialsBatch (hu : HashingUtils) (m : @MerkleTreeManager T)
    (credentials : list IELTSCredential) : list Z * @MerkleTreeManager T :=
  match credentials with
  | [] => ([], m)
  | credential :: rest =>
      let '(r, m1) := MerkleTreeManager_addCredential hu m credential in
      let index := match r with JS.Ok index => index | JS.Throw _ => -1 end in
      let '(indices, m2) := addCredentialsBatch hu m1 rest in
      (index :: indices, m2)
  end.

(** [ZKManager.addCredentialsBatch] hands the batch to the manager as it
    is, without the lazy initialisation of [ZKManager.addCredential]. *)
Definition ZKManager_addCredentialsBatch (zk : @ZKManager T)
    (credentials : list IELTSCredential) : list Z * @ZKManager T :=
  let '(indices, m) :=
    addCredentialsBatch (hashingUtils zk) (merkleTreeManager zk) credentials in
  (indices, {| hashingUtils := hashingUtils zk; merkleTreeManager := m |}).

(** ** AdvancedProofs ([advanced-proofs.ts]) *)

(** [actualValue >= minValue] and [actualValue <= maxValue] for a value read
    from [credential.scores]: [undefined] compares false. *)
Definition scoreGe (v : JSValue) (n : JS.number) : bool :=
  match v with VNumber a => Qle_bool n a | _ => false end.

Definition scoreLe (v : JSValue) (n : JS.number) : bool :=
  match v with VNumber a => Qle_bool a n | _ => false end.

Definition generateRangeProof (m : @MerkleTreeManager T) (now : string)
    (credentialId field : string) (minValue maxValue : JS.number)
  : JS.Result RangeProofResult :=
  match credentials m !! credentialId with
  | None => JS.Throw (JS.Err "Credential not found")
  | Some credential =>
      if JS.startsWith "scores." field then
        let scoreType := default "undefined" (JS.split "." field !! 1%nat) in
        let actualValue := scores_get (scores credential) scoreType in
        let inRange := scoreGe actualValue minValue && scoreLe actualValue maxValue in
        match snd (generateZKProof m now credentialId [field]
                     (if inRange then Some [(scoreType, minValue)] else None)) with
        | JS.Throw e => JS.Throw e
        | JS.Ok zkProof =>
            JS.Ok {| range_proof := zkProof;
                     range_meta := {| range_field := field;
                                      range_minValue := minValue;
                                      range_maxValue := maxValue;
                                      provenInRange := inRange |};
                     inRange := inRange;
                     actualInRange := inRange |}
        end
      else JS.Throw (JS.Err ("Range proofs not supported for field: " ++ field))
  end.

(** ** BBSManager, continued *)

Definition BBSManager_signCredential (keyPair : option KeyPair) (now : string)
    (credential : IELTSCredential) : JS.Result BBSProof :=
  match keyPair with
  | None => JS.Throw (JS.Err "Key pair not generated")
  | Some kp =>
      let messages := credentialToMessages credential in
      JS.Ok {| bbs_type := "BbsBlsSignature2020";
               bbs_created := now;
               bbs_proofPurpose := "assertionMethod";
               verificationMethod := "did:example:issuer#key-1";
               signature := blsSign kp messages;
               publicKey := kp_publicKey kp |}
  end.

(** ** Issuer ([components/issuer.ts]) *)

Record Issuer := {
  i_keyPair : option KeyPair;
  i_zkManager : @ZKManager T;
  issuerId : string;
  issuedCredentials : gmap string VerifiableCredential
}.

Definition Issuer_new (issuerId : string) : Issuer :=
  {| i_keyPair := None; i_zkManager := ZKManager_new; issuerId := issuerId;
     issuedCredentials := ∅ |}.

(** [initialize]: [generated] is the key pair the BLS package generates. *)
Definition Issuer_initialize (i : Issuer) (generated : KeyPair) : Issuer :=
  {| i_keyPair := Some generated;
     i_zkManager := ZKManager_initialize (i_zkManager i);
     issuerId := issuerId i;
     issuedCredentials := issuedCredentials i |}.

(** [data] with its [id] set. *)
Definition withId (id : string) (data : IELTSCredential) : IELTSCredential :=
  {| cred_id := id; holder := holder data; name := name data;
     dateOfBirth := dateOfBirth data; scores := scores data;
     certificationDate := certificationDate data; expiryDate := expiryDate data;
     testCenter := testCenter data; certificateNumber := certificateNumber data |}.

(** [issueIELTSCredential].  The argument is [data] with the key [id] as
    [dataId] says ([None]: no such key); [fresh] is the generated
    [ielts-<time>-<random>] identifier, [created] the time the proof is
    made and [issued] the issuance time read after it.  With a
    non-empty [id] the data is the credential; otherwise the credential is
    [{id: credentialId, ...data}], in which an empty [id] of the data
    overrides the generated one. *)
Definition issueIELTSCredential (i : Issuer) (created issued fresh : string)
    (dataId : option string) (data : IELTSCredential)
  : JS.Result VerifiableCredential * Issuer :=
  let hasId := match dataId with Some id => JS.truthy id | None => false end in
  let credentialId := if hasId then default fresh dataId else fresh in
  let credential := withId (default fresh dataId) data in
  match BBSManager_signCredential (i_keyPair i) created credential with
  | JS.Throw e => (JS.Throw e, i)
  | JS.Ok proof =>
      let '(res, zk) := ZKManager_addCredential (i_zkManager i) credential in
      match res with
      | JS.Throw e =>
          (JS.Throw e,
           {| i_keyPair := i_keyPair i; i_zkManager := zk; issuerId := issuerId i;
              issuedCredentials := issuedCredentials i |})
      | JS.Ok _ =>
          let verifiableCredential :=
            {| vc_id := credentialId;
               vc_type := ["VerifiableCredential"; "IELTSCredential"];
               issuer := issuerId i;
               issuanceDate := issued;
               credentialSubject := Some credential;
               proof := Some proof |} in
          (JS.Ok verifiableCredential,
           {| i_keyPair := i_keyPair i; i_zkManager := zk; issuerId := issuerId i;
              issuedCredentials :=
                <[credentialId := verifiableCredential]> (issuedCredentials i) |})
      end
  end.

Definition Issuer_revokeCredential (i : Issuer) (credentialId : string)
  : JS.Result bool * Issuer :=
  match issuedCredentials i !! credentialId with
  | None => (JS.Throw (JS.Err "Credential not found"), i)
  | Some _ =>
      (JS.Ok true,
       {| i_keyPair := i_keyPair i; i_zkManager := i_zkManager i;
          issuerId := issuerId i;
          issuedCredentials := delete credentialId (issuedCredentials i) |})
  end.

Definition verifyOwnCredential (i : Issuer) (credential : IELTSCredential)
  : JS.Result bool :=
  match issuedCredentials i !! cred_id credential with
  | None => JS.Ok false
  | Some vc => BBSManager_verifyCredential (Some credential) (proof vc)
  end.

(** ** Registry, continued *)

Definition getCredentialStatus (r : @Registry T) (credentialId : string) : string :=
  match entries r !! credentialId with
  | None => "not_found"
  | Some entry => if revoked entry then "revoked" else "valid"
  end.

(** [!entry || !entry.merkleTreeIndex]: an index that is absent or [0] is
    falsy. *)
Definition verifyCredentialIntegrity (r : @Registry T) (credentialId : string)
  : bool :=
  match entries r !! credentialId with
  | None => false
  | Some entry =>
      match merkleTreeIndex entry with
      | None => false
      | Some index => if Z.eqb index 0 then false else negb (revoked entry)
      end
  end.

(** ** Verifier, continued *)

Definition Verifier_addTrustedIssuer (v : @Verifier T) (issuerId : string)
  : @Verifier T :=
  {| verifierId := verifierId v; v_zkManager := v_zkManager v;
     v_trustedIssuers := {[issuerId]} ∪ v_trustedIssuers v;
     v_registry := v_registry v |}.

Definition Verifier_removeTrustedIssuer (v : @Verifier T) (issuerId : string)
  : @Verifier T :=
  {| verifierId := verifierId v; v_zkManager := v_zkManager v;
     v_trustedIssuers := v_trustedIssuers v ∖ {[issuerId]};
     v_registry := v_registry v |}.

(** [requestId] is the generated [request-<time>]. *)
Definition createPresentationRequest (v : @Verifier T) (requestId : string)
    (requiredFields : list string) (purpose : string)
    (minimumScores : option (list (string * JS.number))) : PresentationRequest :=
  {| req_id := requestId; verifier := verifierId v;
     requiredFields := requiredFields; minimumScores := minimumScores;
     purpose := purpose |}.

Definition verifyCredentialDirect (v : @Verifier T)
    (credential : VerifiableCredential) : JS.Result bool :=
  if negb (bool_decide (issuer credential ∈ v_trustedIssuers v)) then JS.Ok false
  else BBSManager_verifyCredential (credentialSubject credential) (proof credential).

(** ** Holder, continued *)

(** [getFieldMapping()[field]] *)
Definition getFieldMapping (field : string) : option nat :=
  if String.eqb field "id" then Some 0%nat
  else if String.eqb field "holder" then Some 1%nat
  else if String.eqb field "name" then Some 2%nat
  else if String.eqb field "dateOfBirth" then Some 3%nat
  else if String.eqb field "scores.listening" then Some 4%nat
  else if String.eqb field "scores.reading" then Some 5%nat
  else if String.eqb field "scores.writing" then Some 6%nat
  else if String.eqb field "scores.speaking" then Some 7%nat
  else if String.eqb field "scores.overall" then Some 8%nat
  else if String.eqb field "certificationDate" then Some 9%nat
  else if String.eqb field "expiryDate" then Some 10%nat
  else if String.eqb field "testCenter" then Some 11%nat
  else if String.eqb field "certificateNumber" then Some 12%nat
  else None.

(** [fieldToIndex[field]]: the index of a mapped field, and for any other
    name what the object literal inherits under it, if anything. *)
Definition fieldToIndex_get (field : string) : JSValue :=
  match getFieldMapping field with
  | Some index => VNumber (inject_Z (Z.of_nat index))
  | None => inherited field
  end.

(** [revealedFields.map(field => fieldToIndex[field]).filter(idx => idx !== undefined)] *)
Definition revealedIndices (revealedFields : list string) : list JSValue :=
  filter (fun index => isUndefined index = false)
         (map fieldToIndex_get revealedFields).

(** What [createSelectiveDisclosurePresentation] returns. *)
Record SelectivePresentation := {
  sd_proof : list Z;
  sd_revealedFields : list string;
  sd_credentialId : string
}.

(** [nonce] is the generated ['nonce-' + Date.now()]. *)
Definition createSelectiveDisclosurePresentation (h : @Holder T) (nonce : string)
    (credentialId : string) (revealedFields : list string)
  : JS.Result SelectivePresentation :=
  match h_credentials h !! credentialId with
  | None => JS.Throw (JS.Err "Credential not found")
  | Some credential =>
      match credentialSubject credential with
      | None =>
          JS.Throw (JS.TypeError "Cannot read properties of undefined (reading 'id')")
      | Some subject =>
          let messages := credentialToMessages subject in
          match proof credential with
          | None =>
              JS.Throw (JS.TypeError
                          "Cannot read properties of undefined (reading 'signature')")
          | Some p =>
              selectiveProof ← blsCreateProof (signature p) (publicKey p) messages
                                 (revealedIndices revealedFields) nonce;
              JS.Ok {| sd_proof := selectiveProof;
                       sd_revealedFields := revealedFields;
                       sd_credentialId := credentialId |}
          end
      end
  end.

(** [credential.type.includes('IELTSCredential')] *)
Definition isIELTS (credential : VerifiableCredential) : bool :=
  bool_decide ("IELTSCredential" ∈ vc_type credential).

(** [findMatchingCredentials].  [stored] is
    [Array.from(this.credentials.values())]: the holder's credentials in
    the order they were stored, which the finite map does not record. *)
Definition findMatchingCredentials (stored : list VerifiableCredential)
  : list VerifiableCredential :=
  filter (fun credential => isIELTS credential = true) stored.

(** [new Date(subject.expiryDate) < new Date()]: false for an Invalid
    Date. *)
Definition isExpired (subject : IELTSCredential) : bool :=
  match dateValue (expiryDate subject) with
  | Some expiry => JS.ltb expiry currentTime
  | None => false
  end.

(** [x !== y] on two numbers of which [None] is [NaN]: [NaN] differs from
    every number and from itself. *)
Definition differ (x y : option JS.number) : bool :=
  match x, y with
  | Some x, Some y => negb (Qeq_bool x y)
  | _, _ => true
  end.

(** [y - x] as far as its sign goes, which is that of the exact
    difference; [NaN] if either is. *)
Definition minus (y x : option JS.number) : option JS.number :=
  match y, x with
  | Some y, Some x => Some (y - x)%Q
  | _, _ => None
  end.

(** [Math.max(0, x)] *)
Definition max0 (x : JS.number) : JS.number :=
  if Qle_bool x 0 then 0%Q else x.

(** [Math.max(0, score - minValue)] where [score] is [scores[scoreField]]
    if [scoreField in scores] and [0] otherwise: a number for a score and
    for a name the object does not have, [NaN] for a name it inherits. *)
Definition margin (sc : Scores) (scoreField : string) (minValue : JS.number)
  : option JS.number :=
  match scores_get sc scoreField with
  | VNumber score => Some (max0 (roundDouble (score - minValue)))
  | VUndefined => Some (max0 (roundDouble (0 - minValue)))
  | _ => None
  end.

(** The sum of the margins over the requested minima. *)
Definition advantage (subject : IELTSCredential)
    (entries : list (string * JS.number)) : option JS.number :=
  fold_left (fun acc '(scoreType, minValue) =>
               match acc, margin (scores subject) scoreType minValue with
               | Some sum, Some m => Some (roundDouble (sum + m))
               | _, _ => None
               end)
            entries (Some 0%Q).

(** [request.minimumScores.overall !== undefined] *)
Definition hasOverallMinimum (entries : list (string * JS.number)) : bool :=
  existsb (fun '(scoreType, _) => String.eqb scoreType "overall") entries.

(** The comparator of [selectBestCredential] on the two subjects: negative
    puts [a] first, [None] is [NaN]. *)
Definition compareSubjects (request : PresentationRequest)
    (a b : IELTSCredential) : option JS.number :=
  let aExpired := isExpired a in
  let bExpired := isExpired b in
  if negb (Bool.eqb aExpired bExpired)
  then Some (if aExpired then 1%Q else (-1)%Q)
  else
    let aCert := dateValue (certificationDate a) in
    let bCert := dateValue (certificationDate b) in
    if differ aCert bCert then minus bCert aCert
    else
      let byOverall :=
        match minimumScores request with
        | Some entries =>
            if hasOverallMinimum entries
               && negb (Qeq_bool (overall (scores a)) (overall (scores b)))
            then Some (overall (scores b) - overall (scores a))%Q
            else None
        | None => None
        end in
      match byOverall with
      | Some d => Some d
      | None =>
          match minimumScores request with
          | Some entries =>
              let aAdvantage := advantage a entries in
              let bAdvantage := advantage b entries in
              if differ aAdvantage bAdvantage
              then minus bAdvantage aAdvantage
              else Some 0%Q
          | None => Some 0%Q
          end
      end.

(** What [sort] makes of the comparator's answer: [NaN] counts as [0]. *)
Definition comparison (request : PresentationRequest)
    (a b : IELTSCredential) : JS.number :=
  default 0%Q (compareSubjects request a b).

(** [credentials.slice().sort(compare)]: the sort is stable, and for a
    comparator that orders its arguments consistently, as this one does
    when the certification dates parse, the stable order is the only one it
    can produce.  For a comparator that answers [NaN] the order is left to
    the implementation; the model then gives that of a stable insertion. *)
Fixpoint insertSorted (request : PresentationRequest)
    (x : IELTSCredential * VerifiableCredential)
    (sorted : list (IELTSCredential * VerifiableCredential))
  : list (IELTSCredential * VerifiableCredential) :=
  match sorted with
  | [] => [x]
  | y :: rest =>
      if Qle_bool (comparison request (fst x) (fst y)) 0
      then x :: y :: rest
      else y :: insertSorted request x rest
  end.

Definition sortCredentials (request : PresentationRequest)
    (withSubjects : list (IELTSCredential * VerifiableCredential))
  : list (IELTSCredential * VerifiableCredential) :=
  foldr (insertSorted request) [] withSubjects.

(** Each credential next to its subject, or [None] if one has none (the
    comparator then reads a property of [undefined]). *)
Definition subjectsOf (credentials : list VerifiableCredential)
  : option (list (IELTSCredential * VerifiableCredential)) :=
  mapM (fun credential =>
          (fun subject => (subject, credential)) <$> credentialSubject credential)
       credentials.

(** [selectBestCredential].  With one credential the comparator is never
    called; with more, it reads every credential's subject.  The result is
    [sortedCredentials[0]], which is [undefined] ([None]) for no credential
    at all. *)
Definition selectBestCredential (credentials : list VerifiableCredential)
    (request : PresentationRequest) : JS.Result (option VerifiableCredential) :=
  match credentials with
  | [credential] => JS.Ok (Some credential)
  | _ =>
      match subjectsOf credentials with
      | None =>
          JS.Throw (JS.TypeError
                      "Cannot read properties of undefined (reading 'expiryDate')")
      | Some withSubjects =>
          JS.Ok (snd <$> head (sortCredentials request withSubjects))
      end
  end.

(** [createPresentation]: [presentationId] is the generated
    [presentation-<time>-<random>]. *)
Definition createPresentation (h : @Holder T) (stored : list VerifiableCredential)
    (now presentationId : string) (request : PresentationRequest)
  : JS.Result VerifiablePresentation :=
  let matchingCredentials := findMatchingCredentials stored in
  match matchingCredentials with
  | [] => JS.Throw (JS.Err "No matching credentials found for the request")
  | _ =>
      selected ← selectBestCredential matchingCredentials request;
      match selected with
      | None =>
          JS.Throw (JS.TypeError
                      "Cannot read properties of undefined (reading 'credentialSubject')")
      | Some credential =>
          match credentialSubject credential with
          | None =>
              JS.Throw (JS.TypeError
                          "Cannot read properties of undefined (reading 'id')")
          | Some subject =>
              zkProof ← ZKManager_generateZKProof (h_zkManager h) now (cred_id subject)
                          (requiredFields request) (minimumScores request);
              JS.Ok {| vp_id := presentationId;
                       vp_type := ["VerifiablePresentation"; "IELTSPresentation"];
                       vp_holder := holderId h;
                       verifiableCredential := [credential];
                       vp_proof := zkProof |}
          end
      end
  end.

(** A holder is driven by calls of [addTrustedIssuer] and
    [storeCredential]; a failed call leaves the holder as the call left
    it. *)
Inductive HolderCall :=
| AddTrustedIssuer (issuerId : string)
| StoreCredential (credential : VerifiableCredential).

Definition holderStep (h : @Holder T) (call : HolderCall) : @Holder T :=
  match call with
  | AddTrustedIssuer issuerId => Holder_addTrustedIssuer h issuerId
  | StoreCredential credential => snd (storeCredential h credential)
  end.

Definition holderAfter (holderId : string) (calls : list HolderCall) : @Holder T :=
  fold_left holderStep calls (Holder_new holderId).

(** ** Definitions used to state the properties of these components *)

(** A credential as [storeCredential] accepts it: both sub-objects present
    and the signature verifying over the subject's attributes. *)
Definition wellSigned (credential : VerifiableCredential) : Prop :=
  exists subject p,
    credentialSubject credential = Some subject
    /\ proof credential = Some p
    /\ blsVerify (publicKey p) (credentialToMessages subject) (signature p) = true.

(** What holds of every credential a holder keeps: its issuer is trusted,
    it is well signed, and its subject is the credential committed under
    the subject's id in the holder's accumulator. *)
Definition properlyHeld (h : @Holder T) (credential : VerifiableCredential)
  : Prop :=
  issuer credential ∈ h_trustedIssuers h
  /\ wellSigned credential
  /\ exists subject,
       credentialSubject credential = Some subject
       /\ credentials (merkleTreeManager (h_zkManager h)) !! cred_id subject
          = Some subject.

(** The certification date of a subject parses. *)
Definition certified (a : IELTSCredential) : Prop :=
  is_Some (dateValue (certificationDate a)).

(** The order of the first two criteria of [selectBestCredential], for
    certification dates that parse: unexpired before expired, then the
    later certification date. *)
Definition ranksBefore (a b : IELTSCredential) : Prop :=
  (isExpired a = false /\ isExpired b = true)
  \/ (isExpired a = isExpired b
      /\ exists aCert bCert,
           dateValue (certificationDate a) = Some aCert
           /\ dateValue (certificationDate b) = Some bCert
           /\ (bCert <= aCert)%Q).

End Protocol.

(** ** Stand-ins for the signer, the clock and rounding, and sample parties *)

Module Samples.

(** The stand-in proof lists the revealed indices after the signature; it
    refuses an index that is not a number or that has no message. *)
Definition revealedPosition (messages : list string) (index : JSValue)
  : option Z :=
  match index with
  | VNumber q =>
      if Z.eqb (Z.pos (Qden q)) 1 && Z.leb 0 (Qnum q)
         && Z.ltb (Qnum q) (Z.of_nat (length messages))
      then Some (Qnum q) else None
  | _ => None
  end.

Global Instance signer : Signer := {|
  blsSign := fun keyPair messages => Fixture.sign (kp_publicKey keyPair) messages;
  blsCreateProof := fun signature publicKey messages revealed nonce =>
    match mapM (revealedPosition messages) revealed with
    | Some positions => JS.Ok (signature ++ positions)%list
    | None => JS.Throw (JS.TypeError "revealed index out of range")
    end
|}.

(** A date [YYYY-MM-DD] is valued by the number [YYYYMMDD]; anything else
    does not parse. *)
Definition dayNumber (s : string) : option JS.number :=
  match JS.split "-" s with
  | [year; month; day] => inject_Z <$> JS.numeral 10 (year ++ month ++ day)
  | _ => None
  end.

Global Instance clock : Clock := {|
  dateValue := dayNumber;
  currentTime := inject_Z 20250601
|}.

(** The sample scores and minima are multiples of one half, whose sums and
    differences are doubles. *)
Global Instance doubles : Doubles := {|
  roundDouble := fun x => x
|}.

Definition keyPair : KeyPair :=
  {| kp_publicKey := Fixture.key; kp_secretKey := [9; 9; 9] |}.

(** An initialised issuer, before and after issuing alice's credential. *)
Definition issuer0 : @Issuer (list Z) :=
  Issuer_initialize (Issuer_new Fixture.council) keyPair.

Definition issuer1 : @Issuer (list Z) :=
  snd (issueIELTSCredential issuer0 "2024-01-02" "2024-01-02" "ielts-generated"
         (Some "ielts-001") Fixture.alice).

(** An older credential of alice, expired on the sample clock. *)
Definition aliceOld : IELTSCredential :=
  {| cred_id := "ielts-000"; holder := "did:example:holder:alice";
     name := "Alice"; dateOfBirth := "1995-01-01";
     scores := {| listening := 7%Q; reading := 7%Q; writing := 7%Q;
                  speaking := 7%Q; overall := 7%Q |};
     certificationDate := "2022-01-01"; expiryDate := "2024-01-01";
     testCenter := "Centre A"; certificateNumber := "CERT000" |}.

(** A credential whose certification date is written day first, which
    does not parse, and one of bob certified before alice's. *)
Definition aliceUndated : IELTSCredential :=
  {| cred_id := "ielts-000"; holder := "did:example:holder:alice";
     name := "Alice"; dateOfBirth := "1995-01-01";
     scores := {| listening := 7%Q; reading := 7%Q; writing := 7%Q;
                  speaking := 7%Q; overall := 7%Q |};
     certificationDate := "15/03/2024"; expiryDate := "2026-03-15";
     testCenter := "Centre A"; certificateNumber := "CERT000" |}.

Definition bobEarlier : IELTSCredential :=
  {| cred_id := "ielts-002"; holder := "did:example:holder:bob";
     name := "Bob"; dateOfBirth := "1990-05-05";
     scores := {| listening := 7%Q; reading := 7%Q; writing := 13 # 2;
                  speaking := 7%Q; overall := 7%Q |};
     certificationDate := "2023-02-01"; expiryDate := "2026-02-01";
     testCenter := "Centre B"; certificateNumber := "CERT002" |}.

(** The parts of the manager that holds alice's credential. *)
Definition hashing1 : HashingUtils := hashingUtils Fixture.zk1.

Definition manager1 : @MerkleTreeManager (list Z) := merkleTreeManager Fixture.zk1.

(** The registry entry of alice's credential. *)
Definition aliceEntry : RegistryEntry :=
  {| credentialId := "ielts-001"; entry_issuer := Fixture.council;
     entry_holder := "did:example:holder:alice";
     entry_issuanceDate := "2024-01-02"; revoked := false;
     merkleTreeIndex := Some 0 |}.

(** The calls that make a holder who trusts [council] and keeps alice's
    credential. *)
Definition holderCalls : list HolderCall :=
  [AddTrustedIssuer Fixture.council;
   StoreCredential (Fixture.signed "ielts-001" Fixture.alice)].

Definition aliceHolder : @Holder (list Z) :=
  holderAfter "did:example:holder:alice" holderCalls.

(** A verifier without a registry, made to trust [council], and a request
    it makes. *)
Definition verifier0 : @Verifier (list Z) :=
  {| verifierId := "did:example:verifier:university";
     v_zkManager := ZKManager_initialize ZKManager_new;
     v_trustedIssuers := ∅;
     v_registry := None |}.

Definition verifier2 : @Verifier (list Z) :=
  Verifier_addTrustedIssuer verifier0 Fixture.council.

Definition requestName : PresentationRequest :=
  createPresentationRequest verifier2 "request-3" ["name"; "scores.overall"]
    "admission" (Some [("overall", 7%Q)]).

End Samples.

(** * Properties *)

(** ** Decimal rendering of digests *)

Lemma toString_nonempty (z : Z) : JS.toString z <> "".
Proof.
  unfold JS.toString. destruct z as [|p|p]; simpl.
  - discriminate.
  - unfold NilZero.string_of_uint.
    pose proof (DecimalPos.Unsigned.to_uint_nonnil p) as Hn.
    destruct (Pos.to_uint p); try congruence; discriminate.
  - discriminate.
Qed.

Lemma trimStart_string_of_uint (d : Decimal.uint) :
  JS.trimStart (NilEmpty.string_of_uint d) = NilEmpty.string_of_uint d.
Proof. destruct d; reflexivity. Qed.

Lemma trimEnd_string_of_uint (d : Decimal.uint) :
  JS.trimEnd (NilEmpty.string_of_uint d) = NilEmpty.string_of_uint d.
Proof.
  induction d as [|d IH|d IH|d IH|d IH|d IH|d IH|d IH|d IH|d IH|d IH];
    [reflexivity|..];
    cbn [NilEmpty.string_of_uint JS.trimEnd];
    rewrite IH; reflexivity.
Qed.

(** A rendered bigint has no white space to skip. *)
Lemma trim_toString (z : Z) : JS.trim (JS.toString z) = JS.toString z.
Proof.
  assert (forall d, JS.trim (NilZero.string_of_uint d) = NilZero.string_of_uint d)
    as Huint.
  { intros d. unfold JS.trim, NilZero.string_of_uint.
    destruct d; try reflexivity;
      by rewrite trimStart_string_of_uint, trimEnd_string_of_uint. }
  unfold JS.toString. destruct (Z.to_int z) as [d|d]; cbn [NilZero.string_of_int].
  - apply Huint.
  - specialize (Huint d). unfold JS.trim in *.
    change (JS.trimStart (String "-" (NilZero.string_of_uint d)))
      with (String "-" (NilZero.string_of_uint d)).
    cbn [JS.trimEnd].
    change (JS.trimStart (String "-" (NilZero.string_of_uint d)))
      with (String "-" (NilZero.string_of_uint d)).
    cbn [String.eqb]. f_equal.
    assert (JS.trimStart (NilZero.string_of_uint d) = NilZero.string_of_uint d)
      as Hstart.
    { unfold NilZero.string_of_uint. destruct d; try reflexivity. }
    by rewrite Hstart in Huint.
Qed.

Lemma BigInt_toString (z : Z) : JS.BigInt (JS.toString z) = Some z.
Proof.
  unfold JS.BigInt. rewrite trim_toString.
  pose proof (toString_nonempty z) as Hne.
  assert (JS.signedDecimal (JS.toString z) = Some z) as Hdec.
  { assert (JS.signedDecimal (JS.toString z)
            = Z.of_int <$> NilZero.int_of_string (JS.toString z)) as ->.
    { unfold JS.toString. destruct (Z.to_int z) as [d|d].
      - cbn [NilZero.string_of_int]. unfold NilZero.string_of_uint.
        destruct d; reflexivity.
      - reflexivity. }
    unfold JS.toString. rewrite NilZero.isi.
    - simpl. f_equal. apply DecimalZ.of_to.
    - destruct z; simpl; intros [= H];
        try discriminate; by apply DecimalPos.Unsigned.to_uint_nonnil in H.
    - destruct z; simpl; intros [= H];
        try discriminate; by apply DecimalPos.Unsigned.to_uint_nonnil in H. }
  destruct (JS.toString z) as [|a t] eqn:E; [congruence|]. by rewrite Hdec.
Qed.


(** The literals [BigInt] accepts besides a rendered bigint, and some it
    refuses. *)
Example BigInt_literals :
  JS.BigInt " 5" = Some 5 /\ JS.BigInt "+7" = Some 7 /\ JS.BigInt "-0" = Some 0
  /\ JS.BigInt "0x1F" = Some 31 /\ JS.BigInt "0b101" = Some 5
  /\ JS.BigInt "" = Some 0 /\ JS.BigInt "  " = Some 0
  /\ JS.BigInt "5 6" = None /\ JS.BigInt "1e3" = None
  /\ JS.BigInt "-0x1" = None /\ JS.BigInt "0x" = None.
Proof. repeat split; reflexivity. Qed.

Lemma truthy_true (s : string) : JS.truthy s = true <-> s <> "".
Proof.
  unfold JS.truthy. rewrite negb_true_iff.
  destruct (String.eqb_spec s ""); split; congruence.
Qed.

(** ** The string helpers on the inputs the sources give them *)

Example split_score_field : JS.split "." "scores.overall" = ["scores"; "overall"].
Proof. reflexivity. Qed.

Example stateFilePath_json :
  stateFilePath "./test-tree-state.json" = "./test-tree-state-state.json".
Proof. reflexivity. Qed.

Example stateFilePath_no_json : stateFilePath "snapshot" = "snapshot".
Proof. reflexivity. Qed.

Example scoreFieldOf_short_and_long :
  scoreFieldOf "overall" = "scores.overall"
  /\ scoreFieldOf "scores.overall" = "scores.overall".
Proof. split; reflexivity. Qed.

Example membershipLoop_index_5 :
  snd (membershipLoop 4 5) = [1; 0; 1; 0].
Proof. reflexivity. Qed.

(** ** ProofVerifier *)

Section VerifierProperties.

Context `{C : Collaborators}.
Context {T : Type} `{IMT : IndexedMerkleTree T}.

Lemma verifyZKProof_structural
    (hu : HashingUtils) (m : MerkleTreeManager) (proof : ZKProof)
    (expectedRoot : option string) :
  fst (verifyZKProof hu m proof expectedRoot)
  = structurallyAccepted proof expectedRoot.
Proof.
  unfold verifyZKProof, structurallyAccepted, verifyMerkleProof.
  destruct (zkProof proof) as [mp|]; [|reflexivity].
  destruct (JS.truthy (merkleRoot proof)); simpl; [|reflexivity].
  destruct (match expectedRoot with
            | Some e => JS.truthy e && negb (String.eqb (merkleRoot proof) e)
            | None => false
            end); reflexivity.
Qed.

(** C1, as the code has it: the root recomputed from the membership proof
    is compared with the stated root, but the outcome only chooses the
    console line.  The boolean returned by [verifyZKProof] is the
    conjunction of the structural checks, for every proof and every
    [expectedRoot], and it is the same whatever membership proof (or none)
    the proof carries. *)
Theorem verifyZKProof_membership_informational
    (hu : HashingUtils) (m : MerkleTreeManager) (proof : ZKProof)
    (expectedRoot : option string) :
  fst (verifyZKProof hu m proof expectedRoot)
    = structurallyAccepted proof expectedRoot
  /\ forall membership : option MembershipProof,
       fst (verifyZKProof hu m (withMembership proof membership) expectedRoot)
       = fst (verifyZKProof hu m proof expectedRoot).
Proof.
  split; [apply verifyZKProof_structural|].
  intros membership. rewrite !verifyZKProof_structural.
  unfold structurallyAccepted, withMembership; simpl.
  destruct (zkProof proof); reflexivity.
Qed.

(** The console line does report the comparison: with a membership proof
    attached and the first two checks passed, the success line is printed
    exactly when the recomputed root equals the stated one. *)
Lemma verifyZKProof_logs_membership
    (hu : HashingUtils) (m : MerkleTreeManager) (proof : ZKProof)
    (mp : MerkleProof) (membership : MembershipProof) :
  zkProof proof = Some mp ->
  membershipProof mp = Some membership ->
  JS.truthy (merkleRoot proof) = true ->
  head (snd (verifyZKProof hu m proof None))
  = Some (if verifyMembershipProof hu (leaf mp) membership (merkleRoot proof)
          then "Membership proof verified successfully"
          else "Membership proof verification failed, but continuing validation").
Proof.
  intros Hz Hm Ht. unfold verifyZKProof. rewrite Hz, Ht, Hm. simpl.
  destruct (verifyMembershipProof hu (leaf mp) membership (merkleRoot proof));
    reflexivity.
Qed.

(** C3, as the code has it: a non-empty [expectedRoot] that differs from
    the proof's [merkleRoot] makes [verifyZKProof] return [false],
    whatever else the proof contains. *)
Theorem verifyZKProof_root_pinning
    (hu : HashingUtils) (m : MerkleTreeManager) (proof : ZKProof)
    (expectedRoot : string) :
  expectedRoot <> "" ->
  merkleRoot proof <> expectedRoot ->
  fst (verifyZKProof hu m proof (Some expectedRoot)) = false.
Proof.
  intros Hne Hdiff.
  rewrite verifyZKProof_structural. unfold structurallyAccepted.
  destruct (zkProof proof); [|reflexivity].
  apply truthy_true in Hne. rewrite Hne.
  destruct (String.eqb_spec (merkleRoot proof) expectedRoot); [congruence|].
  simpl. by rewrite andb_false_r.
Qed.

End VerifierProperties.

(** C1 counterexample: the membership path of [Fixture.mismatched]
    recomputes ["1"], the stated root is ["5"], the membership check says
    so, and [verifyZKProof] still returns [true], with no [expectedRoot]
    and with the matching one. *)
Lemma verifyZKProof_accepts_root_mismatch :
  verifyMembershipProof (hashingUtils Fixture.zk1) "1"
    {| leafIndex := 0; siblings := []; directions := [] |} "5" = false
  /\ fst (verifyZKProof (hashingUtils Fixture.zk1) (merkleTreeManager Fixture.zk1)
            Fixture.mismatched None) = true
  /\ fst (verifyZKProof (hashingUtils Fixture.zk1) (merkleTreeManager Fixture.zk1)
            Fixture.mismatched (Some "5")) = true.
Proof. repeat split; vm_compute; reflexivity. Qed.

(** C3 counterexample: the empty string is supplied as [expectedRoot], it
    differs from the stated root ["5"], and the proof is accepted. *)
Lemma verifyZKProof_empty_expectedRoot_accepted :
  merkleRoot Fixture.mismatched <> ""
  /\ fst (verifyZKProof (hashingUtils Fixture.zk1) (merkleTreeManager Fixture.zk1)
            Fixture.mismatched (Some "")) = true.
Proof. split; [discriminate | vm_compute; reflexivity]. Qed.

Lemma verifyZKProof_root_pinning_witness :
  fst (verifyZKProof (hashingUtils Fixture.zk1) (merkleTreeManager Fixture.zk1)
         Fixture.mismatched (Some "6")) = false.
Proof.
  apply (verifyZKProof_root_pinning (hashingUtils Fixture.zk1)
           (merkleTreeManager Fixture.zk1) Fixture.mismatched "6").
  - discriminate.
  - vm_compute. discriminate.
Defined.

(** ** MerkleTreeManager and ProofGenerator *)

Section GeneratorProperties.

Context `{C : Collaborators}.
Context {T : Type} `{IMT : IndexedMerkleTree T}.

(** Every sibling pushed by the loop is the literal ['0']. *)
Lemma membershipLoop_siblings (levels : nat) (currentIndex : Z) :
  fst (membershipLoop levels currentIndex) = replicate levels "0".
Proof.
  revert currentIndex.
  induction levels as [|levels IH]; intros currentIndex; simpl; [reflexivity|].
  by rewrite IH.
Qed.

Lemma membershipLoop_directions_length (levels : nat) (currentIndex : Z) :
  length (snd (membershipLoop levels currentIndex)) = levels.
Proof.
  revert currentIndex.
  induction levels as [|levels IH]; intros currentIndex; simpl; [reflexivity|].
  by rewrite IH.
Qed.

(** The generated membership proof is a function of the leaf index alone:
    neither the commitment nor the contents of the tree enter it. *)
Lemma generateMembershipProof_shape
    (m : MerkleTreeManager) (tree : T) (credentialHash leafIndex : Z) :
  merkleTree m = Some tree ->
  generateMembershipProof m credentialHash leafIndex
  = JS.Ok {| leafIndex := leafIndex;
             siblings := replicate 32 "0";
             directions := snd (membershipLoop 32 leafIndex) |}.
Proof.
  intros Ht. unfold generateMembershipProof. rewrite Ht.
  unfold depth. by rewrite membershipLoop_siblings.
Qed.

Lemma generateMembershipProof_tree_independent
    (m m' : MerkleTreeManager) (tree tree' : T) (c c' leafIndex : Z) :
  merkleTree m = Some tree ->
  merkleTree m' = Some tree' ->
  generateMembershipProof m c leafIndex = generateMembershipProof m' c' leafIndex.
Proof.
  intros Ht Ht'.
  by rewrite (generateMembershipProof_shape m tree),
             (generateMembershipProof_shape m' tree').
Qed.

(** A leaf and a membership proof recompute one root: they verify against
    at most one root value. *)
Lemma verifyMembershipProof_one_root
    (hu : HashingUtils) (leafHash : string) (membership : MembershipProof)
    (root1 root2 : string) :
  verifyMembershipProof hu leafHash membership root1 = true ->
  verifyMembershipProof hu leafHash membership root2 = true ->
  root1 = root2.
Proof.
  unfold verifyMembershipProof.
  destruct (getPoseidonHash hu) as [poseidon|]; [|discriminate].
  destruct (JS.BigInt leafHash) as [currentHash|]; [|discriminate].
  destruct (reconstruct poseidon (siblings membership) (directions membership)
                        currentHash) as [h|]; [|discriminate].
  intros H1 H2.
  apply String.eqb_eq in H1, H2. congruence.
Qed.

(** So the proof generated for a credential cannot verify both before and
    after an insertion that changes the root. *)
Lemma generated_proof_fits_one_root
    (hu : HashingUtils) (m m' : MerkleTreeManager) (tree tree' : T)
    (c leafIndex : Z) (membership membership' : MembershipProof) :
  merkleTree m = Some tree ->
  merkleTree m' = Some tree' ->
  generateMembershipProof m c leafIndex = JS.Ok membership ->
  generateMembershipProof m' c leafIndex = JS.Ok membership' ->
  getRoot m <> getRoot m' ->
  verifyMembershipProof hu (JS.toString c) membership (getRoot m) = true ->
  verifyMembershipProof hu (JS.toString c) membership' (getRoot m') = false.
Proof.
  intros Ht Ht' Hg Hg' Hroots Hv.
  rewrite (generateMembershipProof_tree_independent m m' tree tree' c c leafIndex Ht Ht')
    in Hg.
  assert (membership = membership') as <- by congruence.
  destruct (verifyMembershipProof hu (JS.toString c) membership (getRoot m'))
    eqn:E; [|reflexivity].
  exfalso. apply Hroots.
  eapply verifyMembershipProof_one_root; eauto.
Qed.

(** [firstUnmet] on a single entry whose score type is a score field. *)
Lemma firstUnmet_single (credential : IELTSCredential) (f : string)
    (t v : JS.number) :
  scores_get (scores credential) f = VNumber v ->
  firstUnmet credential [(f, t)] = if Qle_bool t v then None else Some f.
Proof.
  intros Hv. simpl. rewrite Hv. simpl. unfold JS.ltb.
  by destruct (Qle_bool t v).
Qed.

(** C4, as the code has it: for a stored credential with a non-zero
    commitment and an index in an initialised accumulator, a score field
    [f] with true value [v] and a threshold [t], [generateZKProof] returns
    a proof iff [t <= v] (so [t = v] succeeds); otherwise it throws the
    error naming [f] and returns no proof.  In both cases the membership
    proof, the non-membership proof and the root have already been
    requested from the accumulator when the threshold is compared. *)
Theorem generateZKProof_threshold
    (m : MerkleTreeManager) (now id : string) (fields : list string)
    (f : string) (t v : JS.number) (credential : IELTSCredential)
    (h idx : Z) (tree : T) :
  credentials m !! id = Some credential ->
  leafNodes m !! id = Some h ->
  h <> 0 ->
  credentialIndices m !! id = Some idx ->
  merkleTree m = Some tree ->
  scores_get (scores credential) f = VNumber v ->
  (JS.isOk (snd (generateZKProof m now id fields (Some [(f, t)]))) = true
     <-> (t <= v)%Q)
  /\ (~ (t <= v)%Q ->
      generateZKProof m now id fields (Some [(f, t)])
      = (builtBeforeCheck,
         JS.Throw (JS.Err ("Minimum score requirement not met for " ++ f))))
  /\ builtBeforeCheck `prefix_of` fst (generateZKProof m now id fields (Some [(f, t)])).
Proof.
  intros Hc Hh Hh0 Hi Ht Hv.
  unfold generateZKProof. rewrite Hc, Hh, Hi.
  destruct (Z.eqb_spec h 0) as [|_]; [congruence|].
  rewrite (generateMembershipProof_shape m tree h idx Ht).
  change (default [] (Some [(f, t)])) with [(f, t)].
  rewrite (firstUnmet_single credential f t v Hv).
  destruct (Qle_bool t v) eqn:E.
  - apply Qle_bool_iff in E. cbn [snd fst JS.isOk].
    split; [tauto|]. split; [intros Hn; contradiction|].
    by exists [CallGetRoot].
  - assert (~ (t <= v)%Q) as Hn.
    { intros Hle. apply Qle_bool_iff in Hle. congruence. }
    cbn [snd fst JS.isOk].
    split; [split; [discriminate | intros Hle; contradiction]|].
    split; [reflexivity|]. by exists [].
Qed.

(** Each iteration of the reveal loop adds the key [field] and no other,
    unless the field is ['__proto__'], which adds none. *)
Lemma dom_reveal (credential : IELTSCredential)
    (revealedAttributes : gmap string JSValue) (field : string) :
  dom (reveal credential revealedAttributes field)
  = ({[field]} ∖ {["__proto__"]}) ∪ dom revealedAttributes.
Proof.
  unfold reveal. destruct (String.eqb_spec field "__proto__") as [->|Hne].
  - change (JS.includes "scores." "__proto__") with false. cbn. set_solver.
  - destruct (JS.includes "scores." field); rewrite dom_insert_L; set_solver.
Qed.

Lemma dom_fold_reveal (credential : IELTSCredential) (fields : list string)
    (acc : gmap string JSValue) :
  dom (fold_left (reveal credential) fields acc)
  = dom acc ∪ (list_to_set fields ∖ {["__proto__"]}).
Proof.
  revert acc. induction fields as [|field fields IH]; intros acc; simpl.
  - set_solver.
  - rewrite IH, dom_reveal. set_solver.
Qed.

(** C5: whenever [generateZKProof] returns a proof, the key set of its
    [revealedAttributes] is the set of requested fields without
    ['__proto__']: never a key that was not requested, and exactly the
    requested fields when ['__proto__'] is not one of them. *)
Theorem generateZKProof_revealed_keys
    (m : MerkleTreeManager) (now id : string) (fields : list string)
    (minimumScores : option (list (string * JS.number))) (proof : ZKProof) :
  snd (generateZKProof m now id fields minimumScores) = JS.Ok proof ->
  dom (revealedAttributes proof) = list_to_set fields ∖ {["__proto__"]}
  /\ dom (revealedAttributes proof) ⊆ list_to_set fields
  /\ ("__proto__" ∉ fields ->
      dom (revealedAttributes proof) = list_to_set fields).
Proof.
  unfold generateZKProof.
  destruct (credentials m !! id) as [credential|]; [|discriminate].
  destruct (match leafNodes m !! id with
            | Some h => if Z.eqb h 0 then None else Some h
            | None => None
            end) as [credentialHash|]; [|discriminate].
  destruct (credentialIndices m !! id) as [credentialIndex|]; [|discriminate].
  destruct (generateMembershipProof m credentialHash credentialIndex);
    [|discriminate].
  destruct (firstUnmet credential (default [] minimumScores)); [discriminate|].
  simpl. intros [= <-]. simpl.
  unfold revealAll. rewrite dom_fold_reveal.
  split; [set_solver|]. split; [set_solver|].
  intros Hno. apply set_eq. intros x.
  rewrite elem_of_union, elem_of_difference, elem_of_list_to_set,
    elem_of_singleton.
  split; [set_solver|]. intros Hx. right. split; [done|]. by intros ->.
Qed.

End GeneratorProperties.

(** C2 at a failing input: alice is inserted at index 0, then bob at index 1.
    The membership proof generated for alice's commitment consists of 32
    siblings ['0'] and is the same before and after bob's insertion,
    although the root has changed and alice's leaf has a populated
    neighbour; recomputing the root from it does not give the stored root. *)
Theorem generateMembershipProof_fabricates_siblings :
  leafNodes (merkleTreeManager Fixture.zk2) !! "ielts-001" = Some 760944
  /\ credentialIndices (merkleTreeManager Fixture.zk2) !! "ielts-001" = Some 0
  /\ generateMembershipProof (merkleTreeManager Fixture.zk2) 760944 0
     = JS.Ok {| leafIndex := 0; siblings := replicate 32 "0";
                directions := replicate 32 0 |}
  /\ generateMembershipProof (merkleTreeManager Fixture.zk1) 760944 0
     = generateMembershipProof (merkleTreeManager Fixture.zk2) 760944 0
  /\ getRoot (merkleTreeManager Fixture.zk1) <> getRoot (merkleTreeManager Fixture.zk2)
  /\ verifyMembershipProof (hashingUtils Fixture.zk2) "760944"
       {| leafIndex := 0; siblings := replicate 32 "0";
          directions := replicate 32 0 |}
       (getRoot (merkleTreeManager Fixture.zk2)) = false.
Proof.
  repeat split; try (vm_compute; reflexivity).
  vm_compute. discriminate.
Qed.

(** C4 counterexample: alice's overall score is 8 and the threshold is 8.5.
    The call fails naming the field, and by then the membership proof, the
    non-membership proof and the root have been requested. *)
Lemma generateZKProof_requests_proofs_before_threshold :
  generateZKProof (merkleTreeManager Fixture.zk1) "2024-03-01" "ielts-001"
                  ["name"] (Some [("overall", 17 # 2)])
  = ([ CallGetCredential; CallGetCredentialHash; CallGetCredentialIndex;
       CallGenerateMembershipProof; CallGenerateNonMembershipProof; CallGetRoot ],
     JS.Throw (JS.Err "Minimum score requirement not met for overall")).
Proof. vm_compute. reflexivity. Qed.

Lemma generateZKProof_threshold_witness :
  (JS.isOk (snd (generateZKProof (merkleTreeManager Fixture.zk1) "2024-03-01"
                   "ielts-001" ["name"] (Some [("overall", 8%Q)]))) = true
     <-> (8 <= 8)%Q)
  /\ (~ (8 <= 8)%Q ->
      generateZKProof (merkleTreeManager Fixture.zk1) "2024-03-01" "ielts-001"
                      ["name"] (Some [("overall", 8%Q)])
      = (builtBeforeCheck,
         JS.Throw (JS.Err ("Minimum score requirement not met for " ++ "overall"))))
  /\ builtBeforeCheck `prefix_of`
       fst (generateZKProof (merkleTreeManager Fixture.zk1) "2024-03-01"
              "ielts-001" ["name"] (Some [("overall", 8%Q)])).
Proof.
  apply (generateZKProof_threshold (merkleTreeManager Fixture.zk1) "2024-03-01"
           "ielts-001" ["name"] "overall" 8%Q 8%Q Fixture.alice 760944 0
           [760944]).
  - vm_compute. reflexivity.
  - vm_compute. reflexivity.
  - discriminate.
  - vm_compute. reflexivity.
  - vm_compute. reflexivity.
  - vm_compute. reflexivity.
Defined.

Lemma generateZKProof_revealed_keys_witness :
  dom (revealedAttributes Fixture.aliceProof)
  = list_to_set ["name"; "scores.overall"].
Proof.
  apply (generateZKProof_revealed_keys (merkleTreeManager Fixture.zk1)
           "2024-03-01" "ielts-001" ["name"; "scores.overall"] None
           Fixture.aliceProof).
  - vm_compute. reflexivity.
  - intros Hin. apply elem_of_cons in Hin as [Hin|Hin]; [discriminate|].
    apply list_elem_of_singleton in Hin. discriminate.
Defined.

(** C5 at a failing input: ['__proto__'] is requested for alice's
    credential; the call returns a proof, and its [revealedAttributes] has
    no key at all. *)
Lemma generateZKProof_proto_not_revealed :
  exists proof,
    snd (generateZKProof (merkleTreeManager Fixture.zk1) "2024-03-01" "ielts-001"
           ["__proto__"] None) = JS.Ok proof
    /\ dom (revealedAttributes proof) = ∅
    /\ dom (revealedAttributes proof) <> list_to_set ["__proto__"].
Proof.
  eexists. split; [vm_compute; reflexivity|].
  split; [vm_compute; reflexivity|].
  intros Heq.
  apply (f_equal (fun keys : gset string => bool_decide ("__proto__" ∈ keys)))
    in Heq.
  vm_compute in Heq. discriminate.
Qed.

(** ** Registry and Verifier *)

Section RoleProperties.

Context `{C : Collaborators}.
Context {T : Type} `{IMT : IndexedMerkleTree T}.

(** C6: [revokeCredential] returns [false] and leaves the registry as it
    is when the id is unknown or the acting issuer is not the recorded
    one; otherwise it returns [true], the entry of that id gets
    [revoked = true] with its other fields unchanged, and every other
    entry and every other part of the registry is unchanged. *)
Theorem revokeCredential_spec (r : @Registry T) (id iss : string) :
  ((entries r !! id = None
    \/ exists e, entries r !! id = Some e /\ entry_issuer e <> iss) ->
   revokeCredential r id iss = (false, r))
  /\ (forall e, entries r !! id = Some e -> entry_issuer e = iss ->
      fst (revokeCredential r id iss) = true
      /\ (exists e', entries (snd (revokeCredential r id iss)) !! id = Some e'
            /\ revoked e' = true
            /\ credentialId e' = credentialId e
            /\ entry_issuer e' = entry_issuer e
            /\ entry_holder e' = entry_holder e
            /\ entry_issuanceDate e' = entry_issuanceDate e
            /\ merkleTreeIndex e' = merkleTreeIndex e)
      /\ (forall id', id' <> id ->
            entries (snd (revokeCredential r id iss)) !! id' = entries r !! id')
      /\ reg_zkManager (snd (revokeCredential r id iss)) = reg_zkManager r
      /\ merkleTreeIndices (snd (revokeCredential r id iss))
         = merkleTreeIndices r).
Proof.
  split.
  - intros [Hnone | (e & He & Hne)]; unfold revokeCredential.
    + by rewrite Hnone.
    + rewrite He.
      destruct (String.eqb_spec (entry_issuer e) iss); [congruence|reflexivity].
  - intros e He Hiss. unfold revokeCredential. rewrite He.
    destruct (String.eqb_spec (entry_issuer e) iss); [|congruence].
    cbn [negb fst snd entries reg_zkManager merkleTreeIndices].
    split; [reflexivity|]. split.
    + exists (setRevoked e). rewrite lookup_insert_eq. by repeat split.
    + split; [|by split].
      intros id' Hne. by rewrite lookup_insert_ne.
Qed.

(** A rejected revocation leaves the flag of the entry as it was. *)
Lemma revokeCredential_wrong_issuer_keeps_flag
    (r : @Registry T) (id iss : string) (e : RegistryEntry) :
  entries r !! id = Some e -> entry_issuer e <> iss ->
  fst (revokeCredential r id iss) = false
  /\ isCredentialRevoked (snd (revokeCredential r id iss)) id = revoked e.
Proof.
  intros He Hne. unfold revokeCredential. rewrite He.
  destruct (String.eqb_spec (entry_issuer e) iss); [congruence|].
  simpl. unfold isCredentialRevoked. by rewrite He.
Qed.

Lemma revokeCredential_true_revoked (r : @Registry T) (id iss : string) :
  fst (revokeCredential r id iss) = true ->
  isCredentialRevoked (snd (revokeCredential r id iss)) id = true.
Proof.
  unfold revokeCredential.
  destruct (entries r !! id) as [e|]; [|discriminate].
  destruct (negb (String.eqb (entry_issuer e) iss)); [discriminate|].
  intros _. unfold isCredentialRevoked. simpl.
  by rewrite lookup_insert_eq.
Qed.

(** C7: [isValid] is the conjunction of the five reported details on
    every path; without a registry [notRevoked] is [true]; and once
    [revokeCredential] has returned [true] for [id] on the registry the
    verifier refers to, every presentation whose credential has that id
    is reported with [notRevoked = false]. *)
Theorem verifyPresentation_spec (store : gmap nat (@Registry T)) (v : @Verifier T)
    (presentation : VerifiablePresentation)
    (request : option PresentationRequest) :
  (let r := verifyPresentation store v presentation request in
   isValid r = credentialValid (details r) && issuerTrusted (details r)
               && zkProofValid (details r) && requirementsMet (details r)
               && notRevoked (details r))
  /\ (v_registry v = None ->
      notRevoked (details (verifyPresentation store v presentation request))
      = true)
  /\ (forall (ref : nat) (registry : @Registry T) (id iss : string)
             (credential : VerifiableCredential)
             (others : list VerifiableCredential),
        v_registry v = Some ref ->
        store !! ref = Some registry ->
        fst (revokeCredential registry id iss) = true ->
        verifiableCredential presentation = credential :: others ->
        vc_id credential = id ->
        notRevoked (details (verifyPresentation
                               (<[ref := snd (revokeCredential registry id iss)]> store)
                               v presentation request))
        = false).
Proof.
  split; [|split].
  - unfold verifyPresentation.
    destruct (verifiableCredential presentation) as [|credential others];
      [reflexivity|].
    destruct (v_registry v) as [ref|].
    + destruct (store !! ref) as [registry|]; [|reflexivity].
      destruct (BBSManager_verifyCredential _ _); reflexivity.
    + destruct (BBSManager_verifyCredential _ _); reflexivity.
  - intros Hnone. unfold verifyPresentation. rewrite Hnone.
    destruct (verifiableCredential presentation) as [|credential others];
      [reflexivity|].
    destruct (BBSManager_verifyCredential _ _); reflexivity.
  - intros ref registry id iss credential others Hreg Hstore Hrev Hvc Hid.
    unfold verifyPresentation. rewrite Hvc, Hreg, lookup_insert_eq, Hid.
    rewrite (revokeCredential_true_revoked registry id iss Hrev).
    destruct (BBSManager_verifyCredential _ _); reflexivity.
Qed.

End RoleProperties.

(** ** Holder *)

Section HolderProperties.

Context `{C : Collaborators}.
Context {T : Type} `{IMT : IndexedMerkleTree T}.

(** An untrusted issuer is rejected first, and nothing is stored. *)
Lemma storeCredential_untrusted (h : @Holder T) (vc : VerifiableCredential) :
  issuer vc ∉ h_trustedIssuers h ->
  storeCredential h vc = (JS.Throw untrustedIssuer, h).
Proof.
  intros Hn. unfold storeCredential.
  by rewrite bool_decide_eq_false_2.
Qed.

(** A signature that does not verify over the attributes is rejected, and
    nothing is stored. *)
Lemma storeCredential_invalid_signature (h : @Holder T)
    (vc : VerifiableCredential) (subject : IELTSCredential) (p : BBSProof) :
  issuer vc ∈ h_trustedIssuers h ->
  credentialSubject vc = Some subject ->
  proof vc = Some p ->
  blsVerify (publicKey p) (credentialToMessages subject) (signature p) = false ->
  storeCredential h vc = (JS.Throw invalidSignature, h).
Proof.
  intros Ht Hs Hp Hv. unfold storeCredential, BBSManager_verifyCredential.
  rewrite bool_decide_eq_true_2 by done.
  by rewrite Hs, Hp, Hv.
Qed.

(** The signature check dereferences both sub-objects: when it returns at
    all, both are present. *)
Lemma verifyCredential_needs_both (credential : option IELTSCredential)
    (p : option BBSProof) (b : bool) :
  BBSManager_verifyCredential credential p = JS.Ok b ->
  is_Some credential /\ is_Some p.
Proof.
  unfold BBSManager_verifyCredential.
  destruct credential, p; try discriminate. by split.
Qed.

(** Hence the integrity check that follows it never fires: a missing
    sub-object of a trusted issuer's credential surfaces as the TypeError
    of the signature check. *)
Lemma storeCredential_missing_subobject (h : @Holder T)
    (vc : VerifiableCredential) :
  issuer vc ∈ h_trustedIssuers h ->
  credentialSubject vc = None \/ proof vc = None ->
  exists msg, storeCredential h vc = (JS.Throw (JS.TypeError msg), h).
Proof.
  intros Ht Hmiss. unfold storeCredential, BBSManager_verifyCredential.
  rewrite bool_decide_eq_true_2 by done. simpl.
  destruct (credentialSubject vc), (proof vc), Hmiss; try discriminate; eauto.
Qed.

(** [addCredential] on the accumulator leaves the credential table alone
    when it throws. *)
Lemma MerkleTreeManager_addCredential_throw (hu : HashingUtils)
    (m : @MerkleTreeManager T) (credential : IELTSCredential) (e : JS.Error) :
  fst (MerkleTreeManager_addCredential hu m credential) = JS.Throw e ->
  credentials (snd (MerkleTreeManager_addCredential hu m credential))
  = credentials m.
Proof.
  unfold MerkleTreeManager_addCredential, MerkleTreeManager_initialize.
  intros H. repeat case_match; simplify_eq/=; done.
Qed.

Lemma ZKManager_addCredential_throw (zk : @ZKManager T)
    (credential : IELTSCredential) (e : JS.Error) :
  fst (ZKManager_addCredential zk credential) = JS.Throw e ->
  credentials (merkleTreeManager (snd (ZKManager_addCredential zk credential)))
  = credentials (merkleTreeManager zk).
Proof.
  unfold ZKManager_addCredential.
  destruct (getPoseidonHash (hashingUtils zk)).
  - pose proof (MerkleTreeManager_addCredential_throw (hashingUtils zk)
                  (merkleTreeManager zk) credential e) as H.
    destruct (MerkleTreeManager_addCredential _ _ _) as [r m]. exact H.
  - pose proof (MerkleTreeManager_addCredential_throw
                  (hashingUtils (ZKManager_initialize zk))
                  (merkleTreeManager (ZKManager_initialize zk)) credential e) as H.
    destruct (MerkleTreeManager_addCredential _ _ _) as [r m]. exact H.
Qed.

Lemma MerkleTreeManager_addCredential_ok (hu : HashingUtils)
    (m : @MerkleTreeManager T) (credential : IELTSCredential) (idx : Z) :
  fst (MerkleTreeManager_addCredential hu m credential) = JS.Ok idx ->
  credentials (snd (MerkleTreeManager_addCredential hu m credential))
    !! cred_id credential = Some credential.
Proof.
  unfold MerkleTreeManager_addCredential, MerkleTreeManager_initialize.
  intros H. repeat case_match; simplify_eq/=; by rewrite lookup_insert_eq.
Qed.

Lemma ZKManager_addCredential_ok (zk : @ZKManager T)
    (credential : IELTSCredential) (idx : Z) :
  fst (ZKManager_addCredential zk credential) = JS.Ok idx ->
  credentials (merkleTreeManager (snd (ZKManager_addCredential zk credential)))
    !! cred_id credential = Some credential.
Proof.
  unfold ZKManager_addCredential.
  destruct (getPoseidonHash (hashingUtils zk)).
  - pose proof (MerkleTreeManager_addCredential_ok (hashingUtils zk)
                  (merkleTreeManager zk) credential idx) as H.
    destruct (MerkleTreeManager_addCredential _ _ _) as [r m]. exact H.
  - pose proof (MerkleTreeManager_addCredential_ok
                  (hashingUtils (ZKManager_initialize zk))
                  (merkleTreeManager (ZKManager_initialize zk)) credential idx) as H.
    destruct (MerkleTreeManager_addCredential _ _ _) as [r m]. exact H.
Qed.

(** Whatever its outcome, [addCredential] leaves an initialised tree: a
    manager that stores a credential has one. *)
Lemma ZKManager_addCredential_initialised (zk : @ZKManager T)
    (credential : IELTSCredential) :
  is_Some (merkleTree (merkleTreeManager (snd (ZKManager_addCredential zk credential)))).
Proof.
  unfold ZKManager_addCredential, MerkleTreeManager_addCredential,
    ZKManager_initialize, MerkleTreeManager_initialize.
  repeat case_match; simplify_eq/=; by eexists.
Qed.

(** No failing call retains the credential or commits its attributes. *)
Lemma storeCredential_failure_stores_nothing (h : @Holder T)
    (vc : VerifiableCredential) (e : JS.Error) :
  fst (storeCredential h vc) = JS.Throw e ->
  h_credentials (snd (storeCredential h vc)) = h_credentials h
  /\ credentials (merkleTreeManager (h_zkManager (snd (storeCredential h vc))))
     = credentials (merkleTreeManager (h_zkManager h)).
Proof.
  unfold storeCredential.
  destruct (negb (bool_decide _)); [done|].
  destruct (BBSManager_verifyCredential _ _) as [valid|]; [|done].
  destruct (negb valid); [done|].
  destruct (credentialSubject vc) as [subject|]; [|done].
  destruct (proof vc); [|done].
  pose proof (ZKManager_addCredential_throw (h_zkManager h) subject) as Hzk.
  destruct (ZKManager_addCredential (h_zkManager h) subject) as [res zk].
  destruct res as [idx|e']; simpl; [discriminate|].
  intros _. split; [done|]. by apply (Hzk e').
Qed.

(** A successful call retains the credential and commits its attributes. *)
Lemma storeCredential_success (h : @Holder T) (vc : VerifiableCredential) :
  fst (storeCredential h vc) = JS.Ok () ->
  h_credentials (snd (storeCredential h vc)) !! vc_id vc = Some vc
  /\ exists subject, credentialSubject vc = Some subject
       /\ credentials (merkleTreeManager (h_zkManager (snd (storeCredential h vc))))
            !! cred_id subject = Some subject.
Proof.
  unfold storeCredential.
  destruct (negb (bool_decide _)); [discriminate|].
  destruct (BBSManager_verifyCredential _ _) as [valid|]; [|discriminate].
  destruct (negb valid); [discriminate|].
  destruct (credentialSubject vc) as [subject|]; [|discriminate].
  destruct (proof vc); [|discriminate].
  pose proof (ZKManager_addCredential_ok (h_zkManager h) subject) as Hzk.
  destruct (ZKManager_addCredential (h_zkManager h) subject) as [res zk].
  destruct res as [idx|e']; simpl; [|discriminate].
  intros _. rewrite lookup_insert_eq. split; [done|].
  exists subject. split; [done|]. by apply (Hzk idx).
Qed.

End HolderProperties.

(** C8 at a failing input: the issuer is trusted and [credentialSubject] (or
    [proof]) is missing.  [storeCredential] throws the TypeError raised
    inside the signature check, not the missing-fields error of its own
    integrity check, and the holder is unchanged. *)
Theorem storeCredential_missing_subobject_TypeError :
  storeCredential Fixture.holder1 Fixture.noSubject
  = (JS.Throw (JS.TypeError "Cannot read properties of undefined (reading 'id')"),
     Fixture.holder1)
  /\ storeCredential Fixture.holder1 Fixture.noProof
     = (JS.Throw (JS.TypeError "Cannot read properties of undefined (reading 'publicKey')"),
        Fixture.holder1)
  /\ fst (storeCredential Fixture.holder1 Fixture.noSubject)
     <> JS.Throw missingRequiredFields.
Proof.
  repeat split; try (vm_compute; reflexivity).
  vm_compute. discriminate.
Qed.

(** ** Verifier.checkRequirements *)

Section RequirementProperties.

Context `{C : Collaborators}.

(** C10, as the code has it: a minimum whose score field is absent from
    the revealed mapping is passed over without any comparison.  For a
    request carrying [minimumScores] and a mapping that contains all
    [requiredFields], [requirementsMet] is [true] provided every
    thresholded score field is absent or not below its minimum and the
    closing check on ['scores.overall'] passes. *)
Theorem checkRequirements_absent_minimum_not_enforced
    (revealed : gmap string JSValue) (request : PresentationRequest)
    (minima : list (string * JS.number)) :
  minimumScores request = Some minima ->
  requiredPresent revealed (requiredFields request) = true ->
  (forall scoreType minValue, (scoreType, minValue) ∈ minima ->
     attr revealed (scoreFieldOf scoreType) = VUndefined
     \/ valueLt (attr revealed (scoreFieldOf scoreType)) minValue = false) ->
  overallReasonable revealed = true ->
  checkRequirements revealed (Some request) = true.
Proof.
  intros Hmin Hreq Hscores Hoverall.
  unfold checkRequirements. rewrite Hreq, Hmin. simpl.
  assert (minimaMet revealed minima = true) as ->; [|exact Hoverall].
  unfold minimaMet. apply forallb_forall.
  intros [scoreType minValue] Hin. apply list_elem_of_In in Hin.
  destruct (Hscores scoreType minValue Hin) as [-> | ->]; [reflexivity|].
  by rewrite andb_false_r.
Qed.

(** The closing check passes when ['scores.overall'] is not revealed, and
    when it is a number between 0 and 9. *)
Lemma overallReasonable_absent (revealed : gmap string JSValue) :
  revealed !! "scores.overall" = None -> overallReasonable revealed = true.
Proof. intros H. unfold overallReasonable, attr. by rewrite H. Qed.

Lemma overallReasonable_in_range (revealed : gmap string JSValue) (q : JS.number) :
  revealed !! "scores.overall" = Some (VNumber q) ->
  (0 <= q)%Q -> (q <= 9)%Q ->
  overallReasonable revealed = true.
Proof.
  intros H H0 H9. unfold overallReasonable, attr. rewrite H. simpl.
  unfold JS.gtb, JS.ltb.
  apply Qle_bool_iff in H0, H9. rewrite H0, H9. simpl.
  by rewrite andb_false_r.
Qed.

End RequirementProperties.

(** C10 counterexample: both mappings contain every required field and lack
    the thresholded field ['scores.listening'], and [requirementsMet] is
    [false]: in the first the revealed overall score is 9.5, in the second
    the revealed reading score 6 is below its own minimum 7. *)
Lemma checkRequirements_rejects_despite_absent_score :
  requiredPresent {[ "scores.overall" := VNumber (19 # 2) ]}
                  (requiredFields Fixture.requestListening) = true
  /\ attr {[ "scores.overall" := VNumber (19 # 2) ]} "scores.listening" = VUndefined
  /\ checkRequirements {[ "scores.overall" := VNumber (19 # 2) ]}
                       (Some Fixture.requestListening) = false
  /\ requiredPresent {[ "name" := VString "Bob"; "scores.reading" := VNumber 6%Q ]}
                     (requiredFields Fixture.requestTwoMinima) = true
  /\ attr {[ "name" := VString "Bob"; "scores.reading" := VNumber 6%Q ]}
          "scores.listening" = VUndefined
  /\ checkRequirements {[ "name" := VString "Bob"; "scores.reading" := VNumber 6%Q ]}
                       (Some Fixture.requestTwoMinima) = false.
Proof. repeat split; vm_compute; reflexivity. Qed.

Lemma checkRequirements_absent_minimum_not_enforced_witness :
  checkRequirements {[ "name" := VString "Bob" ]} (Some Fixture.requestTwoMinima)
  = true.
Proof.
  apply (checkRequirements_absent_minimum_not_enforced
           {[ "name" := VString "Bob" ]} Fixture.requestTwoMinima
           [("listening", 7%Q); ("reading", 7%Q)]).
  - reflexivity.
  - vm_compute. reflexivity.
  - intros scoreType minValue Hin. left.
    apply list_elem_of_In in Hin.
    destruct Hin as [[= <- <-] | [[= <- <-] | []]]; vm_compute; reflexivity.
  - vm_compute. reflexivity.
Defined.

(** ** StateManager *)

Section PersistenceProperties.

Context `{C : Collaborators}.
Context {T : Type} `{IMT : IndexedMerkleTree T}.



(** When the path contains no ['.json'] the two writes hit the same file:
    after [saveTreeState] it holds the side tables, not the snapshot. *)
Lemma saveTreeState_same_file (m : @MerkleTreeManager T)
    (fs fs' : FileSystem) (filePath : string) :
  stateFilePath filePath = filePath ->
  saveTreeState m fs filePath = (JS.Ok (), fs') ->
  exists additionalState,
    files fs' !! filePath = Some (JsonFile additionalState).
Proof.
  intros Hsame. unfold saveTreeState, writeFile.
  destruct (merkleTree m); [|discriminate].
  destruct (bool_decide (filePath ∈ unwritable fs)); [discriminate|].
  cbn [unwritable files].
  destruct (bool_decide (stateFilePath filePath ∈ unwritable fs));
    [discriminate|].
  intros [= <-]. cbn [files]. rewrite Hsame, lookup_insert_eq. by eexists.
Qed.

End PersistenceProperties.



(** A path with ['.json'] in a directory name: the snapshot is written,
    the side tables go to a directory that does not exist, and
    [saveTreeState] throws with the snapshot left behind. *)
Example saveTreeState_missing_directory :
  fst (saveTreeState (merkleTreeManager Fixture.zk2)
         Fixture.diskWithoutDirectory "data.json.d/tree.json")
  = JS.Throw saveError
  /\ is_Some (files (snd (saveTreeState (merkleTreeManager Fixture.zk2)
                            Fixture.diskWithoutDirectory "data.json.d/tree.json"))
              !! "data.json.d/tree.json").
Proof. split; [vm_compute; reflexivity | vm_compute; by eexists]. Qed.

Lemma revokeCredential_spec_witness :
  revokeCredential Fixture.registry1 "ielts-001" "did:example:issuer:fake-council"
  = (false, Fixture.registry1)
  /\ fst (revokeCredential Fixture.registry1 "ielts-001" Fixture.council) = true.
Proof.
  split.
  - apply (proj1 (revokeCredential_spec Fixture.registry1 "ielts-001"
                    "did:example:issuer:fake-council")).
    right. eexists. split; [vm_compute; reflexivity | vm_compute; discriminate].
  - eapply (proj2 (revokeCredential_spec Fixture.registry1 "ielts-001"
                     Fixture.council)); vm_compute; reflexivity.
Defined.

Lemma verifyPresentation_spec_witness :
  notRevoked
    (details
       (verifyPresentation
          (<[0%nat := snd (revokeCredential Fixture.registry1 "ielts-001"
                                            Fixture.council)]> Fixture.store1)
          Fixture.verifier1 Fixture.presentation1 None))
  = false.
Proof.
  apply (proj2 (proj2 (verifyPresentation_spec Fixture.store1 Fixture.verifier1
                         Fixture.presentation1 None))
           0%nat Fixture.registry1 "ielts-001" Fixture.council
           (Fixture.signed "ielts-001" Fixture.alice) []);
    vm_compute; reflexivity.
Defined.

(** * Properties of the rest of the code *)

(** ** HashingUtils: bytes and chunks *)

Lemma lor_shiftl_byte (r b : Z) :
  0 <= b < 256 -> Z.lor (Z.shiftl r 8) b = r * 256 + b.
Proof.
  intros Hb. rewrite Z.shiftl_mul_pow2 by lia. change (2 ^ 8) with 256.
  rewrite <- Z.lxor_lor, <- Z.add_nocarry_lxor; try reflexivity.
  all: apply Z.bits_inj'; intros n Hn; rewrite Z.land_spec, Z.bits_0;
    destruct (Z.lt_ge_cases n 8) as [Hlt | Hge].
  all: try (replace (r * 256) with (r * 2 ^ 8) by reflexivity;
            rewrite Z.mul_pow2_bits_low by lia; reflexivity).
  all: rewrite <- (Z.mod_small b (2 ^ 8)) by (change (2 ^ 8) with 256; lia);
    rewrite Z.mod_pow2_bits_high by lia; apply andb_false_r.
Qed.

Lemma fold_bytes_value (bytes : list Z) (acc : Z) :
  Forall (fun b => 0 <= b < 256) bytes ->
  fold_left (fun result b => Z.lor (Z.shiftl result 8) b) bytes acc
  = acc * 256 ^ Z.of_nat (length bytes) + bytesToBigInt bytes.
Proof.
  unfold bytesToBigInt. intros Hall. revert acc.
  induction Hall as [|b bytes Hb Hall IH]; intros acc; simpl.
  - lia.
  - rewrite IH, (IH (Z.lor (Z.shiftl 0 8) b)).
    rewrite !lor_shiftl_byte by done.
    rewrite Nat2Z.inj_succ, Z.pow_succ_r by lia. lia.
Qed.

Lemma bytesToBigInt_range (bytes : list Z) :
  Forall (fun b => 0 <= b < 256) bytes ->
  0 <= bytesToBigInt bytes < 256 ^ Z.of_nat (length bytes).
Proof.
  induction bytes as [|b bytes IH] using rev_ind; intros Hall.
  - simpl. unfold bytesToBigInt. simpl. lia.
  - apply Forall_app in Hall as [Hall Hb]. rewrite Forall_singleton in Hb.
    specialize (IH Hall).
    unfold bytesToBigInt. rewrite fold_left_app. simpl.
    fold (bytesToBigInt bytes). rewrite lor_shiftl_byte by done.
    rewrite length_app, Nat2Z.inj_add. simpl.
    rewrite Z.pow_add_r by lia. change (256 ^ 1) with 256. nia.
Qed.

(** X1: a byte array returned by the hash is read most significant byte
    first: appending a byte multiplies by 256 and adds it, and [n] bytes
    give a value in [0, 256^n). *)
Theorem convertPoseidonToBigInt_bytes (bytes : list Z) (b : Z) :
  Forall (fun x => 0 <= x < 256) bytes ->
  0 <= b < 256 ->
  (exists v, convertPoseidonToBigInt (PUint8Array bytes) = JS.Ok v
             /\ 0 <= v < 256 ^ Z.of_nat (length bytes)
             /\ convertPoseidonToBigInt (PUint8Array (bytes ++ [b]))
                = JS.Ok (v * 256 + b)).
Proof.
  intros Hall Hb. exists (bytesToBigInt bytes). split; [reflexivity|].
  split; [by apply bytesToBigInt_range|].
  simpl. f_equal. unfold bytesToBigInt. rewrite fold_left_app. simpl.
  by rewrite lor_shiftl_byte.
Qed.

Lemma chunk_go_concat (fuel : nat) (bytes : list Z) :
  (length bytes <= fuel)%nat -> concat (chunk_go fuel bytes) = bytes.
Proof.
  revert bytes. induction fuel as [|fuel IH]; intros bytes Hlen.
  - destruct bytes; [reflexivity | simpl in Hlen; lia].
  - destruct bytes as [|b bytes]; [reflexivity|].
    cbn [chunk_go concat]. rewrite IH.
    + apply take_drop.
    + rewrite length_drop. simpl in *. lia.
Qed.

Lemma chunk_go_sizes (fuel : nat) (bytes : list Z) :
  Forall (fun chunk => (0 < length chunk <= 31)%nat) (chunk_go fuel bytes).
Proof.
  revert bytes. induction fuel as [|fuel IH]; intros bytes; [constructor|].
  destruct bytes as [|b bytes]; [constructor|].
  cbn [chunk_go]. constructor; [|apply IH].
  rewrite length_take. cbn [length]. lia.
Qed.

Lemma chunk_go_elements (fuel : nat) (bytes : list Z) (P : Z -> Prop) :
  Forall P bytes -> Forall (Forall P) (chunk_go fuel bytes).
Proof.
  revert bytes. induction fuel as [|fuel IH]; intros bytes Hall; [constructor|].
  destruct bytes as [|b bytes]; [constructor|].
  cbn [chunk_go]. constructor.
  - by apply Forall_take.
  - apply IH. by apply Forall_drop.
Qed.

Lemma encode_bytes (data : string) : Forall (fun b => 0 <= b < 256) (encode data).
Proof.
  unfold encode. apply Forall_map, Forall_forall. intros c _. simpl.
  pose proof (nat_ascii_bounded c). lia.
Qed.

(** X2: the 31-byte slices of the encoded credential lose no byte, none is
    empty or longer than 31 bytes, and so every chunk handed to the hash
    is a number in [0, 2^248). *)
Theorem chunks_fit_field (data : string) :
  concat (chunk_go (length (encode data)) (encode data)) = encode data
  /\ Forall (fun chunk => (0 < length chunk <= 31)%nat)
            (chunk_go (length (encode data)) (encode data))
  /\ Forall (fun c => 0 <= c < 2 ^ 248) (chunks (encode data)).
Proof.
  split; [by apply chunk_go_concat|]. split; [apply chunk_go_sizes|].
  unfold chunks. apply Forall_map.
  pose proof (chunk_go_sizes (length (encode data)) (encode data)) as Hsz.
  pose proof (chunk_go_elements (length (encode data)) (encode data) _
                (encode_bytes data)) as Hel.
  induction Hsz as [|chunk rest Hlen Hsz IH]; [constructor|].
  apply Forall_cons in Hel as [Hchunk Hel].
  constructor; [|by apply IH].
  simpl. pose proof (bytesToBigInt_range chunk Hchunk) as Hr.
  assert (256 ^ Z.of_nat (length chunk) <= 256 ^ 31) as Hp.
  { apply Z.pow_le_mono_r; lia. }
  change (2 ^ 248) with (256 ^ 31). lia.
Qed.

(** ** MerkleTreeManager: insertion *)

Section InsertionProperties.

Context `{C : Collaborators}.
Context {T : Type} `{IMT : IndexedMerkleTree T}.

(** The tree the manager works on once [addCredential] has made sure there
    is one. *)
Lemma addCredential_cases (hu : HashingUtils) (m : @MerkleTreeManager T)
    (credential : IELTSCredential) :
  let tree := default imt_new (merkleTree m) in
  (exists e, MerkleTreeManager_addCredential hu m credential
             = (JS.Throw e,
                {| merkleTree := Some tree; credentials := credentials m;
                   leafNodes := leafNodes m;
                   credentialIndices := credentialIndices m |}))
  \/ (exists h tree',
        hashCredential hu credential = JS.Ok h
        /\ credentials m !! cred_id credential = None
        /\ imt_insert tree h = JS.Ok tree'
        /\ MerkleTreeManager_addCredential hu m credential
           = (JS.Ok (Z.max 0 (imt_size tree - 1)),
              {| merkleTree := Some tree';
                 credentials := <[cred_id credential := credential]> (credentials m);
                 leafNodes := <[cred_id credential := h]> (leafNodes m);
                 credentialIndices :=
                   <[cred_id credential := Z.max 0 (imt_size tree - 1)]>
                     (credentialIndices m) |})).
Proof.
  unfold MerkleTreeManager_addCredential, MerkleTreeManager_initialize.
  destruct m as [[tree|] creds leaves idxs]; cbn [merkleTree credentials leafNodes
    credentialIndices default from_option id].
  - destruct (hashCredential hu credential) as [h|e]; [|by left; eexists].
    destruct (decide (is_Some (creds !! cred_id credential))) as [Hin|Hout];
      [by left; eexists|].
    destruct (imt_insert tree h) as [tree'|e] eqn:E; [|by left; eexists].
    right. exists h, tree'. repeat split; try done.
    by apply eq_None_not_Some.
  - destruct (hashCredential hu credential) as [h|e]; [|by left; eexists].
    destruct (decide (is_Some (creds !! cred_id credential))) as [Hin|Hout];
      [by left; eexists|].
    destruct (imt_insert imt_new h) as [tree'|e] eqn:E; [|by left; eexists].
    right. exists h, tree'. repeat split; try done.
    by apply eq_None_not_Some.
Qed.

(** X3: a successful [addCredential] returns the index [max(0, size - 1)]
    of the tree it inserted into, the id was not registered before, and
    afterwards the three side tables hold the credential, its commitment
    and that index under the id, with every other id as before. *)
Theorem addCredential_success (hu : HashingUtils) (m : @MerkleTreeManager T)
    (credential : IELTSCredential) (index : Z) :
  fst (MerkleTreeManager_addCredential hu m credential) = JS.Ok index ->
  index = Z.max 0 (imt_size (default imt_new (merkleTree m)) - 1)
  /\ credentials m !! cred_id credential = None
  /\ credentials (snd (MerkleTreeManager_addCredential hu m credential))
       !! cred_id credential = Some credential
  /\ (exists h, hashCredential hu credential = JS.Ok h
        /\ leafNodes (snd (MerkleTreeManager_addCredential hu m credential))
             !! cred_id credential = Some h)
  /\ credentialIndices (snd (MerkleTreeManager_addCredential hu m credential))
       !! cred_id credential = Some index
  /\ forall id, id <> cred_id credential ->
       credentials (snd (MerkleTreeManager_addCredential hu m credential)) !! id
       = credentials m !! id
       /\ leafNodes (snd (MerkleTreeManager_addCredential hu m credential)) !! id
          = leafNodes m !! id
       /\ credentialIndices (snd (MerkleTreeManager_addCredential hu m credential)) !! id
          = credentialIndices m !! id.
Proof.
  destruct (addCredential_cases hu m credential)
    as [[e ->] | (h & tree' & Hh & Hnew & Hins & ->)]; [discriminate|].
  cbn [fst snd credentials leafNodes credentialIndices]. intros [= <-].
  split; [done|]. split; [done|].
  rewrite !lookup_insert_eq. split; [done|].
  split; [by exists h|]. split; [done|].
  intros id Hne. by rewrite !lookup_insert_ne.
Qed.

(** X4: when [addCredential] throws, for whatever reason, the three side
    tables are exactly as before and the tree is the one it started from
    (a fresh one if there was none). *)
Theorem addCredential_failure_keeps_state (hu : HashingUtils)
    (m : @MerkleTreeManager T) (credential : IELTSCredential) (e : JS.Error) :
  fst (MerkleTreeManager_addCredential hu m credential) = JS.Throw e ->
  snd (MerkleTreeManager_addCredential hu m credential)
  = {| merkleTree := Some (default imt_new (merkleTree m));
       credentials := credentials m; leafNodes := leafNodes m;
       credentialIndices := credentialIndices m |}.
Proof.
  destruct (addCredential_cases hu m credential)
    as [[e' ->] | (h & tree' & Hh & Hnew & Hins & ->)]; [done|discriminate].
Qed.

(** X5: an id that is already registered is refused with the
    already-registered error (once the credential has been hashed), before
    the tree is touched. *)
Theorem addCredential_duplicate_id (hu : HashingUtils) (m : @MerkleTreeManager T)
    (credential : IELTSCredential) (h : Z) :
  is_Some (credentials m !! cred_id credential) ->
  hashCredential hu credential = JS.Ok h ->
  MerkleTreeManager_addCredential hu m credential
  = (JS.Throw (JS.Err ("Credential " ++ cred_id credential
                         ++ " is already registered")),
     {| merkleTree := Some (default imt_new (merkleTree m));
        credentials := credentials m; leafNodes := leafNodes m;
        credentialIndices := credentialIndices m |}).
Proof.
  intros Hin Hh.
  unfold MerkleTreeManager_addCredential, MerkleTreeManager_initialize.
  destruct m as [[tree|] creds leaves idxs]; cbn [merkleTree credentials leafNodes
    credentialIndices default from_option id] in *;
    rewrite Hh; by rewrite decide_True.
Qed.

(** X6: the three side tables always have the same key set: if they do
    before [addCredential], they do after it, whatever its outcome. *)
Theorem addCredential_keeps_tables_aligned (hu : HashingUtils)
    (m : @MerkleTreeManager T) (credential : IELTSCredential) :
  dom (leafNodes m) = dom (credentials m) ->
  dom (credentialIndices m) = dom (credentials m) ->
  dom (leafNodes (snd (MerkleTreeManager_addCredential hu m credential)))
  = dom (credentials (snd (MerkleTreeManager_addCredential hu m credential)))
  /\ dom (credentialIndices (snd (MerkleTreeManager_addCredential hu m credential)))
     = dom (credentials (snd (MerkleTreeManager_addCredential hu m credential))).
Proof.
  intros Hl Hi.
  destruct (addCredential_cases hu m credential)
    as [[e ->] | (h & tree' & Hh & Hnew & Hins & ->)];
    cbn [snd credentials leafNodes credentialIndices]; [done|].
  rewrite !dom_insert_L, Hl, Hi. done.
Qed.

(** Entries already in the tables survive any [addCredential]. *)
Lemma addCredential_preserves (hu : HashingUtils) (m : @MerkleTreeManager T)
    (credential : IELTSCredential) (id : string) (c : IELTSCredential) (i : Z) :
  credentials m !! id = Some c ->
  credentialIndices m !! id = Some i ->
  credentials (snd (MerkleTreeManager_addCredential hu m credential)) !! id = Some c
  /\ credentialIndices (snd (MerkleTreeManager_addCredential hu m credential)) !! id
     = Some i.
Proof.
  intros Hc Hi.
  destruct (addCredential_cases hu m credential)
    as [[e ->] | (h & tree' & Hh & Hnew & Hins & ->)];
    cbn [snd credentials leafNodes credentialIndices]; [done|].
  assert (id <> cred_id credential) by congruence.
  by rewrite !lookup_insert_ne.
Qed.

Lemma addCredentialsBatch_preserves (hu : HashingUtils) (cs : list IELTSCredential)
    (m : @MerkleTreeManager T) (id : string) (c : IELTSCredential) (i : Z) :
  credentials m !! id = Some c ->
  credentialIndices m !! id = Some i ->
  credentials (snd (addCredentialsBatch hu m cs)) !! id = Some c
  /\ credentialIndices (snd (addCredentialsBatch hu m cs)) !! id = Some i.
Proof.
  revert m. induction cs as [|credential rest IH]; intros m Hc Hi; [done|].
  cbn [addCredentialsBatch].
  pose proof (addCredential_preserves hu m credential id c i Hc Hi) as [Hc' Hi'].
  destruct (MerkleTreeManager_addCredential hu m credential) as [r m1].
  specialize (IH m1 Hc' Hi').
  destruct (addCredentialsBatch hu m1 rest) as [indices m2]. exact IH.
Qed.

(** X7: [addCredentialsBatch] reports one entry per credential, and every
    entry other than [-1] is the index under which that credential is
    registered when the batch is over. *)
Theorem addCredentialsBatch_reports (hu : HashingUtils)
    (cs : list IELTSCredential) (m : @MerkleTreeManager T) :
  length (fst (addCredentialsBatch hu m cs)) = length cs
  /\ forall (k : nat) (credential : IELTSCredential) (index : Z),
       cs !! k = Some credential ->
       fst (addCredentialsBatch hu m cs) !! k = Some index ->
       index <> -1 ->
       credentials (snd (addCredentialsBatch hu m cs)) !! cred_id credential
       = Some credential
       /\ credentialIndices (snd (addCredentialsBatch hu m cs)) !! cred_id credential
          = Some index.
Proof.
  revert m. induction cs as [|c rest IH]; intros m; [by split|].
  cbn [addCredentialsBatch].
  pose proof (addCredential_success hu m c) as Hok.
  destruct (MerkleTreeManager_addCredential hu m c) as [r m1] eqn:E1.
  pose proof (addCredentialsBatch_preserves hu rest m1 (cred_id c) c) as Hkeep.
  destruct (IH m1) as [Hlen Hrest].
  destruct (addCredentialsBatch hu m1 rest) as [indices m2] eqn:E2.
  cbn [fst snd length] in *. split; [by rewrite Hlen|].
  intros [|k] credential index Hc Hidx Hne; cbn in Hc, Hidx.
  - simplify_eq. destruct r as [index|e]; [|done].
    destruct (Hok index eq_refl) as (_ & _ & Hcred & _ & Hind & _).
    by apply Hkeep.
  - by apply (Hrest k).
Qed.

(** X8: a batch handed to a manager whose hash function was never built
    fails on every credential: all entries are [-1] and nothing is
    registered ([ZKManager.addCredentialsBatch], unlike
    [ZKManager.addCredential], does not initialise). *)
Theorem addCredentialsBatch_uninitialised (cs : list IELTSCredential)
    (zk : @ZKManager T) :
  poseidonBuilt (hashingUtils zk) = false ->
  fst (ZKManager_addCredentialsBatch zk cs) = replicate (length cs) (-1)
  /\ credentials (merkleTreeManager (snd (ZKManager_addCredentialsBatch zk cs)))
     = credentials (merkleTreeManager zk)
  /\ leafNodes (merkleTreeManager (snd (ZKManager_addCredentialsBatch zk cs)))
     = leafNodes (merkleTreeManager zk)
  /\ credentialIndices (merkleTreeManager (snd (ZKManager_addCredentialsBatch zk cs)))
     = credentialIndices (merkleTreeManager zk).
Proof.
  intros Hoff. unfold ZKManager_addCredentialsBatch.
  generalize (merkleTreeManager zk) as m.
  induction cs as [|c rest IH]; intros m; [done|].
  cbn [addCredentialsBatch].
  assert (hashCredential (hashingUtils zk) c
          = JS.Throw (JS.Err "HashingUtils not initialized")) as Hh.
  { unfold hashCredential, getPoseidonHash. by rewrite Hoff. }
  destruct (addCredential_cases (hashingUtils zk) m c)
    as [[e ->] | (h & tree' & Hh' & _)]; [|congruence].
  specialize (IH {| merkleTree := Some (default imt_new (merkleTree m));
                    credentials := credentials m; leafNodes := leafNodes m;
                    credentialIndices := credentialIndices m |}).
  destruct (addCredentialsBatch _ _ rest) as [indices m2].
  cbn [fst snd merkleTreeManager length replicate credentials leafNodes
       credentialIndices] in *.
  destruct IH as (-> & -> & -> & ->). done.
Qed.

Lemma membershipLoop_bits (levels : nat) (index : Z) :
  0 <= index ->
  Forall (fun d => d = 0 \/ d = 1) (snd (membershipLoop levels index))
  /\ index = fromBits (snd (membershipLoop levels index))
             + 2 ^ Z.of_nat levels * (index / 2 ^ Z.of_nat levels).
Proof.
  revert index. induction levels as [|levels IH]; intros index Hpos.
  - simpl. split; [constructor|]. rewrite Z.div_1_r. lia.
  - cbn [membershipLoop snd fromBits].
    assert (0 <= index / 2) as Hhalf by (apply Z.div_pos; lia).
    destruct (IH (index / 2) Hhalf) as [Hbits Hval].
    split.
    + constructor; [|done]. destruct (Z.eqb (Z.rem index 2) 1); auto.
    + rewrite Nat2Z.inj_succ, Z.pow_succ_r by lia.
      rewrite <- Z.div_div by lia.
      rewrite Z.rem_mod_nonneg by lia.
      pose proof (Z.div_mod index 2 ltac:(lia)) as Hdm.
      pose proof (Z.mod_pos_bound index 2 ltac:(lia)) as Hmb.
      destruct (Z.eqb_spec (index mod 2) 1) as [H1|H1]; lia.
Qed.

(** X9: the direction bits of a generated membership proof are the binary
    digits of the leaf index, least significant first: for an index below
    [2^32] they are 32 bits, each [0] or [1], whose value is the index. *)
Theorem generateMembershipProof_directions (m : @MerkleTreeManager T) (tree : T)
    (credentialHash index : Z) :
  merkleTree m = Some tree ->
  0 <= index < 2 ^ 32 ->
  exists membership,
    generateMembershipProof m credentialHash index = JS.Ok membership
    /\ leafIndex membership = index
    /\ length (siblings membership) = 32%nat
    /\ length (directions membership) = 32%nat
    /\ Forall (fun d => d = 0 \/ d = 1) (directions membership)
    /\ fromBits (directions membership) = index.
Proof.
  intros Ht [Hpos Hlt]. unfold generateMembershipProof. rewrite Ht.
  eexists. split; [reflexivity|]. cbn [leafIndex siblings directions].
  unfold depth.
  rewrite membershipLoop_siblings, length_replicate,
    membershipLoop_directions_length.
  destruct (membershipLoop_bits 32 index Hpos) as [Hbits Hval].
  repeat split; try done.
  rewrite (Z.div_small index (2 ^ Z.of_nat 32)) in Hval by (simpl; lia). lia.
Qed.

(** X10: a non-membership proof made by [generateNonMembershipProof] is
    parsed back by [verifyNonMembershipProof] into the library's own proof
    (with the query taken from the argument and the root from the current
    tree), so the verdict is the library's verdict on it. *)
Theorem nonMembershipProof_roundtrip (m : @MerkleTreeManager T) (tree : T)
    (queryValue : Z) (p : LibNonMembershipProof) :
  merkleTree m = Some tree ->
  imt_createNonMembershipProof tree queryValue = JS.Ok p ->
  exists nmp,
    generateNonMembershipProof m queryValue = Some nmp
    /\ MerkleTreeManager_verifyNonMembershipProof m nmp
       = match imt_verifyNonMembershipProof tree
                 {| lib_query := queryValue; lib_val := lib_val p;
                    lib_nextVal := lib_nextVal p; lib_nextIdx := lib_nextIdx p;
                    lib_path := lib_path p; lib_directions := lib_directions p;
                    lib_root := imt_root tree |} with
         | JS.Ok b => b
         | JS.Throw _ => false
         end.
Proof.
  intros Ht Hp. unfold generateNonMembershipProof. rewrite Ht, Hp.
  eexists. split; [reflexivity|].
  unfold MerkleTreeManager_verifyNonMembershipProof. rewrite Ht.
  cbn [query preLeaf val nextVal nextIdx nm_path nm_directions].
  rewrite !BigInt_toString.
  assert (BigInts (map JS.toString (lib_path p)) = Some (lib_path p)) as ->.
  { unfold BigInts. apply mapM_Some. induction (lib_path p) as [|x xs IH];
      constructor; [apply BigInt_toString | exact IH]. }
  reflexivity.
Qed.

End InsertionProperties.

(** ** ProofGenerator: thresholds, revealed values, acceptance *)

Section DisclosureProperties.

Context `{C : Collaborators}.
Context {T : Type} `{IMT : IndexedMerkleTree T}.

Lemma valueLt_score (sc : Scores) (k : string) (t : JS.number) :
  valueLt (scores_get sc k) t = true
  <-> exists v, scores_get sc k = VNumber v /\ ~ (t <= v)%Q.
Proof.
  unfold scores_get.
  repeat (destruct (String.eqb k _); [
    simpl; unfold JS.ltb; rewrite negb_true_iff, <- not_true_iff_false,
      Qle_bool_iff; split; [by eexists | by intros (v & [= <-] & Hv)] |]).
  unfold inherited. destruct (bool_decide _); simpl;
    (split; [discriminate | by intros (v & [=] & _)]).
Qed.

Lemma firstUnmet_None (credential : IELTSCredential)
    (entries : list (string * JS.number)) :
  firstUnmet credential entries = None
  <-> forall k t v, (k, t) ∈ entries ->
        scores_get (scores credential) k = VNumber v -> (t <= v)%Q.
Proof.
  induction entries as [|[k0 t0] rest IH]; simpl.
  - split; [|done]. intros _ k t v Hin. by apply elem_of_nil in Hin.
  - destruct (valueLt (scores_get (scores credential) k0) t0) eqn:E.
    + split; [discriminate|]. intros Hall.
      apply valueLt_score in E as (v & Hv & Hn).
      exfalso. apply Hn. apply (Hall k0 t0 v); [left|done].
    + rewrite IH. split.
      * intros Hall k t v Hin Hv.
        apply elem_of_cons in Hin as [[= -> ->]|Hin]; [|by eapply Hall].
        destruct (Qlt_le_dec v t0) as [Hlt|Hle]; [|done].
        assert (valueLt (scores_get (scores credential) k0) t0 = true); [|congruence].
        apply valueLt_score. exists v. split; [done|].
        by apply Qlt_not_le.
      * intros Hall k t v Hin Hv. apply (Hall k t v); [by right|done].
Qed.

Lemma firstUnmet_Some (credential : IELTSCredential)
    (entries : list (string * JS.number)) (k : string) :
  firstUnmet credential entries = Some k ->
  exists t v, (k, t) ∈ entries
    /\ scores_get (scores credential) k = VNumber v /\ ~ (t <= v)%Q.
Proof.
  induction entries as [|[k0 t0] rest IH]; simpl; [discriminate|].
  destruct (valueLt (scores_get (scores credential) k0) t0) eqn:E.
  - intros [= <-]. apply valueLt_score in E as (v & Hv & Hn).
    exists t0, v. split; [left|done].
  - intros Hk. destruct (IH Hk) as (t & v & Hin & Hv & Hn).
    exists t, v. split; [by right|done].
Qed.

Lemma Ok_inj {A : Type} (a b : A) : JS.Ok a = JS.Ok b -> a = b.
Proof.
  intros Heq.
  exact (f_equal (fun r => match r with JS.Ok x => x | JS.Throw _ => a end) Heq).
Qed.

(** What a returned proof looks like, and what made the call succeed. *)
Lemma generateZKProof_Ok_inv (m : @MerkleTreeManager T) (now id : string)
    (fields : list string) (minimumScores : option (list (string * JS.number)))
    (proof : ZKProof) :
  snd (generateZKProof m now id fields minimumScores) = JS.Ok proof ->
  exists credential h index mp,
    credentials m !! id = Some credential
    /\ leafNodes m !! id = Some h /\ h <> 0
    /\ credentialIndices m !! id = Some index
    /\ is_Some (merkleTree m)
    /\ firstUnmet credential (default [] minimumScores) = None
    /\ zkProof proof = Some mp
    /\ leaf mp = JS.toString h /\ root mp = getRoot m
    /\ merkleRoot proof = getRoot m
    /\ revealedAttributes proof = revealAll credential fields.
Proof.
  unfold generateZKProof.
  destruct (credentials m !! id) as [credential|]; [|discriminate].
  destruct (leafNodes m !! id) as [h|]; [|discriminate].
  destruct (Z.eqb_spec h 0) as [|Hh]; [discriminate|].
  destruct (credentialIndices m !! id) as [index|]; [|discriminate].
  unfold generateMembershipProof.
  destruct (merkleTree m) as [tree|] eqn:Ht; [|discriminate].
  destruct (firstUnmet credential (default [] minimumScores)) eqn:Hf;
    [discriminate|].
  cbn [snd]. intros Heq. apply Ok_inj in Heq. subst proof.
  eexists credential, h, index, _.
  cbn [zkProof leaf root merkleRoot revealedAttributes].
  repeat split; first [done | by eexists].
Qed.

(** X11: with several minimum scores, [generateZKProof] succeeds exactly
    when every entry whose key names a score is met; an entry under any
    other key is never enforced.  When it fails, the error names an entry
    whose score is below its minimum. *)
Theorem generateZKProof_all_minima (m : @MerkleTreeManager T) (now id : string)
    (fields : list string) (entries : list (string * JS.number))
    (credential : IELTSCredential) (h index : Z) (tree : T) :
  credentials m !! id = Some credential ->
  leafNodes m !! id = Some h -> h <> 0 ->
  credentialIndices m !! id = Some index ->
  merkleTree m = Some tree ->
  (JS.isOk (snd (generateZKProof m now id fields (Some entries))) = true
   <-> forall k t v, (k, t) ∈ entries ->
         scores_get (scores credential) k = VNumber v -> (t <= v)%Q)
  /\ (JS.isOk (snd (generateZKProof m now id fields (Some entries))) = false ->
      exists k t v,
        snd (generateZKProof m now id fields (Some entries))
        = JS.Throw (JS.Err ("Minimum score requirement not met for " ++ k))
        /\ (k, t) ∈ entries
        /\ scores_get (scores credential) k = VNumber v /\ ~ (t <= v)%Q).
Proof.
  intros Hc Hh Hh0 Hi Ht.
  unfold generateZKProof. rewrite Hc, Hh, Hi.
  destruct (Z.eqb_spec h 0) as [|_]; [congruence|].
  rewrite (generateMembershipProof_shape m tree h index Ht).
  change (default [] (Some entries)) with entries.
  destruct (firstUnmet credential entries) as [k|] eqn:Hf; cbn [snd JS.isOk].
  - split.
    + split; [discriminate|]. intros Hall.
      apply firstUnmet_None in Hall. congruence.
    + intros _. destruct (firstUnmet_Some _ _ _ Hf) as (t & v & Hin & Hv & Hn).
      by exists k, t, v.
  - split; [|discriminate]. split; [|done].
    intros _. by apply firstUnmet_None.
Qed.

Lemma revealAll_lookup_in (credential : IELTSCredential) (fields : list string)
    (f : string) :
  f ∈ fields ->
  revealAll credential fields !! f = reveal credential ∅ f !! f.
Proof.
  unfold revealAll.
  induction fields as [|x fields IH] using rev_ind; intros Hin.
  - by apply elem_of_nil in Hin.
  - rewrite fold_left_app. cbn [fold_left].
    destruct (decide (f = x)) as [->|Hne].
    + destruct (String.eqb_spec x "__proto__") as [->|Hx].
      * assert (forall acc, reveal credential acc "__proto__" = acc) as Hskip
          by reflexivity.
        rewrite !Hskip, lookup_empty. apply not_elem_of_dom.
        rewrite dom_fold_reveal. set_solver.
      * unfold reveal. apply String.eqb_neq in Hx. rewrite Hx.
        destruct (JS.includes "scores." x); by rewrite !lookup_insert_eq.
    + apply elem_of_app in Hin as [Hin|Hin];
        [|apply list_elem_of_singleton in Hin; congruence].
      rewrite <- (IH Hin). unfold reveal.
      destruct (JS.includes "scores." x); [by rewrite lookup_insert_ne|].
      destruct (String.eqb x "__proto__"); [done|by rewrite lookup_insert_ne].
Qed.

Lemma revealAll_lookup_out (credential : IELTSCredential) (fields : list string)
    (f : string) :
  f ∉ fields -> revealAll credential fields !! f = None.
Proof.
  intros Hout. apply not_elem_of_dom.
  unfold revealAll. rewrite dom_fold_reveal. set_solver.
Qed.

Lemma reveal_score (credential : IELTSCredential) (k : string) :
  k ∈ scoreNames ->
  reveal credential ∅ ("scores." ++ k) !! ("scores." ++ k)
  = Some (scores_get (scores credential) k)
  /\ exists v, scores_get (scores credential) k = VNumber v.
Proof.
  intros Hk. unfold scoreNames in Hk.
  repeat (apply elem_of_cons in Hk as [->|Hk];
          [split; [reflexivity | by eexists]|]).
  by apply elem_of_nil in Hk.
Qed.

Lemma reveal_attribute (credential : IELTSCredential) (f : string) :
  f ∈ attributeNames ->
  reveal credential ∅ f !! f = Some (credential_get credential f)
  /\ exists s, credential_get credential f = VString s.
Proof.
  intros Hf. unfold attributeNames in Hf.
  repeat (apply elem_of_cons in Hf as [->|Hf];
          [split; [reflexivity | by eexists]|]).
  by apply elem_of_nil in Hf.
Qed.

(** X12: in a returned proof, a requested attribute is revealed with the
    stored credential's own value, a requested dotted score path
    [scores.<name>] with that score, and a field that was not requested
    is not revealed at all. *)
Theorem generateZKProof_revealed_values (m : @MerkleTreeManager T)
    (now id : string) (fields : list string)
    (minimumScores : option (list (string * JS.number))) (proof : ZKProof) :
  snd (generateZKProof m now id fields minimumScores) = JS.Ok proof ->
  exists credential,
    credentials m !! id = Some credential
    /\ (forall f, f ∈ attributeNames -> f ∈ fields ->
          revealedAttributes proof !! f = Some (credential_get credential f))
    /\ (forall k, k ∈ scoreNames -> ("scores." ++ k) ∈ fields ->
          revealedAttributes proof !! ("scores." ++ k)
          = Some (scores_get (scores credential) k))
    /\ (forall f, f ∉ fields -> revealedAttributes proof !! f = None).
Proof.
  intros Hok.
  destruct (generateZKProof_Ok_inv _ _ _ _ _ _ Hok)
    as (credential & h & index & mp & Hc & _ & _ & _ & _ & _ & _ & _ & _ & _ & ->).
  exists credential. split; [done|]. repeat split.
  - intros f Hf Hin. rewrite revealAll_lookup_in by done.
    by apply reveal_attribute.
  - intros k Hk Hin. rewrite revealAll_lookup_in by done.
    by apply reveal_score.
  - intros f Hout. by apply revealAll_lookup_out.
Qed.

Lemma generated_structurallyAccepted (m : @MerkleTreeManager T) (now id : string)
    (fields : list string) (minimumScores : option (list (string * JS.number)))
    (proof : ZKProof) (expectedRoot : option string) :
  snd (generateZKProof m now id fields minimumScores) = JS.Ok proof ->
  expectedRoot = None \/ expectedRoot = Some (getRoot m) ->
  structurallyAccepted proof expectedRoot = negb (String.eqb (getRoot m) "0").
Proof.
  intros Hok Hexp.
  destruct (generateZKProof_Ok_inv _ _ _ _ _ _ Hok)
    as (credential & h & index & mp & _ & _ & _ & _ & [tree Ht] & _
        & Hmp & Hleaf & Hroot & Hmr & _).
  unfold structurallyAccepted. rewrite Hmp, Hmr, Hleaf, Hroot.
  assert (JS.truthy (getRoot m) = true) as Hr.
  { apply truthy_true. unfold getRoot. rewrite Ht. apply toString_nonempty. }
  assert (JS.truthy (JS.toString h) = true) as Hl.
  { apply truthy_true, toString_nonempty. }
  destruct Hexp as [-> | ->]; rewrite ?String.eqb_refl, Hr, Hl; reflexivity.
Qed.

(** X13: a proof returned by [generateZKProof] is accepted by
    [verifyZKProof] of any manager, with no expected root and with the
    generating accumulator's root as expected root, exactly when that root
    is not the sentinel ['0']. *)
Theorem generated_proof_accepted (m : @MerkleTreeManager T) (now id : string)
    (fields : list string) (minimumScores : option (list (string * JS.number)))
    (proof : ZKProof) (hu' : HashingUtils) (m' : @MerkleTreeManager T) :
  snd (generateZKProof m now id fields minimumScores) = JS.Ok proof ->
  fst (verifyZKProof hu' m' proof None) = negb (String.eqb (getRoot m) "0")
  /\ fst (verifyZKProof hu' m' proof (Some (getRoot m)))
     = negb (String.eqb (getRoot m) "0").
Proof.
  intros Hok. rewrite !verifyZKProof_structural.
  split; eapply generated_structurallyAccepted; eauto.
Qed.

Lemma scoreFieldOf_score (k : string) :
  k ∈ scoreNames -> scoreFieldOf k = "scores." ++ k.
Proof.
  intros Hk. unfold scoreNames in Hk.
  repeat (apply elem_of_cons in Hk as [->|Hk]; [reflexivity|]).
  by apply elem_of_nil in Hk.
Qed.

(** A proof generated for a request passes the verifier's requirement
    check for that request: if the required fields are attribute names or
    dotted score paths, the minima are keyed by score names, and the
    credential's overall score lies between 0 and 9, then
    [checkRequirements] holds of the revealed attributes. *)
Lemma generated_proof_meets_requirements (m : @MerkleTreeManager T)
    (now id : string) (request : PresentationRequest) (proof : ZKProof)
    (credential : IELTSCredential) :
  snd (generateZKProof m now id (requiredFields request) (minimumScores request))
  = JS.Ok proof ->
  credentials m !! id = Some credential ->
  (forall f, f ∈ requiredFields request ->
     f ∈ attributeNames \/ exists k, k ∈ scoreNames /\ f = "scores." ++ k) ->
  (forall k t, (k, t) ∈ default [] (minimumScores request) -> k ∈ scoreNames) ->
  (0 <= overall (scores credential))%Q ->
  (overall (scores credential) <= 9)%Q ->
  checkRequirements (revealedAttributes proof) (Some request) = true.
Proof.
  intros Hok Hc Hfields Hkeys H0 H9.
  destruct (generateZKProof_Ok_inv _ _ _ _ _ _ Hok)
    as (credential' & h & index & mp & Hc' & _ & _ & _ & _ & Hmet & _ & _ & _ & _ & Hrev).
  assert (credential' = credential) as -> by congruence.
  rewrite firstUnmet_None in Hmet.
  unfold checkRequirements. rewrite Hrev.
  assert (requiredPresent (revealAll credential (requiredFields request))
                          (requiredFields request) = true) as ->.
  { unfold requiredPresent. apply forallb_forall. intros f Hin.
    apply list_elem_of_In in Hin. unfold attr.
    rewrite revealAll_lookup_in by done.
    destruct (Hfields f Hin) as [Ha | (k & Hk & ->)].
    - destruct (reveal_attribute credential f Ha) as [-> [s ->]]. reflexivity.
    - destruct (reveal_score credential k Hk) as [-> [v ->]]. reflexivity. }
  assert (minimaMet (revealAll credential (requiredFields request))
                    (default [] (minimumScores request)) = true) as ->.
  { unfold minimaMet. apply forallb_forall. intros [k t] Hin.
    apply list_elem_of_In in Hin.
    pose proof (Hkeys k t Hin) as Hk. rewrite (scoreFieldOf_score k Hk).
    unfold attr.
    destruct (decide (("scores." ++ k) ∈ requiredFields request)) as [Hreq|Hreq].
    - rewrite revealAll_lookup_in by done.
      destruct (reveal_score credential k Hk) as [-> [v Hv]].
      rewrite Hv. simpl.
      unfold JS.ltb. apply (Hmet k t v Hin) in Hv.
      apply Qle_bool_iff in Hv. by rewrite Hv.
    - by rewrite revealAll_lookup_out. }
  cbn [negb]. unfold overallReasonable, attr.
  destruct (decide ("scores.overall" ∈ requiredFields request)) as [Hreq|Hreq].
  - rewrite revealAll_lookup_in by done.
    change (reveal credential ∅ "scores.overall" !! "scores.overall")
      with (Some (VNumber (overall (scores credential)))).
    simpl.
    unfold JS.gtb, JS.ltb.
    apply Qle_bool_iff in H0, H9. rewrite H0, H9. cbn.
    by rewrite andb_false_r.
  - by rewrite revealAll_lookup_out.
Qed.

(** X14: [verifyMembershipProof] answers [false], never an exception,
    when the hash function has not been built, when the leaf is not a
    number, or when some sibling is not a number. *)
Theorem verifyMembershipProof_malformed (hu : HashingUtils) (leafHash : string)
    (membership : MembershipProof) (expectedRoot : string) :
  poseidonBuilt hu = false
  \/ JS.BigInt leafHash = None
  \/ (exists s, s ∈ siblings membership /\ JS.BigInt s = None) ->
  verifyMembershipProof hu leafHash membership expectedRoot = false.
Proof.
  unfold verifyMembershipProof, getPoseidonHash.
  intros [Hoff | [Hleaf | (s & Hin & Hs)]].
  - by rewrite Hoff.
  - destruct (poseidonBuilt hu); [|done]. by rewrite Hleaf.
  - destruct (poseidonBuilt hu); [|done].
    destruct (JS.BigInt leafHash) as [currentHash|]; [|done].
    assert (reconstruct buildPoseidon (siblings membership)
                        (directions membership) currentHash = None) as ->; [|done].
    generalize (directions membership) as ds. revert currentHash.
    induction (siblings membership) as [|x xs IH]; intros currentHash ds.
    + by apply elem_of_nil in Hin.
    + cbn [reconstruct].
      apply elem_of_cons in Hin as [<-|Hin]; [by rewrite Hs|].
      destruct (JS.BigInt x); [|done].
      destruct (convertPoseidonToBigInt _); [|done].
      by apply IH.
Qed.

End DisclosureProperties.

(** ** Registry, Verifier and Issuer *)

Section ProtocolProperties.

Context `{C : Collaborators} `{S : Signer} `{K : Clock}.
Context {T : Type} `{IMT : IndexedMerkleTree T}.

(** X15: a successful [registerCredential] records an unrevoked entry
    under the credential's id with the issuer and holder of the
    credential, commits the subject to the registry's accumulator, leaves
    every other entry alone, and the status of the id is ['valid']. *)
Theorem registerCredential_success (r : @Registry T) (vc : VerifiableCredential)
    (entry : RegistryEntry) :
  fst (registerCredential r vc) = JS.Ok entry ->
  entries (snd (registerCredential r vc)) !! vc_id vc = Some entry
  /\ revoked entry = false
  /\ credentialId entry = vc_id vc
  /\ entry_issuer entry = issuer vc
  /\ (exists subject, credentialSubject vc = Some subject
        /\ entry_holder entry = holder subject
        /\ credentials (merkleTreeManager (reg_zkManager (snd (registerCredential r vc))))
             !! cred_id subject = Some subject)
  /\ merkleTreeIndices (snd (registerCredential r vc)) !! vc_id vc
     = merkleTreeIndex entry
  /\ getCredentialStatus (snd (registerCredential r vc)) (vc_id vc) = "valid"
  /\ forall id, id <> vc_id vc ->
       entries (snd (registerCredential r vc)) !! id = entries r !! id.
Proof.
  unfold registerCredential.
  destruct (credentialSubject vc) as [subject|]; [|discriminate].
  pose proof (ZKManager_addCredential_ok (reg_zkManager r) subject) as Hzk.
  destruct (ZKManager_addCredential (reg_zkManager r) subject) as [res zk].
  destruct res as [index|e]; [|discriminate].
  cbn [fst snd entries reg_zkManager merkleTreeIndices].
  intros Heq. apply Ok_inj in Heq. subst entry.
  unfold getCredentialStatus. cbn [entries].
  rewrite !lookup_insert_eq. cbn.
  repeat split; try done.
  - exists subject. repeat split; try done. by apply (Hzk index).
  - intros id Hne. by rewrite lookup_insert_ne.
Qed.

(** X16: [revokeCredential] never removes an entry and never clears a
    revoked flag, and the only status it can change is that of the id it
    is called with, from unrevoked to revoked, by the recorded issuer. *)
Theorem revokeCredential_only_revokes (r : @Registry T) (id iss : string)
    (other : string) :
  (forall e, entries r !! other = Some e ->
     exists e', entries (snd (revokeCredential r id iss)) !! other = Some e'
       /\ (revoked e = true -> revoked e' = true))
  /\ (entries r !! other = None ->
      entries (snd (revokeCredential r id iss)) !! other = None)
  /\ (getCredentialStatus (snd (revokeCredential r id iss)) other
      <> getCredentialStatus r other ->
      other = id
      /\ exists e, entries r !! id = Some e
           /\ entry_issuer e = iss /\ revoked e = false).
Proof.
  unfold revokeCredential, getCredentialStatus.
  assert (forall (P : Prop) (x : string), (x <> x -> P)) as Hsame by congruence.
  destruct (entries r !! id) as [e0|] eqn:E0.
  2: { cbn [snd]. split; [intros e He; by exists e|]. split; [done|]. apply Hsame. }
  destruct (String.eqb_spec (entry_issuer e0) iss) as [Hiss|Hiss];
    cbn [negb snd entries].
  2: { split; [intros e He; by exists e|]. split; [done|]. apply Hsame. }
  destruct (decide (other = id)) as [->|Hne].
  - rewrite lookup_insert_eq, E0.
    split; [intros e [= <-]; by exists (setRevoked e0)|].
    split; [discriminate|].
    intros Hch. split; [done|]. exists e0. split; [done|]. split; [done|].
    cbn in Hch. destruct (revoked e0); [congruence | done].
  - rewrite lookup_insert_ne by done.
    split; [intros e He; by exists e|]. split; [done|]. apply Hsame.
Qed.

Lemma ZKManager_new_first_index (subject : IELTSCredential) (index : Z) :
  fst (ZKManager_addCredential (T := T) ZKManager_new subject) = JS.Ok index ->
  index = Z.max 0 (imt_size imt_new - 1).
Proof.
  unfold ZKManager_addCredential. cbn.
  destruct (addCredential_cases
              (hashingUtils (ZKManager_initialize (T := T) ZKManager_new))
              (merkleTreeManager (ZKManager_initialize (T := T) ZKManager_new))
              subject)
    as [[e He] | (h & tree' & _ & _ & _ & He)]; cbn in He; rewrite He; cbn.
  - discriminate.
  - congruence.
Qed.

(** X17: [verifyCredentialIntegrity] answers [true] only for an id whose
    status is ['valid']; and for the first credential registered in a
    new registry, which gets tree index [0], it answers [false] although
    the status is ['valid'], because the index [0] counts as missing. *)
Theorem verifyCredentialIntegrity_index_zero (r : @Registry T)
    (vc : VerifiableCredential) (entry : RegistryEntry) (id : string) :
  (verifyCredentialIntegrity r id = true -> getCredentialStatus r id = "valid")
  /\ (imt_size (T := T) imt_new <= 1 ->
      fst (registerCredential (T := T) Registry_new vc) = JS.Ok entry ->
      getCredentialStatus (snd (registerCredential (T := T) Registry_new vc)) (vc_id vc)
        = "valid"
      /\ verifyCredentialIntegrity (snd (registerCredential (T := T) Registry_new vc))
           (vc_id vc) = false).
Proof.
  split.
  - unfold verifyCredentialIntegrity, getCredentialStatus.
    destruct (entries r !! id) as [e|]; [|discriminate].
    destruct (merkleTreeIndex e) as [i|]; [|discriminate].
    destruct (Z.eqb i 0); [discriminate|].
    by destruct (revoked e).
  - intros Hsize. unfold registerCredential, Registry_new.
    cbn [reg_zkManager entries merkleTreeIndices].
    destruct (credentialSubject vc) as [subject|]; [|discriminate].
    pose proof (ZKManager_new_first_index subject) as Hidx.
    destruct (ZKManager_addCredential (T := T) ZKManager_new subject) as [res zk].
    destruct res as [index|e]; [|discriminate].
    specialize (Hidx index eq_refl).
    intros _. unfold getCredentialStatus, verifyCredentialIntegrity.
    cbn [snd entries]. rewrite lookup_insert_eq. cbn.
    split; [done|]. destruct (Z.eqb_spec index 0); [done|lia].
Qed.

(** X18: a presentation is reported valid only if it carries a
    credential whose issuer is trusted, whose sub-objects are present and
    whose signature verifies over the subject, whose proof passes the
    structural checks, whose revealed attributes meet the request, and
    which the attached registry (if any) does not report revoked; the
    revealed data returned are those of the proof, and the credential
    also passes [verifyCredentialDirect]. *)
Theorem verifyPresentation_sound (store : gmap nat (@Registry T))
    (v : @Verifier T) (presentation : VerifiablePresentation)
    (request : option PresentationRequest) :
  isValid (verifyPresentation store v presentation request) = true ->
  exists credential others,
    verifiableCredential presentation = credential :: others
    /\ issuer credential ∈ v_trustedIssuers v
    /\ wellSigned credential
    /\ structurallyAccepted (vp_proof presentation) None = true
    /\ checkRequirements (revealedAttributes (vp_proof presentation)) request = true
    /\ (forall ref, v_registry v = Some ref ->
          exists registry, store !! ref = Some registry
            /\ isCredentialRevoked registry (vc_id credential) = false)
    /\ verifyCredentialDirect v credential = JS.Ok true
    /\ revealedData (verifyPresentation store v presentation request)
       = revealedAttributes (vp_proof presentation).
Proof.
  unfold verifyPresentation, verifyCredentialDirect, ZKManager_verifyZKProof.
  destruct (verifiableCredential presentation) as [|credential others];
    [discriminate|].
  destruct (match v_registry v with
            | Some ref => _
            | None => Some true
            end) as [notRev|] eqn:Hreg; [|discriminate].
  unfold BBSManager_verifyCredential, wellSigned.
  destruct (credentialSubject credential) as [subject|] eqn:Hsub;
    [|discriminate].
  destruct (proof credential) as [p|] eqn:Hp; [|discriminate].
  cbn [isValid revealedData]. rewrite verifyZKProof_structural.
  intros Hval.
  apply andb_true_iff in Hval as [Hval Hnr].
  apply andb_true_iff in Hval as [Hval Hrq].
  apply andb_true_iff in Hval as [Hval Hzk].
  apply andb_true_iff in Hval as [Hcv Hit].
  apply bool_decide_eq_true_1 in Hit.
  exists credential, others. split; [done|]. split; [done|].
  split; [by exists subject, p|].
  split; [done|]. split; [done|]. split.
  - intros ref Href. rewrite Href in Hreg.
    destruct (store !! ref) as [registry|]; [|discriminate].
    exists registry. split; [done|]. simplify_eq. by apply negb_true_iff.
  - rewrite bool_decide_eq_true_2 by done. cbn. rewrite Hsub, Hp.
    split; [|done]. by f_equal.
Qed.

(** X19: trust is consulted at the time of the call: once an issuer has
    been removed from the trust set, every presentation of a credential of
    that issuer is reported with [issuerTrusted = false] and is invalid,
    and [verifyCredentialDirect] answers [false] for it; the trust in
    other issuers is unchanged; and once the issuer is added again
    [verifyCredentialDirect] answers by the signature alone. *)
Theorem removeTrustedIssuer_takes_effect (store : gmap nat (@Registry T))
    (v : @Verifier T) (presentation : VerifiablePresentation)
    (request : option PresentationRequest) (credential : VerifiableCredential)
    (others : list VerifiableCredential) :
  verifiableCredential presentation = credential :: others ->
  issuerTrusted (details (verifyPresentation store
                            (Verifier_removeTrustedIssuer v (issuer credential))
                            presentation request)) = false
  /\ isValid (verifyPresentation store
                (Verifier_removeTrustedIssuer v (issuer credential))
                presentation request) = false
  /\ verifyCredentialDirect (Verifier_removeTrustedIssuer v (issuer credential))
       credential = JS.Ok false
  /\ (forall other, other <> issuer credential ->
        (other ∈ v_trustedIssuers (Verifier_removeTrustedIssuer v (issuer credential))
         <-> other ∈ v_trustedIssuers v))
  /\ verifyCredentialDirect
       (Verifier_addTrustedIssuer
          (Verifier_removeTrustedIssuer v (issuer credential)) (issuer credential))
       credential
     = BBSManager_verifyCredential (credentialSubject credential) (proof credential).
Proof.
  intros Hvc.
  assert (bool_decide (issuer credential
                       ∈ v_trustedIssuers v ∖ {[issuer credential]}) = false) as Hno.
  { apply bool_decide_eq_false_2. set_solver. }
  assert (bool_decide (issuer credential
                       ∈ ({[issuer credential]}
                          ∪ v_trustedIssuers v ∖ {[issuer credential]} : gset string))
          = true) as Hyes.
  { apply bool_decide_eq_true_2. set_solver. }
  unfold verifyPresentation, verifyCredentialDirect, Verifier_addTrustedIssuer,
    Verifier_removeTrustedIssuer.
  cbn [v_trustedIssuers v_registry v_zkManager]. rewrite Hvc, Hno, Hyes.
  split; [|split; [|split; [done|split; [|done]]]].
  - destruct (v_registry v) as [ref|]; [destruct (store !! ref)|]; try done;
      destruct (BBSManager_verifyCredential _ _); done.
  - destruct (v_registry v) as [ref|]; [destruct (store !! ref)|]; try done;
      destruct (BBSManager_verifyCredential _ _) as [b|]; try done;
      cbn; by rewrite andb_false_r.
  - set_solver.
Qed.

(** X20: a successful [issueIELTSCredential] needs a key pair; the
    credential it returns carries the issuer's id, the data as subject
    (under the given id, or the generated one when none is given) and the
    signature of the subject's messages; it is recorded as issued under
    its id and committed to the issuer's accumulator.  If the signature
    package verifies what it signs, the credential is well signed and,
    unless the data carried an empty id, [verifyOwnCredential] confirms
    the subject. *)
Theorem issueIELTSCredential_success (i : @Issuer T)
    (created issued fresh : string)
    (dataId : option string) (data : IELTSCredential) (vc : VerifiableCredential) :
  fst (issueIELTSCredential i created issued fresh dataId data) = JS.Ok vc ->
  exists kp,
    i_keyPair i = Some kp
    /\ issuer vc = issuerId i
    /\ vc_id vc = (if (match dataId with Some id => JS.truthy id | None => false end)
                   then default fresh dataId else fresh)
    /\ credentialSubject vc = Some (withId (default fresh dataId) data)
    /\ (exists p, proof vc = Some p
          /\ publicKey p = kp_publicKey kp
          /\ signature p
             = blsSign kp (credentialToMessages (withId (default fresh dataId) data)))
    /\ issuedCredentials (snd (issueIELTSCredential i created issued fresh dataId data))
         !! vc_id vc = Some vc
    /\ credentials (merkleTreeManager
                      (i_zkManager (snd (issueIELTSCredential i created issued fresh dataId data))))
         !! default fresh dataId = Some (withId (default fresh dataId) data)
    /\ ((forall messages,
           blsVerify (kp_publicKey kp) messages (blsSign kp messages) = true) ->
        wellSigned vc
        /\ (dataId <> Some "" ->
            verifyOwnCredential (snd (issueIELTSCredential i created issued fresh dataId data))
              (withId (default fresh dataId) data) = JS.Ok true)).
Proof.
  unfold issueIELTSCredential, BBSManager_signCredential.
  destruct (i_keyPair i) as [kp|]; [|discriminate].
  pose proof (ZKManager_addCredential_ok (i_zkManager i)
                (withId (default fresh dataId) data)) as Hzk.
  destruct (ZKManager_addCredential (i_zkManager i) _) as [res zk].
  destruct res as [index|e]; [|discriminate].
  cbn [fst snd issuedCredentials i_zkManager].
  intros Heq. apply Ok_inj in Heq. subst vc.
  cbn [vc_id issuer credentialSubject proof].
  exists kp. split; [done|]. split; [done|]. split; [done|]. split; [done|].
  split; [by eexists|]. rewrite lookup_insert_eq. split; [done|].
  split; [by apply (Hzk index)|].
  intros Hlaw. split.
  - eexists _, _. cbn. repeat split; first [done | apply Hlaw].
  - intros Hne. unfold verifyOwnCredential. cbn [cred_id withId issuedCredentials].
    assert ((if match dataId with
                | Some id => JS.truthy id
                | None => false
                end then default fresh dataId else fresh) = default fresh dataId) as ->.
    { destruct dataId as [id|]; [|done]. cbn.
      destruct (JS.truthy id) eqn:Ht; [done|].
      unfold JS.truthy in Ht. apply negb_false_iff, String.eqb_eq in Ht.
      congruence. }
    rewrite lookup_insert_eq. cbn. f_equal. apply Hlaw.
Qed.

(** X21: [Issuer.revokeCredential] throws for an id that was not issued
    and changes nothing; for an issued id it returns [true], forgets that
    credential and no other, keeps the accumulator as it is, and from then
    on [verifyOwnCredential] answers [false] for a credential of that id. *)
Theorem Issuer_revokeCredential_forgets (i : @Issuer T) (id : string) :
  (issuedCredentials i !! id = None ->
   Issuer_revokeCredential i id = (JS.Throw (JS.Err "Credential not found"), i))
  /\ (is_Some (issuedCredentials i !! id) ->
      fst (Issuer_revokeCredential i id) = JS.Ok true
      /\ issuedCredentials (snd (Issuer_revokeCredential i id)) !! id = None
      /\ (forall other, other <> id ->
            issuedCredentials (snd (Issuer_revokeCredential i id)) !! other
            = issuedCredentials i !! other)
      /\ i_zkManager (snd (Issuer_revokeCredential i id)) = i_zkManager i
      /\ forall credential, cred_id credential = id ->
           verifyOwnCredential (snd (Issuer_revokeCredential i id)) credential
           = JS.Ok false).
Proof.
  unfold Issuer_revokeCredential. split.
  - by intros ->.
  - intros [vc Hvc]. rewrite Hvc. cbn [fst snd issuedCredentials i_zkManager].
    split; [done|]. rewrite lookup_delete_eq. split; [done|].
    split; [intros other Hne; by rewrite lookup_delete_ne|].
    split; [done|].
    intros credential <-. unfold verifyOwnCredential. cbn [issuedCredentials].
    by rewrite lookup_delete_eq.
Qed.

End ProtocolProperties.

(** ** The holder's side: storing, selecting and presenting *)

Section PresentationProperties.

Context `{C : Collaborators} `{S : Signer} `{K : Clock} `{D : Doubles}.
Context {T : Type} `{IMT : IndexedMerkleTree T}.

(** Credentials already committed survive [ZKManager.addCredential]. *)
Lemma ZKManager_addCredential_preserves (zk : @ZKManager T)
    (credential : IELTSCredential) (id : string) (c : IELTSCredential) :
  credentials (merkleTreeManager zk) !! id = Some c ->
  credentials (merkleTreeManager (snd (ZKManager_addCredential zk credential))) !! id
  = Some c.
Proof.
  intros Hc. unfold ZKManager_addCredential.
  assert (forall hu (m : @MerkleTreeManager T),
            credentials m !! id = Some c ->
            credentials (snd (MerkleTreeManager_addCredential hu m credential)) !! id
            = Some c) as Hstep.
  { intros hu m Hm.
    destruct (addCredential_cases hu m credential)
      as [[e ->] | (h & tree' & _ & Hnew & _ & ->)]; cbn [snd credentials]; [done|].
    assert (id <> cred_id credential) by congruence.
    by rewrite lookup_insert_ne. }
  destruct (getPoseidonHash (hashingUtils zk)).
  - specialize (Hstep (hashingUtils zk) (merkleTreeManager zk) Hc).
    destruct (MerkleTreeManager_addCredential _ _ _) as [r m]. exact Hstep.
  - specialize (Hstep (hashingUtils (ZKManager_initialize zk))
                  (merkleTreeManager (ZKManager_initialize zk)) Hc).
    destruct (MerkleTreeManager_addCredential _ _ _) as [r m]. exact Hstep.
Qed.

(** One call keeps what holds of the credentials a holder keeps. *)
Lemma holderStep_keeps (h : @Holder T) (call : HolderCall) :
  (forall id credential, h_credentials h !! id = Some credential ->
     vc_id credential = id /\ properlyHeld h credential) ->
  forall id credential,
    h_credentials (holderStep h call) !! id = Some credential ->
    vc_id credential = id /\ properlyHeld (holderStep h call) credential.
Proof.
  intros Hinv id credential.
  assert (forall (zk : @ZKManager T) (trusted : gset string) creds,
            h_trustedIssuers h ⊆ trusted ->
            (forall i c, credentials (merkleTreeManager (h_zkManager h)) !! i = Some c ->
                         credentials (merkleTreeManager zk) !! i = Some c) ->
            h_credentials h !! id = Some credential ->
            vc_id credential = id
            /\ properlyHeld (T := T)
                            {| holderId := holderId h; h_credentials := creds;
                               h_zkManager := zk; h_trustedIssuers := trusted |}
                            credential) as Hold.
  { intros zk trusted creds Hsub Hzk Hlook.
    destruct (Hinv id credential Hlook)
      as (Hid & Htr & Hsig & subject & Hsub' & Hcom).
    split; [done|]. unfold properlyHeld. cbn.
    split; [set_solver|]. split; [done|].
    exists subject. split; [done|]. by apply Hzk. }
  destruct call as [issuerId | vc]; cbn [holderStep].
  - unfold Holder_addTrustedIssuer. cbn [h_credentials].
    apply Hold; [set_solver|done].
  - unfold storeCredential.
    destruct (bool_decide (issuer vc ∈ h_trustedIssuers h)) eqn:Htr;
      cbn [negb]; [|by apply Hinv].
    apply bool_decide_eq_true_1 in Htr.
    unfold BBSManager_verifyCredential.
    destruct (credentialSubject vc) as [subject|] eqn:Hsubject; [|by apply Hinv].
    destruct (proof vc) as [p|] eqn:Hproof; [|by apply Hinv].
    destruct (blsVerify (publicKey p) (credentialToMessages subject) (signature p))
      eqn:Hsig; cbn [negb]; [|by apply Hinv].
    pose proof (ZKManager_addCredential_ok (h_zkManager h) subject) as Hok.
    pose proof (ZKManager_addCredential_preserves (h_zkManager h) subject) as Hpre.
    destruct (ZKManager_addCredential (h_zkManager h) subject) as [res zk].
    cbn [fst snd] in Hok, Hpre.
    destruct res as [index|e]; cbn [snd h_credentials].
    + destruct (decide (id = vc_id vc)) as [->|Hne].
      * rewrite lookup_insert_eq. intros [= <-]. split; [done|].
        unfold properlyHeld. cbn. split; [done|].
        split; [by exists subject, p|].
        exists subject. split; [done|]. by apply (Hok index).
      * rewrite lookup_insert_ne by done. by apply Hold.
    + by apply Hold.
Qed.

Lemma holderAfter_keeps (holderId : string) (calls : list HolderCall)
    (id : string) (credential : VerifiableCredential) :
  h_credentials (holderAfter (T := T) holderId calls) !! id = Some credential ->
  vc_id credential = id
  /\ properlyHeld (holderAfter (T := T) holderId calls) credential.
Proof.
  revert id credential. induction calls as [|call calls IH] using rev_ind.
  - intros id credential. unfold holderAfter, Holder_new. cbn.
    by rewrite lookup_empty.
  - unfold holderAfter in *. rewrite fold_left_app. cbn [fold_left].
    by apply holderStep_keeps.
Qed.

(** X22: whatever calls of [addTrustedIssuer] and [storeCredential] a new
    holder has gone through, failed ones included, every credential it
    keeps is filed under its own id, comes from an issuer the holder
    trusts, has a subject and a proof whose signature verifies over the
    subject, and that subject is committed in the holder's accumulator
    under the subject's id. *)
Theorem holder_keeps_only_verified (holderId : string) (calls : list HolderCall)
    (id : string) (credential : VerifiableCredential) :
  h_credentials (holderAfter (T := T) holderId calls) !! id = Some credential ->
  vc_id credential = id
  /\ issuer credential ∈ h_trustedIssuers (holderAfter (T := T) holderId calls)
  /\ (exists subject p,
        credentialSubject credential = Some subject
        /\ proof credential = Some p
        /\ blsVerify (publicKey p) (credentialToMessages subject) (signature p) = true
        /\ credentials (merkleTreeManager
                          (h_zkManager (holderAfter (T := T) holderId calls)))
             !! cred_id subject = Some subject).
Proof.
  intros Hlook.
  destruct (holderAfter_keeps holderId calls id credential Hlook)
    as (Hid & Htr & (subject & p & Hs & Hp & Hsig) & subject' & Hs' & Hcom).
  split; [done|]. split; [done|].
  exists subject, p. repeat split; try done. congruence.
Qed.

(** *** Selection *)

Lemma ranksBefore_refl (a : IELTSCredential) : certified a -> ranksBefore a a.
Proof.
  intros [aCert Ha]. right. split; [done|].
  exists aCert, aCert. split; [done|]. split; [done|]. apply Qle_refl.
Qed.

Lemma ranksBefore_trans (a b c : IELTSCredential) :
  ranksBefore a b -> ranksBefore b c -> ranksBefore a c.
Proof.
  intros [[Ha Hb] | [Hab (x & y & Hx & Hy & Hxy)]]
         [[Hb' Hc] | [Hbc (y' & z & Hy' & Hz & Hyz)]].
  - congruence.
  - left. split; [done|]. congruence.
  - left. split; [congruence|done].
  - right. split; [congruence|]. exists x, z. split; [done|]. split; [done|].
    assert (y' = y) as -> by congruence. eapply Qle_trans; eauto.
Qed.

Lemma Qminus_nonpos (x y : Q) : (x - y <= 0)%Q -> (x <= y)%Q.
Proof.
  intros H. apply Qle_minus_iff in H. apply Qle_minus_iff.
  assert (y + - x == 0 + - (x - y))%Q as -> by ring. exact H.
Qed.

Lemma Qminus_pos (x y : Q) : ~ (x - y <= 0)%Q -> (y <= x)%Q.
Proof.
  intros H. apply Qnot_le_lt in H. apply Qlt_le_weak.
  apply Qlt_minus_iff. exact H.
Qed.

(** For certification dates that parse, the first two criteria decide
    which side of [0] the comparator's answer lies: it agrees with
    [ranksBefore]. *)
Lemma comparison_cases (request : PresentationRequest) (a b : IELTSCredential) :
  certified a -> certified b ->
  (Qle_bool (comparison request a b) 0 = true -> ranksBefore a b)
  /\ (Qle_bool (comparison request a b) 0 = false -> ranksBefore b a).
Proof.
  intros [aCert Ha] [bCert Hb].
  unfold comparison, compareSubjects, ranksBefore. rewrite Ha, Hb.
  destruct (isExpired a), (isExpired b); cbn [Bool.eqb negb default from_option id];
    try (split; intros Hcmp; first [by left | discriminate]).
  all: cbn [differ minus]; destruct (Qeq_bool aCert bCert) eqn:Hd; cbn [negb].
  all: try (apply Qeq_bool_iff in Hd;
            split; intros _; right; (split; [done|]);
            [exists aCert, bCert | exists bCert, aCert];
            (split; [done|]); (split; [done|]); rewrite Hd; apply Qle_refl).
  all: cbn [default from_option id]; split; intros Hcmp; right; (split; [done|]);
    [exists aCert, bCert | exists bCert, aCert];
    (split; [done|]); (split; [done|]).
  all: first [ apply Qle_bool_iff in Hcmp; by apply Qminus_nonpos
             | apply Qminus_pos; intros Hle; apply Qle_bool_iff in Hle;
               congruence ].
Qed.

Lemma elem_of_insertSorted (request : PresentationRequest)
    (x y : IELTSCredential * VerifiableCredential)
    (sorted : list (IELTSCredential * VerifiableCredential)) :
  y ∈ insertSorted request x sorted <-> y = x \/ y ∈ sorted.
Proof.
  induction sorted as [|z sorted IH]; cbn [insertSorted].
  - rewrite list_elem_of_singleton. set_solver.
  - destruct (Qle_bool _ _).
    + by rewrite elem_of_cons.
    + rewrite !elem_of_cons, IH. tauto.
Qed.

Lemma elem_of_sortCredentials (request : PresentationRequest)
    (y : IELTSCredential * VerifiableCredential)
    (withSubjects : list (IELTSCredential * VerifiableCredential)) :
  y ∈ sortCredentials request withSubjects <-> y ∈ withSubjects.
Proof.
  unfold sortCredentials.
  induction withSubjects as [|x rest IH]; cbn [foldr]; [done|].
  by rewrite elem_of_insertSorted, elem_of_cons, IH.
Qed.

(** The first of the sorted list ranks before every element. *)
Lemma insertSorted_head (request : PresentationRequest)
    (x : IELTSCredential * VerifiableCredential)
    (sorted : list (IELTSCredential * VerifiableCredential)) :
  certified (fst x) ->
  (forall y, y ∈ sorted -> certified (fst y)) ->
  (forall best y, head sorted = Some best -> y ∈ sorted ->
     ranksBefore (fst best) (fst y)) ->
  forall best y, head (insertSorted request x sorted) = Some best ->
    y ∈ insertSorted request x sorted -> ranksBefore (fst best) (fst y).
Proof.
  intros Hx Hall Hsorted best y.
  destruct sorted as [|z sorted]; cbn [insertSorted head].
  - intros [= <-] Hy. apply list_elem_of_singleton in Hy as ->.
    by apply ranksBefore_refl.
  - assert (certified (fst z)) as Hz by (apply Hall; by apply elem_of_cons; left).
    destruct (comparison_cases request (fst x) (fst z) Hx Hz) as [Hle Hgt].
    destruct (Qle_bool _ _) eqn:Hcmp; cbn [head]; intros [= <-] Hy.
    + specialize (Hle eq_refl).
      apply elem_of_cons in Hy as [->|Hy]; [by apply ranksBefore_refl|].
      eapply ranksBefore_trans; [exact Hle|]. by apply Hsorted.
    + specialize (Hgt eq_refl).
      apply elem_of_cons in Hy as [->|Hy]; [by apply ranksBefore_refl|].
      apply elem_of_insertSorted in Hy as [->|Hy]; [done|].
      apply Hsorted; [done|]. by apply elem_of_cons; right.
Qed.

Lemma sortCredentials_head (request : PresentationRequest)
    (withSubjects : list (IELTSCredential * VerifiableCredential)) :
  (forall y, y ∈ withSubjects -> certified (fst y)) ->
  forall best y, head (sortCredentials request withSubjects) = Some best ->
    y ∈ withSubjects -> ranksBefore (fst best) (fst y).
Proof.
  intros Hall best y Hhead Hy. apply (elem_of_sortCredentials request) in Hy.
  revert best y Hhead Hy. unfold sortCredentials.
  induction withSubjects as [|x rest IH]; cbn [foldr]; [discriminate|].
  apply insertSorted_head.
  - apply Hall. by apply elem_of_cons; left.
  - intros y Hy. apply Hall. apply elem_of_cons; right.
    by apply (elem_of_sortCredentials request).
  - apply IH. intros y Hy. apply Hall. by apply elem_of_cons; right.
Qed.

Lemma subjectsOf_Some (credentials : list VerifiableCredential)
    (withSubjects : list (IELTSCredential * VerifiableCredential)) :
  subjectsOf credentials = Some withSubjects ->
  (forall s c, (s, c) ∈ withSubjects ->
     c ∈ credentials /\ credentialSubject c = Some s)
  /\ (forall c s, c ∈ credentials -> credentialSubject c = Some s ->
        (s, c) ∈ withSubjects).
Proof.
  unfold subjectsOf. rewrite mapM_Some. intros Hall.
  induction Hall as [|c [s' c'] credentials withSubjects Hc Hall [IH1 IH2]].
  - split; intros ? ? Hin; by apply elem_of_nil in Hin.
  - destruct (credentialSubject c) as [s0|] eqn:Hs0; [|discriminate].
    cbn in Hc. injection Hc as -> ->. split.
    + intros s c0 Hin. apply elem_of_cons in Hin as [[= -> ->]|Hin].
      * split; [by apply elem_of_cons; left|done].
      * destruct (IH1 s c0 Hin). split; [by apply elem_of_cons; right|done].
    + intros c0 s Hin Hs. apply elem_of_cons in Hin as [->|Hin].
      * apply elem_of_cons; left. congruence.
      * apply elem_of_cons; right. by apply IH2.
Qed.

(** The credential selected is one of those given. *)
Lemma selectBestCredential_elem (credentials : list VerifiableCredential)
    (request : PresentationRequest) (best : VerifiableCredential) :
  selectBestCredential credentials request = JS.Ok (Some best) ->
  best ∈ credentials.
Proof.
  unfold selectBestCredential.
  assert (match subjectsOf credentials with
          | Some withSubjects =>
              JS.Ok (snd <$> head (sortCredentials request withSubjects))
          | None =>
              JS.Throw (JS.TypeError
                          "Cannot read properties of undefined (reading 'expiryDate')")
          end = JS.Ok (Some best) -> best ∈ credentials) as Hsort.
  { destruct (subjectsOf credentials) as [withSubjects|] eqn:Hws; [|discriminate].
    destruct (head (sortCredentials request withSubjects)) as [[s c]|] eqn:Hhead;
      [|discriminate].
    cbn. intros Heq. apply Ok_inj in Heq. injection Heq as ->.
    apply head_Some_elem_of, elem_of_sortCredentials in Hhead.
    by destruct (proj1 (subjectsOf_Some _ _ Hws) s best Hhead). }
  destruct credentials as [|c1 [|c2 rest]]; [exact Hsort| |exact Hsort].
  intros Heq. apply Ok_inj in Heq. injection Heq as ->. apply list_elem_of_singleton.
  done.
Qed.

(** X23: given credentials whose subjects all have a certification date
    that parses, [selectBestCredential] returns one of them, and no other
    ranks strictly before it on the first two criteria: it is expired only
    if all of them are, and among those of its expiry status none has a
    later certification date. *)
Theorem selectBestCredential_best (credentials : list VerifiableCredential)
    (request : PresentationRequest) :
  credentials <> [] ->
  Forall (fun credential =>
            exists subject,
              credentialSubject credential = Some subject
              /\ is_Some (dateValue (certificationDate subject)))
         credentials ->
  exists best subject,
    selectBestCredential credentials request = JS.Ok (Some best)
    /\ best ∈ credentials
    /\ credentialSubject best = Some subject
    /\ forall other otherSubject,
         other ∈ credentials -> credentialSubject other = Some otherSubject ->
         (isExpired subject = true -> isExpired otherSubject = true)
         /\ (isExpired subject = isExpired otherSubject ->
             exists date otherDate,
               dateValue (certificationDate subject) = Some date
               /\ dateValue (certificationDate otherSubject) = Some otherDate
               /\ (otherDate <= date)%Q).
Proof.
  intros Hne Hall.
  assert (forall a b, ranksBefore a b ->
            (isExpired a = true -> isExpired b = true)
            /\ (isExpired a = isExpired b ->
                exists aCert bCert,
                  dateValue (certificationDate a) = Some aCert
                  /\ dateValue (certificationDate b) = Some bCert
                  /\ (bCert <= aCert)%Q)) as Hrank.
  { intros a b [[Ha Hb] | [Hab Hd]]; split; intros Hexp;
      first [congruence | done]. }
  assert (forall c s, c ∈ credentials -> credentialSubject c = Some s ->
            certified s) as Hcert.
  { intros c s Hin Hs. rewrite Forall_forall in Hall.
    destruct (Hall c Hin) as (s' & Hs' & Hparse).
    assert (s' = s) as -> by congruence. exact Hparse. }
  destruct credentials as [|c1 rest]; [done|].
  destruct (decide (rest = [])) as [->|Hrest].
  - apply Forall_singleton in Hall as (s1 & Hs1 & Hparse).
    exists c1, s1. split; [done|]. split; [by apply list_elem_of_singleton|].
    split; [done|]. intros other os Hin Hos.
    apply list_elem_of_singleton in Hin as ->.
    apply Hrank. assert (os = s1) as -> by congruence. by apply ranksBefore_refl.
  - assert (is_Some (subjectsOf (c1 :: rest))) as [withSubjects Hws].
    { unfold subjectsOf. apply mapM_is_Some. eapply Forall_impl; [exact Hall|].
      intros c (s & Hs & _). unfold compose. cbn beta. rewrite Hs. by eexists. }
    destruct (subjectsOf_Some _ _ Hws) as [Hfrom Hto].
    assert (forall y, y ∈ withSubjects -> certified (fst y)) as Hparsed.
    { intros [s c] Hy. destruct (Hfrom s c Hy) as [Hc Hs]. by apply (Hcert c s). }
    destruct (head (sortCredentials request withSubjects)) as [[s c]|] eqn:Hhead.
    + exists c, s.
      pose proof (head_Some_elem_of _ _ Hhead) as Hin.
      apply elem_of_sortCredentials in Hin. destruct (Hfrom s c Hin) as [Hc Hs].
      split.
      { unfold selectBestCredential. rewrite Hws, Hhead.
        destruct rest; [done|reflexivity]. }
      split; [done|]. split; [done|].
      intros other os Hother Hos. apply Hrank.
      apply (sortCredentials_head request withSubjects Hparsed
               (s, c) (os, other) Hhead).
      by apply Hto.
    + apply Forall_cons in Hall as [(s1 & Hs1 & _) _].
      assert ((s1, c1) ∈ sortCredentials request withSubjects) as Hin.
      { apply elem_of_sortCredentials, Hto; [by apply elem_of_cons; left|done]. }
      destruct (sortCredentials request withSubjects); [|discriminate].
      by apply elem_of_nil in Hin.
Qed.

(** *** Presenting *)

(** What a returned presentation is made of. *)
Lemma createPresentation_Ok_inv (h : @Holder T) (stored : list VerifiableCredential)
    (now presentationId : string) (request : PresentationRequest)
    (presentation : VerifiablePresentation) :
  createPresentation h stored now presentationId request = JS.Ok presentation ->
  exists credential subject,
    credential ∈ stored
    /\ isIELTS credential = true
    /\ credentialSubject credential = Some subject
    /\ snd (generateZKProof (merkleTreeManager (h_zkManager h)) now (cred_id subject)
                           (requiredFields request) (minimumScores request))
       = JS.Ok (vp_proof presentation)
    /\ verifiableCredential presentation = [credential]
    /\ vp_holder presentation = holderId h
    /\ vp_id presentation = presentationId.
Proof.
  unfold createPresentation, ZKManager_generateZKProof.
  assert (forall credential, credential ∈ findMatchingCredentials stored ->
            credential ∈ stored /\ isIELTS credential = true) as Hmatch.
  { intros credential Hin. unfold findMatchingCredentials in Hin.
    apply list_elem_of_filter in Hin as [? ?]. done. }
  pose proof (selectBestCredential_elem (findMatchingCredentials stored) request)
    as Helem.
  destruct (selectBestCredential (findMatchingCredentials stored) request)
    as [[credential|]|e]; cbn.
  - specialize (Helem credential eq_refl). destruct (Hmatch _ Helem) as [Hin Htype].
    destruct (findMatchingCredentials stored); [discriminate|]. cbn.
    destruct (credentialSubject credential) as [subject|] eqn:Hsub; [|discriminate].
    destruct (snd (generateZKProof _ _ _ _ _)) as [zkProof|e] eqn:Hgen;
      cbn; [|discriminate].
    intros Heq. apply Ok_inj in Heq. subst presentation. cbn.
    by exists credential, subject.
  - destruct (findMatchingCredentials stored); discriminate.
  - destruct (findMatchingCredentials stored); discriminate.
Qed.

(** X24: a presentation that [createPresentation] returns for a request is
    valid for the verifier that made the request.  The holder is any one
    reached by [addTrustedIssuer] and [storeCredential] calls, [stored]
    lists credentials it keeps, its accumulator root is not the sentinel
    ['0'], the request names attributes or score paths and puts minima on
    scores, the overall scores lie between 0 and 9, the verifier trusts
    the issuers the holder trusts, and its registry, if it has one, has
    none of the credentials revoked.  The data handed back are then the
    requested fields of the presented credential's subject. *)
Theorem presentation_accepted (holderId : string) (calls : list HolderCall)
    (stored : list VerifiableCredential) (now presentationId : string)
    (request : PresentationRequest) (presentation : VerifiablePresentation)
    (store : gmap nat (@Registry T)) (v : @Verifier T) :
  (forall credential, credential ∈ stored ->
     h_credentials (holderAfter (T := T) holderId calls) !! vc_id credential
     = Some credential) ->
  createPresentation (holderAfter (T := T) holderId calls) stored now
    presentationId request = JS.Ok presentation ->
  getMerkleRoot (h_zkManager (holderAfter (T := T) holderId calls)) <> "0" ->
  (forall f, f ∈ requiredFields request ->
     f ∈ attributeNames \/ exists k, k ∈ scoreNames /\ f = "scores." ++ k) ->
  (forall k t, (k, t) ∈ default [] (minimumScores request) -> k ∈ scoreNames) ->
  (forall credential subject,
     credential ∈ stored -> credentialSubject credential = Some subject ->
     (0 <= overall (scores subject))%Q /\ (overall (scores subject) <= 9)%Q) ->
  h_trustedIssuers (holderAfter (T := T) holderId calls) ⊆ v_trustedIssuers v ->
  (forall ref, v_registry v = Some ref ->
     exists registry, store !! ref = Some registry
       /\ forall credential, credential ∈ stored ->
            isCredentialRevoked registry (vc_id credential) = false) ->
  isValid (verifyPresentation store v presentation (Some request)) = true
  /\ exists credential subject,
       verifiableCredential presentation = [credential]
       /\ credential ∈ stored
       /\ credentialSubject credential = Some subject
       /\ revealedData (verifyPresentation store v presentation (Some request))
          = revealAll subject (requiredFields request).
Proof.
  intros Hstored Hcreate Hroot Hfields Hkeys Hrange Htrust Hreg.
  destruct (createPresentation_Ok_inv _ _ _ _ _ _ Hcreate)
    as (credential & subject & Hin & _ & Hsub & Hgen & Hvc & _ & _).
  destruct (holderAfter_keeps holderId calls _ _ (Hstored credential Hin))
    as (_ & Htr & (s1 & p & Hs1 & Hp & Hsig) & s2 & Hs2 & Hcom).
  assert (s1 = subject) as -> by congruence.
  assert (s2 = subject) as -> by congruence.
  destruct (Hrange credential subject Hin Hsub) as [H0 H9].
  pose proof (generated_proof_meets_requirements _ _ _ _ _ _
                Hgen Hcom Hfields Hkeys H0 H9) as Hreq.
  pose proof (generated_structurallyAccepted _ _ _ _ _ _ None Hgen
                (or_introl eq_refl)) as Hacc.
  assert (revealedAttributes (vp_proof presentation)
          = revealAll subject (requiredFields request)) as Hrev.
  { destruct (generateZKProof_Ok_inv _ _ _ _ _ _ Hgen)
      as (c' & h' & i' & mp & Hc' & _ & _ & _ & _ & _ & _ & _ & _ & _ & ->).
    congruence. }
  assert (negb (String.eqb (getRoot (merkleTreeManager
                              (h_zkManager (holderAfter (T := T) holderId calls))))
                           "0") = true) as Hnz.
  { apply negb_true_iff, String.eqb_neq. exact Hroot. }
  assert (isValid (verifyPresentation store v presentation (Some request)) = true
          /\ revealedData (verifyPresentation store v presentation (Some request))
             = revealedAttributes (vp_proof presentation)) as [Hvalid Hdata].
  { unfold verifyPresentation. rewrite Hvc.
    assert (match v_registry v with
            | Some ref =>
                match store !! ref with
                | Some registry =>
                    Some (negb (isCredentialRevoked registry (vc_id credential)))
                | None => None
                end
            | None => Some true
            end = Some true) as ->.
    { destruct (v_registry v) as [ref|]; [|done].
      destruct (Hreg ref eq_refl) as (registry & -> & Hnr).
      by rewrite (Hnr credential Hin). }
    unfold BBSManager_verifyCredential, ZKManager_verifyZKProof.
    rewrite Hsub, Hp. cbn [isValid revealedData].
    rewrite verifyZKProof_structural, Hsig, Hacc, Hnz, Hreq.
    rewrite bool_decide_eq_true_2 by set_solver. done. }
  split; [done|]. exists credential, subject. by rewrite Hdata, Hrev.
Qed.

(** *** Range proofs *)

Lemma score_path (k : string) :
  k ∈ scoreNames ->
  JS.startsWith "scores." ("scores." ++ k) = true
  /\ JS.includes "scores." ("scores." ++ k) = true
  /\ JS.split "." ("scores." ++ k) !! 1%nat = Some k.
Proof.
  intros Hk. unfold scoreNames in Hk.
  repeat (apply elem_of_cons in Hk as [->|Hk]; [by vm_compute|]).
  by apply elem_of_nil in Hk.
Qed.

(** X25: for a fully registered credential and a score path,
    [generateRangeProof] always returns a result, in range or not: the
    three flags say whether the score lies between the bounds, and in
    either case the proof reveals that one field with the exact score. *)
Theorem generateRangeProof_discloses (m : @MerkleTreeManager T) (now id k : string)
    (minValue maxValue : JS.number) (credential : IELTSCredential)
    (h index : Z) (tree : T) :
  k ∈ scoreNames ->
  credentials m !! id = Some credential ->
  leafNodes m !! id = Some h -> h <> 0 ->
  credentialIndices m !! id = Some index ->
  merkleTree m = Some tree ->
  exists r v,
    generateRangeProof m now id ("scores." ++ k) minValue maxValue = JS.Ok r
    /\ scores_get (scores credential) k = VNumber v
    /\ (inRange r = true <-> (minValue <= v)%Q /\ (v <= maxValue)%Q)
    /\ actualInRange r = inRange r
    /\ provenInRange (range_meta r) = inRange r
    /\ revealedAttributes (range_proof r) = {[ "scores." ++ k := VNumber v ]}.
Proof.
  intros Hk Hc Hh Hh0 Hi Ht.
  destruct (score_path k Hk) as (Hstarts & Hincl & Hsplit).
  destruct (reveal_score credential k Hk) as [_ [v Hv]].
  unfold generateRangeProof. rewrite Hc, Hstarts, Hsplit.
  change (default "undefined" (Some k)) with k.
  rewrite Hv. cbn [scoreGe scoreLe].
  set (within := Qle_bool minValue v && Qle_bool v maxValue).
  assert (firstUnmet credential
            (default [] (if within then Some [(k, minValue)] else None)) = None)
    as Hmet.
  { destruct within eqn:Hw; [|done].
    change (default [] (Some [(k, minValue)])) with [(k, minValue)].
    cbn [firstUnmet].
    rewrite Hv. cbn [valueLt]. unfold JS.ltb.
    apply andb_true_iff in Hw as [Hlo _]. by rewrite Hlo. }
  unfold generateZKProof. rewrite Hc, Hh, Hi.
  destruct (Z.eqb_spec h 0) as [|_]; [congruence|].
  rewrite (generateMembershipProof_shape m tree h index Ht), Hmet. cbn [snd].
  eexists _, v. split; [reflexivity|]. cbn.
  split; [done|]. split.
  { unfold within. rewrite andb_true_iff, !Qle_bool_iff. done. }
  split; [done|]. split; [done|].
  unfold revealAll. cbn [fold_left]. unfold reveal.
  rewrite Hincl, Hsplit. change (default "undefined" (Some k)) with k.
  by rewrite Hv, insert_empty.
Qed.

(** *** Messages and their indices *)

(** X26: the index [getFieldMapping] gives a field is the position of that
    field's value in the message list that is signed: an attribute's
    string, or a score's number as a string. *)
Theorem getFieldMapping_matches_messages (credential : IELTSCredential)
    (field : string) (index : nat) :
  getFieldMapping field = Some index ->
  exists message,
    credentialToMessages credential !! index = Some message
    /\ ((field ∈ attributeNames
         /\ credential_get credential field = VString message)
        \/ (exists k v,
              k ∈ scoreNames /\ field = "scores." ++ k
              /\ scores_get (scores credential) k = VNumber v
              /\ message = numberToString v)).
Proof.
  unfold getFieldMapping. intros Hindex.
  repeat (match type of Hindex with
          | context [String.eqb field ?s] =>
              destruct (String.eqb_spec field s) as [->|_]
          end;
          [cbn in Hindex; injection Hindex as <-; eexists; split; [reflexivity|];
           first [ left; split; [by repeat constructor | reflexivity]
                 | right; eexists _, _; split; [by repeat constructor|];
                   split; [reflexivity|]; split; reflexivity ]|]).
  cbn in Hindex. discriminate.
Qed.

(** *** From the issuer to the holder and the verifier *)

(** X27: with a signing package that verifies what it signs, a credential
    that [issueIELTSCredential] returns passes the direct check of every
    verifier that trusts the issuer, and passes the trust and signature
    checks of every holder that trusts the issuer: [storeCredential] then
    fails only if the holder's accumulator refuses the subject. *)
Theorem issued_credential_accepted (i : @Issuer T)
    (created issued fresh : string)
    (dataId : option string) (data : IELTSCredential) (vc : VerifiableCredential)
    (h : @Holder T) (v : @Verifier T) :
  fst (issueIELTSCredential i created issued fresh dataId data) = JS.Ok vc ->
  (forall keyPair messages,
     blsVerify (kp_publicKey keyPair) messages (blsSign keyPair messages) = true) ->
  (issuerId i ∈ v_trustedIssuers v -> verifyCredentialDirect v vc = JS.Ok true)
  /\ (issuerId i ∈ h_trustedIssuers h ->
      fst (storeCredential h vc)
      = match fst (ZKManager_addCredential (h_zkManager h)
                     (withId (default fresh dataId) data)) with
        | JS.Ok _ => JS.Ok ()
        | JS.Throw e => JS.Throw e
        end).
Proof.
  unfold issueIELTSCredential, BBSManager_signCredential.
  destruct (i_keyPair i) as [kp|]; [|discriminate].
  destruct (ZKManager_addCredential (i_zkManager i) _) as [res zk].
  destruct res as [index|e]; [|discriminate].
  cbn [fst]. intros Heq Hlaw. apply Ok_inj in Heq. subst vc. split.
  - intros Htrust. unfold verifyCredentialDirect, BBSManager_verifyCredential.
    cbn [issuer credentialSubject proof publicKey signature].
    rewrite bool_decide_eq_true_2 by done. cbn [negb]. by rewrite Hlaw.
  - intros Htrust. unfold storeCredential, BBSManager_verifyCredential.
    cbn [issuer credentialSubject proof publicKey signature].
    rewrite bool_decide_eq_true_2 by done. cbn [negb]. rewrite Hlaw. cbn [negb].
    destruct (ZKManager_addCredential (h_zkManager h) _) as [res' zk'].
    by destruct res'.
Qed.

(** *** Selective disclosure *)

Lemma getFieldMapping_bound (field : string) (index : nat) :
  getFieldMapping field = Some index -> (index < 13)%nat.
Proof.
  unfold getFieldMapping. intros Hindex.
  repeat (match type of Hindex with
          | context [String.eqb field ?s] =>
              destruct (String.eqb_spec field s) as [->|_]
          end;
          [cbn in Hindex; injection Hindex as <-; lia|]).
  cbn in Hindex. discriminate.
Qed.

(** What ends up in the array of revealed indices: the index of every
    requested field that is mapped, and the inherited member of every
    requested name that the mapping has only from [Object.prototype]. *)
Lemma elem_of_revealedIndices (revealedFields : list string) (index : JSValue) :
  index ∈ revealedIndices revealedFields
  <-> exists field,
        field ∈ revealedFields
        /\ ((exists position,
               getFieldMapping field = Some position
               /\ index = VNumber (inject_Z (Z.of_nat position)))
            \/ (field ∈ inheritedNames /\ index = VInherited field)).
Proof.
  unfold revealedIndices. rewrite list_elem_of_filter.
  change (map fieldToIndex_get revealedFields)
    with (fieldToIndex_get <$> revealedFields).
  rewrite list_elem_of_fmap. unfold fieldToIndex_get, inherited. split.
  - intros (Hdef & field & -> & Hin). exists field. split; [done|].
    destruct (getFieldMapping field) as [position|] eqn:Hmap; [left; by eexists|].
    destruct (bool_decide (field ∈ inheritedNames)) eqn:Hinh; [|discriminate].
    apply bool_decide_eq_true_1 in Hinh. by right.
  - intros (field & Hin & [(position & Hmap & ->) | [Hinh ->]]).
    + split; [done|]. exists field. by rewrite Hmap.
    + split; [done|]. exists field. split; [|done].
      assert (getFieldMapping field = None) as ->.
      { unfold inheritedNames in Hinh.
        repeat (apply elem_of_cons in Hinh as [->|Hinh]; [reflexivity|]).
        by apply elem_of_nil in Hinh. }
      by rewrite bool_decide_eq_true_2.
Qed.

(** X28: for a holder reached by [addTrustedIssuer] and [storeCredential]
    calls, [createSelectiveDisclosurePresentation] throws for an id the
    holder does not keep, and otherwise only if the signature package
    does: it hands the package the kept signature, the subject's messages
    and the indices of the requested fields, and reports the requested
    fields, known or not.  A revealed index is the position of a message
    or, for a requested name such as ['toString'], the member the mapping
    inherits under it; with no such name requested, every revealed index
    is the position of a message. *)
Theorem createSelectiveDisclosurePresentation_of_held (holderId : string)
    (calls : list HolderCall) (nonce credentialId : string)
    (revealedFields : list string) :
  (h_credentials (holderAfter (T := T) holderId calls) !! credentialId = None ->
   createSelectiveDisclosurePresentation (holderAfter (T := T) holderId calls)
     nonce credentialId revealedFields
   = JS.Throw (JS.Err "Credential not found"))
  /\ (forall credential,
        h_credentials (holderAfter (T := T) holderId calls) !! credentialId
        = Some credential ->
        exists subject p,
          credentialSubject credential = Some subject
          /\ proof credential = Some p
          /\ createSelectiveDisclosurePresentation
               (holderAfter (T := T) holderId calls) nonce credentialId revealedFields
             = match blsCreateProof (signature p) (publicKey p)
                       (credentialToMessages subject)
                       (revealedIndices revealedFields) nonce with
               | JS.Ok selectiveProof =>
                   JS.Ok {| sd_proof := selectiveProof;
                            sd_revealedFields := revealedFields;
                            sd_credentialId := credentialId |}
               | JS.Throw e => JS.Throw e
               end
          /\ (forall index,
                index ∈ revealedIndices revealedFields ->
                (exists position,
                   index = VNumber (inject_Z (Z.of_nat position))
                   /\ is_Some (credentialToMessages subject !! position))
                \/ (exists name,
                      index = VInherited name
                      /\ name ∈ inheritedNames /\ name ∈ revealedFields))
          /\ (forall name,
                name ∈ inheritedNames -> name ∈ revealedFields ->
                VInherited name ∈ revealedIndices revealedFields)
          /\ ((forall name, name ∈ inheritedNames -> name ∉ revealedFields) ->
              Forall (fun index =>
                        exists position,
                          index = VNumber (inject_Z (Z.of_nat position))
                          /\ is_Some (credentialToMessages subject !! position))
                     (revealedIndices revealedFields))).
Proof.
  split.
  - intros Hnone. unfold createSelectiveDisclosurePresentation. by rewrite Hnone.
  - intros credential Hlook.
    destruct (holderAfter_keeps holderId calls _ _ Hlook)
      as (_ & _ & (subject & p & Hs & Hp & _) & _).
    exists subject, p. split; [done|]. split; [done|].
    split; [unfold createSelectiveDisclosurePresentation; by rewrite Hlook, Hs, Hp|].
    assert (forall index,
              index ∈ revealedIndices revealedFields ->
              (exists position,
                 index = VNumber (inject_Z (Z.of_nat position))
                 /\ is_Some (credentialToMessages subject !! position))
              \/ (exists name,
                    index = VInherited name
                    /\ name ∈ inheritedNames /\ name ∈ revealedFields)) as Hall.
    { intros index Hin.
      apply elem_of_revealedIndices in Hin
        as (field & Hfield & [(position & Hmap & ->) | [Hinh ->]]).
      - left. exists position. split; [done|].
        apply lookup_lt_is_Some_2. cbn. by apply getFieldMapping_bound in Hmap.
      - right. by exists field. }
    split; [exact Hall|]. split.
    + intros name Hinh Hin. apply elem_of_revealedIndices.
      exists name. split; [done|]. by right.
    + intros Hnone. apply Forall_forall. intros index Hin.
      destruct (Hall index Hin) as [Hpos | (name & _ & Hinh & Hreq)]; [done|].
      by destruct (Hnone name Hinh).
Qed.

End PresentationProperties.

(** * Sample runs

    Each property above that has a precondition, at the sample parties. *)

Lemma convertPoseidonToBigInt_bytes_witness :
  exists v, convertPoseidonToBigInt (PUint8Array [1; 2]) = JS.Ok v
    /\ 0 <= v < 256 ^ Z.of_nat (length [1; 2])
    /\ convertPoseidonToBigInt (PUint8Array ([1; 2] ++ [3])%list)
       = JS.Ok (v * 256 + 3).
Proof.
  apply (convertPoseidonToBigInt_bytes [1; 2] 3).
  - repeat (constructor; [lia|]). constructor.
  - lia.
Defined.

Lemma addCredential_success_witness :
  1 = Z.max 0 (imt_size (default imt_new (merkleTree Samples.manager1)) - 1)
  /\ credentials Samples.manager1 !! cred_id Fixture.bob = None
  /\ credentials (snd (MerkleTreeManager_addCredential Samples.hashing1
                         Samples.manager1 Fixture.bob))
       !! cred_id Fixture.bob = Some Fixture.bob
  /\ (exists h, hashCredential Samples.hashing1 Fixture.bob = JS.Ok h
        /\ leafNodes (snd (MerkleTreeManager_addCredential Samples.hashing1
                             Samples.manager1 Fixture.bob))
             !! cred_id Fixture.bob = Some h)
  /\ credentialIndices (snd (MerkleTreeManager_addCredential Samples.hashing1
                               Samples.manager1 Fixture.bob))
       !! cred_id Fixture.bob = Some 1
  /\ forall id, id <> cred_id Fixture.bob ->
       credentials (snd (MerkleTreeManager_addCredential Samples.hashing1
                           Samples.manager1 Fixture.bob)) !! id
       = credentials Samples.manager1 !! id
       /\ leafNodes (snd (MerkleTreeManager_addCredential Samples.hashing1
                            Samples.manager1 Fixture.bob)) !! id
          = leafNodes Samples.manager1 !! id
       /\ credentialIndices (snd (MerkleTreeManager_addCredential Samples.hashing1
                                    Samples.manager1 Fixture.bob)) !! id
          = credentialIndices Samples.manager1 !! id.
Proof.
  apply (addCredential_success Samples.hashing1 Samples.manager1 Fixture.bob 1).
  vm_compute. reflexivity.
Defined.

Lemma addCredential_failure_keeps_state_witness :
  snd (MerkleTreeManager_addCredential Samples.hashing1 Samples.manager1
         Fixture.alice)
  = {| merkleTree := Some (default imt_new (merkleTree Samples.manager1));
       credentials := credentials Samples.manager1;
       leafNodes := leafNodes Samples.manager1;
       credentialIndices := credentialIndices Samples.manager1 |}.
Proof.
  apply (addCredential_failure_keeps_state Samples.hashing1 Samples.manager1
           Fixture.alice (JS.Err "Credential ielts-001 is already registered")).
  vm_compute. reflexivity.
Defined.

Lemma addCredential_duplicate_id_witness :
  MerkleTreeManager_addCredential Samples.hashing1 Samples.manager1 Fixture.alice
  = (JS.Throw (JS.Err ("Credential " ++ cred_id Fixture.alice
                         ++ " is already registered")),
     {| merkleTree := Some (default imt_new (merkleTree Samples.manager1));
        credentials := credentials Samples.manager1;
        leafNodes := leafNodes Samples.manager1;
        credentialIndices := credentialIndices Samples.manager1 |}).
Proof.
  apply (addCredential_duplicate_id Samples.hashing1 Samples.manager1
           Fixture.alice 760944).
  - vm_compute. by eexists.
  - vm_compute. reflexivity.
Defined.

Lemma addCredential_keeps_tables_aligned_witness :
  dom (leafNodes (snd (MerkleTreeManager_addCredential Samples.hashing1
                         Samples.manager1 Fixture.bob)))
  = dom (credentials (snd (MerkleTreeManager_addCredential Samples.hashing1
                             Samples.manager1 Fixture.bob)))
  /\ dom (credentialIndices (snd (MerkleTreeManager_addCredential Samples.hashing1
                                    Samples.manager1 Fixture.bob)))
     = dom (credentials (snd (MerkleTreeManager_addCredential Samples.hashing1
                                Samples.manager1 Fixture.bob))).
Proof.
  apply (addCredential_keeps_tables_aligned Samples.hashing1 Samples.manager1
           Fixture.bob).
  - vm_compute. reflexivity.
  - vm_compute. reflexivity.
Defined.

Lemma addCredentialsBatch_reports_witness :
  credentials (snd (addCredentialsBatch Samples.hashing1 Samples.manager1
                      [Fixture.alice; Fixture.bob]))
    !! cred_id Fixture.bob = Some Fixture.bob
  /\ credentialIndices (snd (addCredentialsBatch Samples.hashing1 Samples.manager1
                               [Fixture.alice; Fixture.bob]))
       !! cred_id Fixture.bob = Some 1.
Proof.
  apply (proj2 (addCredentialsBatch_reports Samples.hashing1
                  [Fixture.alice; Fixture.bob] Samples.manager1)
           1%nat Fixture.bob 1).
  - reflexivity.
  - vm_compute. reflexivity.
  - discriminate.
Defined.

Lemma addCredentialsBatch_uninitialised_witness :
  fst (ZKManager_addCredentialsBatch (T := list Z) ZKManager_new
         [Fixture.alice; Fixture.bob])
  = replicate (length [Fixture.alice; Fixture.bob]) (-1)
  /\ credentials (merkleTreeManager
                    (snd (ZKManager_addCredentialsBatch (T := list Z) ZKManager_new
                            [Fixture.alice; Fixture.bob])))
     = credentials (merkleTreeManager (ZKManager_new (T := list Z)))
  /\ leafNodes (merkleTreeManager
                  (snd (ZKManager_addCredentialsBatch (T := list Z) ZKManager_new
                          [Fixture.alice; Fixture.bob])))
     = leafNodes (merkleTreeManager (ZKManager_new (T := list Z)))
  /\ credentialIndices (merkleTreeManager
                          (snd (ZKManager_addCredentialsBatch (T := list Z)
                                  ZKManager_new [Fixture.alice; Fixture.bob])))
     = credentialIndices (merkleTreeManager (ZKManager_new (T := list Z))).
Proof.
  apply (addCredentialsBatch_uninitialised [Fixture.alice; Fixture.bob]
           (ZKManager_new (T := list Z))).
  reflexivity.
Defined.

Lemma generateMembershipProof_directions_witness :
  exists membership,
    generateMembershipProof Samples.manager1 760944 5 = JS.Ok membership
    /\ leafIndex membership = 5
    /\ length (siblings membership) = 32%nat
    /\ length (directions membership) = 32%nat
    /\ Forall (fun d => d = 0 \/ d = 1) (directions membership)
    /\ fromBits (directions membership) = 5.
Proof.
  apply (generateMembershipProof_directions Samples.manager1 [760944] 760944 5).
  - vm_compute. reflexivity.
  - split; [lia | reflexivity].
Defined.

Lemma nonMembershipProof_roundtrip_witness :
  exists nmp,
    generateNonMembershipProof Samples.manager1 760945 = Some nmp
    /\ MerkleTreeManager_verifyNonMembershipProof Samples.manager1 nmp
       = match imt_verifyNonMembershipProof [760944]
                 {| lib_query := 760945; lib_val := 0; lib_nextVal := 0;
                    lib_nextIdx := 0; lib_path := []; lib_directions := [];
                    lib_root := imt_root [760944] |} with
         | JS.Ok b => b
         | JS.Throw _ => false
         end.
Proof.
  apply (nonMembershipProof_roundtrip Samples.manager1 [760944] 760945
           {| lib_query := 760945; lib_val := 0; lib_nextVal := 0;
              lib_nextIdx := 0; lib_path := []; lib_directions := [];
              lib_root := Fixture.treeRoot [760944] |}).
  - vm_compute. reflexivity.
  - vm_compute. reflexivity.
Defined.

Lemma generateZKProof_all_minima_witness :
  (JS.isOk (snd (generateZKProof Samples.manager1 "2024-03-01" "ielts-001" ["name"]
                   (Some [("listening", 7%Q); ("reading", 7%Q)]))) = true
   <-> forall k t v, (k, t) ∈ [("listening", 7%Q); ("reading", 7%Q)] ->
         scores_get (scores Fixture.alice) k = VNumber v -> (t <= v)%Q)
  /\ (JS.isOk (snd (generateZKProof Samples.manager1 "2024-03-01" "ielts-001"
                      ["name"] (Some [("listening", 7%Q); ("reading", 7%Q)])))
      = false ->
      exists k t v,
        snd (generateZKProof Samples.manager1 "2024-03-01" "ielts-001" ["name"]
               (Some [("listening", 7%Q); ("reading", 7%Q)]))
        = JS.Throw (JS.Err ("Minimum score requirement not met for " ++ k))
        /\ (k, t) ∈ [("listening", 7%Q); ("reading", 7%Q)]
        /\ scores_get (scores Fixture.alice) k = VNumber v /\ ~ (t <= v)%Q).
Proof.
  apply (generateZKProof_all_minima Samples.manager1 "2024-03-01" "ielts-001"
           ["name"] [("listening", 7%Q); ("reading", 7%Q)] Fixture.alice
           760944 0 [760944]).
  - vm_compute. reflexivity.
  - vm_compute. reflexivity.
  - discriminate.
  - vm_compute. reflexivity.
  - vm_compute. reflexivity.
Defined.

Lemma generateZKProof_revealed_values_witness :
  exists credential,
    credentials Samples.manager1 !! "ielts-001" = Some credential
    /\ (forall f, f ∈ attributeNames -> f ∈ ["name"; "scores.overall"] ->
          revealedAttributes Fixture.aliceProof !! f
          = Some (credential_get credential f))
    /\ (forall k, k ∈ scoreNames -> ("scores." ++ k) ∈ ["name"; "scores.overall"] ->
          revealedAttributes Fixture.aliceProof !! ("scores." ++ k)
          = Some (scores_get (scores credential) k))
    /\ (forall f, f ∉ ["name"; "scores.overall"] ->
          revealedAttributes Fixture.aliceProof !! f = None).
Proof.
  apply (generateZKProof_revealed_values Samples.manager1 "2024-03-01" "ielts-001"
           ["name"; "scores.overall"] None Fixture.aliceProof).
  vm_compute. reflexivity.
Defined.

Lemma generated_proof_accepted_witness :
  fst (verifyZKProof Samples.hashing1 Samples.manager1 Fixture.aliceProof None)
  = negb (String.eqb (getRoot Samples.manager1) "0")
  /\ fst (verifyZKProof Samples.hashing1 Samples.manager1 Fixture.aliceProof
            (Some (getRoot Samples.manager1)))
     = negb (String.eqb (getRoot Samples.manager1) "0").
Proof.
  apply (generated_proof_accepted Samples.manager1 "2024-03-01" "ielts-001"
           ["name"; "scores.overall"] None Fixture.aliceProof
           Samples.hashing1 Samples.manager1).
  vm_compute. reflexivity.
Defined.

Lemma verifyMembershipProof_malformed_witness :
  verifyMembershipProof (C := Fixture.collaborators) {| poseidonBuilt := false |} "1"
    {| leafIndex := 0; siblings := []; directions := [] |} "1" = false.
Proof.
  apply (verifyMembershipProof_malformed {| poseidonBuilt := false |} "1"
           {| leafIndex := 0; siblings := []; directions := [] |} "1").
  left. reflexivity.
Defined.

(** A leaf written with white space is a number all the same: with no
    sibling the recomputed root is the leaf. *)
Example verifyMembershipProof_spaced_leaf :
  verifyMembershipProof (C := Fixture.collaborators) {| poseidonBuilt := true |} " 5"
    {| leafIndex := 0; siblings := []; directions := [] |} "5" = true.
Proof. reflexivity. Qed.

Lemma registerCredential_success_witness :
  entries (snd (registerCredential (T := list Z) Registry_new
                  (Fixture.signed "ielts-001" Fixture.alice)))
    !! "ielts-001" = Some Samples.aliceEntry
  /\ getCredentialStatus
       (snd (registerCredential (T := list Z) Registry_new
               (Fixture.signed "ielts-001" Fixture.alice))) "ielts-001"
     = "valid".
Proof.
  pose proof (registerCredential_success (T := list Z) Registry_new
                (Fixture.signed "ielts-001" Fixture.alice) Samples.aliceEntry)
    as Hreg.
  destruct Hreg as (Hentry & _ & _ & _ & _ & _ & Hstatus & _).
  - vm_compute. reflexivity.
  - split; [exact Hentry | exact Hstatus].
Defined.

Lemma revokeCredential_only_revokes_witness :
  "ielts-001" = "ielts-001"
  /\ exists e, entries Fixture.registry1 !! "ielts-001" = Some e
       /\ entry_issuer e = Fixture.council /\ revoked e = false.
Proof.
  apply (proj2 (proj2 (revokeCredential_only_revokes Fixture.registry1 "ielts-001"
                         Fixture.council "ielts-001"))).
  vm_compute. discriminate.
Defined.

Lemma verifyCredentialIntegrity_index_zero_witness :
  getCredentialStatus
    (snd (registerCredential (T := list Z) Registry_new
            (Fixture.signed "ielts-001" Fixture.alice))) "ielts-001" = "valid"
  /\ verifyCredentialIntegrity
       (snd (registerCredential (T := list Z) Registry_new
               (Fixture.signed "ielts-001" Fixture.alice))) "ielts-001" = false.
Proof.
  apply (proj2 (verifyCredentialIntegrity_index_zero (T := list Z) Registry_new
                  (Fixture.signed "ielts-001" Fixture.alice) Samples.aliceEntry
                  "ielts-001")).
  - vm_compute. discriminate.
  - vm_compute. reflexivity.
Defined.

Lemma verifyPresentation_sound_witness :
  exists credential others,
    verifiableCredential Fixture.presentation1 = credential :: others
    /\ issuer credential ∈ v_trustedIssuers Fixture.verifier1
    /\ wellSigned credential
    /\ structurallyAccepted (vp_proof Fixture.presentation1) None = true
    /\ checkRequirements (revealedAttributes (vp_proof Fixture.presentation1)) None
       = true
    /\ (forall ref, v_registry Fixture.verifier1 = Some ref ->
          exists registry, Fixture.store1 !! ref = Some registry
            /\ isCredentialRevoked registry (vc_id credential) = false)
    /\ verifyCredentialDirect Fixture.verifier1 credential = JS.Ok true
    /\ revealedData (verifyPresentation Fixture.store1 Fixture.verifier1
                       Fixture.presentation1 None)
       = revealedAttributes (vp_proof Fixture.presentation1).
Proof.
  apply (verifyPresentation_sound Fixture.store1 Fixture.verifier1
           Fixture.presentation1 None).
  vm_compute. reflexivity.
Defined.

Lemma removeTrustedIssuer_takes_effect_witness :
  isValid (verifyPresentation Fixture.store1
             (Verifier_removeTrustedIssuer Fixture.verifier1 Fixture.council)
             Fixture.presentation1 None) = false.
Proof.
  apply (proj1 (proj2 (removeTrustedIssuer_takes_effect Fixture.store1
                         Fixture.verifier1 Fixture.presentation1 None
                         (Fixture.signed "ielts-001" Fixture.alice) []
                         eq_refl))).
Defined.

Lemma issueIELTSCredential_success_witness :
  issuedCredentials Samples.issuer1 !! "ielts-001"
  = Some (Fixture.signed "ielts-001" Fixture.alice).
Proof.
  pose proof (issueIELTSCredential_success Samples.issuer0 "2024-01-02"
                "2024-01-02" "ielts-generated" (Some "ielts-001") Fixture.alice
                (Fixture.signed "ielts-001" Fixture.alice)) as Hissue.
  destruct Hissue as (kp & _ & _ & _ & _ & _ & Hissued & _).
  - vm_compute. reflexivity.
  - exact Hissued.
Defined.

Lemma Issuer_revokeCredential_forgets_witness :
  fst (Issuer_revokeCredential Samples.issuer1 "ielts-001") = JS.Ok true
  /\ issuedCredentials (snd (Issuer_revokeCredential Samples.issuer1 "ielts-001"))
       !! "ielts-001" = None
  /\ (forall other, other <> "ielts-001" ->
        issuedCredentials (snd (Issuer_revokeCredential Samples.issuer1 "ielts-001"))
          !! other
        = issuedCredentials Samples.issuer1 !! other)
  /\ i_zkManager (snd (Issuer_revokeCredential Samples.issuer1 "ielts-001"))
     = i_zkManager Samples.issuer1
  /\ forall credential, cred_id credential = "ielts-001" ->
       verifyOwnCredential (snd (Issuer_revokeCredential Samples.issuer1 "ielts-001"))
         credential = JS.Ok false.
Proof.
  apply (proj2 (Issuer_revokeCredential_forgets Samples.issuer1 "ielts-001")).
  vm_compute. by eexists.
Defined.

Lemma holder_keeps_only_verified_witness :
  vc_id (Fixture.signed "ielts-001" Fixture.alice) = "ielts-001"
  /\ issuer (Fixture.signed "ielts-001" Fixture.alice)
     ∈ h_trustedIssuers Samples.aliceHolder
  /\ (exists subject p,
        credentialSubject (Fixture.signed "ielts-001" Fixture.alice) = Some subject
        /\ proof (Fixture.signed "ielts-001" Fixture.alice) = Some p
        /\ blsVerify (publicKey p) (credentialToMessages subject) (signature p) = true
        /\ credentials (merkleTreeManager (h_zkManager Samples.aliceHolder))
             !! cred_id subject = Some subject).
Proof.
  apply (holder_keeps_only_verified "did:example:holder:alice" Samples.holderCalls
           "ielts-001" (Fixture.signed "ielts-001" Fixture.alice)).
  vm_compute. reflexivity.
Defined.

Lemma selectBestCredential_best_witness :
  exists best subject,
    selectBestCredential [Fixture.signed "ielts-000" Samples.aliceOld;
                          Fixture.signed "ielts-001" Fixture.alice]
      Samples.requestName = JS.Ok (Some best)
    /\ best ∈ [Fixture.signed "ielts-000" Samples.aliceOld;
               Fixture.signed "ielts-001" Fixture.alice]
    /\ credentialSubject best = Some subject
    /\ forall other otherSubject,
         other ∈ [Fixture.signed "ielts-000" Samples.aliceOld;
                  Fixture.signed "ielts-001" Fixture.alice] ->
         credentialSubject other = Some otherSubject ->
         (isExpired subject = true -> isExpired otherSubject = true)
         /\ (isExpired subject = isExpired otherSubject ->
             exists date otherDate,
               dateValue (certificationDate subject) = Some date
               /\ dateValue (certificationDate otherSubject) = Some otherDate
               /\ (otherDate <= date)%Q).
Proof.
  apply (selectBestCredential_best
           [Fixture.signed "ielts-000" Samples.aliceOld;
            Fixture.signed "ielts-001" Fixture.alice] Samples.requestName).
  - discriminate.
  - repeat (constructor;
            [eexists; split; [reflexivity | vm_compute; by eexists]|]).
    constructor.
Defined.

(** Without the premise on the dates the choice can be another: bob's
    credential comes first, then one whose certification date does not
    parse, then alice's, unexpired and certified later than bob's.  Every
    comparison with the middle one answers [NaN], the order stays as it
    is, and bob's credential is selected. *)
Example selectBestCredential_unparsed_date :
  selectBestCredential [Fixture.signed "ielts-002" Samples.bobEarlier;
                        Fixture.signed "ielts-000" Samples.aliceUndated;
                        Fixture.signed "ielts-001" Fixture.alice]
    Samples.requestName
  = JS.Ok (Some (Fixture.signed "ielts-002" Samples.bobEarlier))
  /\ isExpired Samples.bobEarlier = isExpired Fixture.alice
  /\ dateValue (certificationDate Samples.aliceUndated) = None
  /\ dateValue (certificationDate Samples.bobEarlier) = Some (inject_Z 20230201)
  /\ dateValue (certificationDate Fixture.alice) = Some (inject_Z 20240101).
Proof. repeat split; vm_compute; reflexivity. Qed.

Lemma presentation_accepted_witness :
  isValid (verifyPresentation ∅ Samples.verifier2 Fixture.presentation1
             (Some Samples.requestName)) = true
  /\ exists credential subject,
       verifiableCredential Fixture.presentation1 = [credential]
       /\ credential ∈ [Fixture.signed "ielts-001" Fixture.alice]
       /\ credentialSubject credential = Some subject
       /\ revealedData (verifyPresentation ∅ Samples.verifier2 Fixture.presentation1
                          (Some Samples.requestName))
          = revealAll subject (requiredFields Samples.requestName).
Proof.
  apply (presentation_accepted "did:example:holder:alice" Samples.holderCalls
           [Fixture.signed "ielts-001" Fixture.alice] "2024-03-01" "presentation-1"
           Samples.requestName Fixture.presentation1 ∅ Samples.verifier2).
  - intros credential Hin. apply list_elem_of_singleton in Hin. subst credential.
    vm_compute. reflexivity.
  - vm_compute. reflexivity.
  - vm_compute. discriminate.
  - intros f Hf. apply elem_of_cons in Hf as [->|Hf].
    + left. by repeat constructor.
    + apply list_elem_of_singleton in Hf. subst f.
      right. exists "overall". split; [by repeat constructor | reflexivity].
  - intros k t Hin. apply list_elem_of_singleton in Hin.
    injection Hin as -> ->. by repeat constructor.
  - intros credential subject Hin Hsub.
    apply list_elem_of_singleton in Hin. subst credential.
    injection Hsub as <-. split; discriminate.
  - intros x Hx. vm_compute in Hx. exact Hx.
  - discriminate.
Defined.

Lemma generateRangeProof_discloses_witness :
  exists r v,
    generateRangeProof Samples.manager1 "2024-03-01" "ielts-001"
      ("scores." ++ "overall") 7%Q 9%Q = JS.Ok r
    /\ scores_get (scores Fixture.alice) "overall" = VNumber v
    /\ (inRange r = true <-> (7 <= v)%Q /\ (v <= 9)%Q)
    /\ actualInRange r = inRange r
    /\ provenInRange (range_meta r) = inRange r
    /\ revealedAttributes (range_proof r) = {[ "scores." ++ "overall" := VNumber v ]}.
Proof.
  apply (generateRangeProof_discloses Samples.manager1 "2024-03-01" "ielts-001"
           "overall" 7%Q 9%Q Fixture.alice 760944 0 [760944]).
  - by repeat constructor.
  - vm_compute. reflexivity.
  - vm_compute. reflexivity.
  - discriminate.
  - vm_compute. reflexivity.
  - vm_compute. reflexivity.
Defined.

Lemma getFieldMapping_matches_messages_witness :
  exists message,
    credentialToMessages Fixture.alice !! 8%nat = Some message
    /\ (("scores.overall" ∈ attributeNames
         /\ credential_get Fixture.alice "scores.overall" = VString message)
        \/ (exists k v,
              k ∈ scoreNames /\ "scores.overall" = "scores." ++ k
              /\ scores_get (scores Fixture.alice) k = VNumber v
              /\ message = numberToString v)).
Proof.
  apply (getFieldMapping_matches_messages Fixture.alice "scores.overall" 8%nat).
  reflexivity.
Defined.

Lemma issued_credential_accepted_witness :
  (issuerId Samples.issuer0 ∈ v_trustedIssuers Samples.verifier2 ->
   verifyCredentialDirect Samples.verifier2
     (Fixture.signed "ielts-001" Fixture.alice) = JS.Ok true)
  /\ (issuerId Samples.issuer0 ∈ h_trustedIssuers Fixture.holder1 ->
      fst (storeCredential Fixture.holder1 (Fixture.signed "ielts-001" Fixture.alice))
      = match fst (ZKManager_addCredential (h_zkManager Fixture.holder1)
                     (withId (default "ielts-generated" (Some "ielts-001"))
                        Fixture.alice)) with
        | JS.Ok _ => JS.Ok ()
        | JS.Throw e => JS.Throw e
        end).
Proof.
  apply (issued_credential_accepted Samples.issuer0 "2024-01-02" "2024-01-02"
           "ielts-generated"
           (Some "ielts-001") Fixture.alice
           (Fixture.signed "ielts-001" Fixture.alice)
           Fixture.holder1 Samples.verifier2).
  - vm_compute. reflexivity.
  - intros keyPair messages. apply bool_decide_eq_true_2. reflexivity.
Defined.

Lemma createSelectiveDisclosurePresentation_of_held_witness :
  exists subject p,
    credentialSubject (Fixture.signed "ielts-001" Fixture.alice) = Some subject
    /\ proof (Fixture.signed "ielts-001" Fixture.alice) = Some p
    /\ createSelectiveDisclosurePresentation Samples.aliceHolder "nonce-1" "ielts-001"
         ["name"; "nickname"; "scores.overall"]
       = JS.Ok {| sd_proof := (signature p ++ [2; 8])%list;
                  sd_revealedFields := ["name"; "nickname"; "scores.overall"];
                  sd_credentialId := "ielts-001" |}
    /\ Forall (fun index =>
                 exists position,
                   index = VNumber (inject_Z (Z.of_nat position))
                   /\ is_Some (credentialToMessages subject !! position))
              (revealedIndices ["name"; "nickname"; "scores.overall"]).
Proof.
  destruct (proj2 (createSelectiveDisclosurePresentation_of_held
                     "did:example:holder:alice" Samples.holderCalls "nonce-1"
                     "ielts-001" ["name"; "nickname"; "scores.overall"])
              (Fixture.signed "ielts-001" Fixture.alice))
    as (subject & p & Hs & Hp & Hcall & _ & _ & Hpositions).
  - vm_compute. reflexivity.
  - exists subject, p. split; [done|]. split; [done|]. split.
    + unfold Samples.aliceHolder. rewrite Hcall.
      injection Hs as <-. injection Hp as <-. reflexivity.
    + apply Hpositions. intros name Hinh Hin. unfold inheritedNames in Hinh.
      repeat (apply elem_of_cons in Hinh as [->|Hinh];
              [repeat (apply elem_of_cons in Hin as [Hin|Hin]; [discriminate|]);
               by apply elem_of_nil in Hin|]).
      by apply elem_of_nil in Hinh.
Defined.

(** The same call with ['toString'] among the fields: the array handed to
    the signature package holds the function inherited under that name,
    and the stand-in package refuses it. *)
Example createSelectiveDisclosurePresentation_inherited_name :
  revealedIndices ["name"; "toString"]
  = [VNumber (inject_Z 2); VInherited "toString"]
  /\ createSelectiveDisclosurePresentation Samples.aliceHolder "nonce-1" "ielts-001"
       ["name"; "toString"]
     = JS.Throw (JS.TypeError "revealed index out of range").
Proof. split; vm_compute; reflexivity. Qed.

